(** * amazon-chime-sdk-js: uplink bandwidth policy, codec reordering and the
      set-local-description task

    A shallow embedding of
      - [NScaleVideoUplinkBandwidthPolicy] (the N-participant scaling uplink policy),
      - [SetLocalDescriptionTask] (the cancellable commit of the local offer),
      - the codec catalog [VideoCodecCapability] and the codec reordering of
        [SDP.withVideoSendCodecPreferences],
    with the properties the specification states about them.

    Conventions.
      - A JavaScript [number] is a finite double, read as the rational it
        denotes, a canonical [Qc].  The results of [+], [*] and [/] on numbers
        are rounded to the nearest double, a tie going to the even one, as
        binary64 arithmetic does ([Number.fl]; the exponent has its lower bound
        and no upper bound).  Infinity and NaN are not values of the model:
        where a result of the code could leave the range of the finite doubles,
        the properties state the range they speak about.  The two zeros are
        one.  A [number] that the code only ever fills with an integer (a
        count, a value of [Math.trunc], a literal such as 640) is a [Z].
      - [undefined] is [None].
      - Module [Double] evaluates the same formulas on the doubles of the
        kernel, for comparison at chosen inputs.
      - An object of a collaborator that the policy only holds a reference to
        (the transceiver controller) is kept in the state as the current value
        of what its accessors answer; the one method the policy calls on it with
        an effect, [setEncodingParameters], is a parameter of the model. *)

From stdpp Require Import base option list strings gmap numbers.
From Stdlib Require Import Ascii QArith Qcanon Qround Qpower Lqa.
From Stdlib Require Import PrimFloat FloatOps SpecFloat Uint63.

Local Open Scope Z_scope.

(** ** Numbers *)

Module Number.

(** An integer literal or integer-valued number used in fractional arithmetic. *)
Definition num (z : Z) : Qc := Qc_of_Z z.

(** [Math.trunc]: the integer part, rounding toward zero. *)
Definition Math_trunc (q : Qc) : Z := Z.quot (Qnum q) (Zpos (Qden q)).

(** The floor of the specification's formulas (rounding toward minus
    infinity); the code never calls it. *)
Definition floor (q : Qc) : Z := Qfloor q.

(** [Math.max] and [Math.min] on two numbers. *)
Definition Math_max (a b : Qc) : Qc :=
  match (a ?= b)%Qc with Lt => b | _ => a end.

Definition Math_min (a b : Qc) : Qc :=
  match (a ?= b)%Qc with Gt => b | _ => a end.

(** *** Rounding to a double *)

(** The exponent of a positive number: the [e] with 2^e <= q < 2^(e+1). *)
Definition exponent (q : Q) : Z :=
  let guess := Z.log2 (Qnum q) - Z.log2 (Zpos (Qden q)) in
  if Qle_bool (2 ^ guess) q then guess else guess - 1.

(** The nearest integer, a tie going to the even one. *)
Definition nearest (q : Q) : Z :=
  let below := Qfloor q in
  match (q - inject_Z below ?= 1 # 2)%Q with
  | Lt => below
  | Gt => below + 1
  | Eq => if Z.even below then below else below + 1
  end.

(** The weight of the last of the 53 significant bits of the double for [q];
    at the bottom of the range (the subnormal numbers) it stays at 2^-1074. *)
Definition ulpExponent (q : Q) : Z := Z.max (exponent q - 52) (-1074).

Definition ulp (q : Q) : Q := (2 ^ ulpExponent q)%Q.

(** A magnitude, rounded to a multiple of the weight of its last bit. *)
Definition roundMagnitude (q : Q) : Q :=
  (inject_Z (nearest (q / ulp q)) * ulp q)%Q.

Definition round (q : Q) : Q :=
  if Qle_bool 0 q then roundMagnitude q else (- roundMagnitude (- q))%Q.

(** The double nearest to an exact result. *)
Definition fl (q : Qc) : Qc := Q2Qc (round q).

(** [a + b], [a * b] and [a / b] on numbers (the code divides by no zero). *)
Definition add (a b : Qc) : Qc := fl (a + b).

Definition mul (a b : Qc) : Qc := fl (a * b).

Definition div (a b : Qc) : Qc := fl (a / b).

(** [Number.MAX_VALUE], the largest finite double: (2^53 - 1) * 2^971. *)
Definition MAX_VALUE : Qc := num ((2 ^ 53 - 1) * 2 ^ 971).

(** An exact result in the range of the finite doubles: rounding it does not
    give an infinity. *)
Definition inRange (q : Qc) : Prop := (- MAX_VALUE <= q <= MAX_VALUE)%Qc.

(** A number that is a double: rounding leaves it as it is. *)
Definition isDouble (q : Qc) : Prop := fl q = q.

Declare Scope js_scope.
Delimit Scope js_scope with js.
Arguments add (a b)%_js.
Arguments mul (a b)%_js.
Arguments div (a b)%_js.
Infix "+" := add : js_scope.
Infix "*" := mul : js_scope.
Infix "/" := div : js_scope.

End Number.

Import Number.

(** ** The codec catalog (src/sdp/VideoCodecCapability.ts) *)

Record RTCRtpCodecCapability := {
  clockRate : Z;
  mimeType : string;
  sdpFmtpLine : option string }.

Record VideoCodecCapability := {
  codecName : string;
  codecCapability : RTCRtpCodecCapability }.

Module Codec.

Definition vp8 : VideoCodecCapability :=
  {| codecName := "VP8";
     codecCapability :=
       {| clockRate := 90000; mimeType := "video/VP8"; sdpFmtpLine := None |} |}.

Definition h264ConstrainedBaselineProfile : VideoCodecCapability :=
  {| codecName := "H264";
     codecCapability :=
       {| clockRate := 90000; mimeType := "video/H264";
          sdpFmtpLine :=
            Some "level-asymmetry-allowed=1;packetization-mode=1;profile-level-id=42e01f" |} |}.

Definition vp9Profile0 : VideoCodecCapability :=
  {| codecName := "VP9";
     codecCapability :=
       {| clockRate := 90000; mimeType := "video/VP9"; sdpFmtpLine := Some "profile-id=0" |} |}.

Definition vp9Profile1 : VideoCodecCapability :=
  {| codecName := "VP9";
     codecCapability :=
       {| clockRate := 90000; mimeType := "video/VP9"; sdpFmtpLine := Some "profile-id=1" |} |}.

Definition vp9Profile2 : VideoCodecCapability :=
  {| codecName := "VP9";
     codecCapability :=
       {| clockRate := 90000; mimeType := "video/VP9"; sdpFmtpLine := Some "profile-id=2" |} |}.

Definition vp9 : VideoCodecCapability := vp9Profile0.

Definition av1MainProfile : VideoCodecCapability :=
  {| codecName := "AV1";
     codecCapability :=
       {| clockRate := 90000; mimeType := "video/AV1"; sdpFmtpLine := None |} |}.

Definition av1 : VideoCodecCapability := av1MainProfile.

End Codec.

#[global] Instance RTCRtpCodecCapability_eq_dec : EqDecision RTCRtpCodecCapability.
Proof. solve_decision. Defined.

#[global] Instance VideoCodecCapability_eq_dec : EqDecision VideoCodecCapability.
Proof. solve_decision. Defined.

(** ** Collaborators of the policy *)

(** [MediaTrackSettings]: the live capture dimensions, each possibly unknown. *)
Record MediaTrackSettings := {
  width : option Qc;
  height : option Qc }.

(** [RTCRtpEncodingParameters], with the two members the policy reads and writes. *)
Record RTCRtpEncodingParameters := {
  maxBitrate : option Qc;
  scaleResolutionDownBy : option Qc }.

#[global] Instance RTCRtpEncodingParameters_eq_dec : EqDecision RTCRtpEncodingParameters.
Proof. solve_decision. Defined.

(** What [sender.getParameters()] answers. *)
Record RTCRtpSendParameters := {
  encodings : option (list RTCRtpEncodingParameters) }.

Record MediaStreamTrack := {
  getSettings : option MediaTrackSettings }.

Record RTCRtpSender := {
  track : option MediaStreamTrack;
  getParameters : option RTCRtpSendParameters }.

Record RTCRtpTransceiver := {
  sender : option RTCRtpSender }.

(** The answers of a [TransceiverController] to the accessors the policy calls. *)
Record TransceiverController := {
  hasVideoInput : bool;
  localVideoTransceiver : option RTCRtpTransceiver }.

(** A [VideoStreamIndex], as far as the policy consults it. *)
Record VideoStreamIndex := {
  numberOfVideoPublishingParticipantsExcludingSelf : string -> Z }.

(** Modelled from the spec: the class [DefaultVideoCaptureAndEncodeParameter] is
    imported by the policy and is not among the sources.  It is the value
    (capture width, capture height, frame rate, maximum bandwidth, simulcast
    flag, scale) that the policy's constructor calls build; [clone] copies the
    value and [equal] compares two values. *)
Record DefaultVideoAndEncodeParameter := {
  paramWidth : Z;
  paramHeight : Z;
  paramFrameRate : Z;
  paramMaxBandwidthKbps : Z;
  paramIsSimulcast : bool;
  paramScale : Qc }.

#[global] Instance DefaultVideoAndEncodeParameter_eq_dec :
  EqDecision DefaultVideoAndEncodeParameter.
Proof. solve_decision. Defined.

Module Param.

(** Modelled from the spec: the constructor; the sixth argument may be left
    out (the policy's own constructor does), and then no scaling (1) is meant. *)
Definition new (w h f b : Z) (sim : bool) (scale : option Qc)
  : DefaultVideoAndEncodeParameter :=
  {| paramWidth := w; paramHeight := h; paramFrameRate := f;
     paramMaxBandwidthKbps := b; paramIsSimulcast := sim;
     paramScale := default (num 1) scale |}.

(** Modelled from the spec: [clone()] is a copy of the value. *)
Definition clone (p : DefaultVideoAndEncodeParameter) : DefaultVideoAndEncodeParameter :=
  new (paramWidth p) (paramHeight p) (paramFrameRate p) (paramMaxBandwidthKbps p)
      (paramIsSimulcast p) (Some (paramScale p)).

(** Modelled from the spec: [equal(other)] holds when the two values agree. *)
Definition equal (p other : DefaultVideoAndEncodeParameter) : bool :=
  bool_decide (p = other).

End Param.

(** ** NScaleVideoUplinkBandwidthPolicy (src/unnamed/part_000) *)

(** The fields of the class.  [logger] only receives messages and is left out;
    [transceiverController] holds what the referenced controller currently
    answers. *)
Record NScaleVideoUplinkBandwidthPolicy := {
  selfAttendeeId : string;
  scaleResolution : bool;
  numParticipants : Z;
  optimalParameters : DefaultVideoAndEncodeParameter;
  parametersInEffect : DefaultVideoAndEncodeParameter;
  idealMaxBandwidthKbps : Qc;
  hasBandwidthPriority : bool;
  encodingParamMap : gmap string RTCRtpEncodingParameters;
  transceiverController : option TransceiverController;
  videoCodecPreferences : list VideoCodecCapability;
  wantsResubscribeForVideoCodecPreferenceChange : bool }.

Module Policy.

Definition encodingMapKey : string := "video".

(** Entries 0, 1 and 2 are dummies: the original resolution is kept then. *)
Definition targetHeightArray : list Z :=
  [0; 0; 0; 540; 540; 480; 480; 480; 480; 360; 360; 360; 360;
   270; 270; 270; 270; 180; 180; 180; 180; 180; 180; 180; 180; 180].

(** The constructor, with the field initialisers of the class. *)
Definition new (selfAttendeeId : string) (scaleResolution : bool)
  : NScaleVideoUplinkBandwidthPolicy :=
  {| selfAttendeeId := selfAttendeeId;
     scaleResolution := scaleResolution;
     numParticipants := 0;
     optimalParameters := Param.new 0 0 0 0 false None;
     parametersInEffect := Param.new 0 0 0 0 false None;
     idealMaxBandwidthKbps := num 1400;
     hasBandwidthPriority := false;
     encodingParamMap :=
       {[ encodingMapKey := {| maxBitrate := Some (num 0); scaleResolutionDownBy := None |} ]};
     transceiverController := None;
     videoCodecPreferences := [];
     wantsResubscribeForVideoCodecPreferenceChange := false |}.

(** Assignments to single fields. *)
Definition set_numParticipants (n : Z) (p : NScaleVideoUplinkBandwidthPolicy) :=
  {| selfAttendeeId := selfAttendeeId p; scaleResolution := scaleResolution p;
     numParticipants := n;
     optimalParameters := optimalParameters p; parametersInEffect := parametersInEffect p;
     idealMaxBandwidthKbps := idealMaxBandwidthKbps p;
     hasBandwidthPriority := hasBandwidthPriority p;
     encodingParamMap := encodingParamMap p;
     transceiverController := transceiverController p;
     videoCodecPreferences := videoCodecPreferences p;
     wantsResubscribeForVideoCodecPreferenceChange :=
       wantsResubscribeForVideoCodecPreferenceChange p |}.

Definition set_optimalParameters (v : DefaultVideoAndEncodeParameter)
  (p : NScaleVideoUplinkBandwidthPolicy) :=
  {| selfAttendeeId := selfAttendeeId p; scaleResolution := scaleResolution p;
     numParticipants := numParticipants p;
     optimalParameters := v; parametersInEffect := parametersInEffect p;
     idealMaxBandwidthKbps := idealMaxBandwidthKbps p;
     hasBandwidthPriority := hasBandwidthPriority p;
     encodingParamMap := encodingParamMap p;
     transceiverController := transceiverController p;
     videoCodecPreferences := videoCodecPreferences p;
     wantsResubscribeForVideoCodecPreferenceChange :=
       wantsResubscribeForVideoCodecPreferenceChange p |}.

Definition set_parametersInEffect (v : DefaultVideoAndEncodeParameter)
  (p : NScaleVideoUplinkBandwidthPolicy) :=
  {| selfAttendeeId := selfAttendeeId p; scaleResolution := scaleResolution p;
     numParticipants := numParticipants p;
     optimalParameters := optimalParameters p; parametersInEffect := v;
     idealMaxBandwidthKbps := idealMaxBandwidthKbps p;
     hasBandwidthPriority := hasBandwidthPriority p;
     encodingParamMap := encodingParamMap p;
     transceiverController := transceiverController p;
     videoCodecPreferences := videoCodecPreferences p;
     wantsResubscribeForVideoCodecPreferenceChange :=
       wantsResubscribeForVideoCodecPreferenceChange p |}.

Definition set_idealMaxBandwidthKbps (v : Qc) (p : NScaleVideoUplinkBandwidthPolicy) :=
  {| selfAttendeeId := selfAttendeeId p; scaleResolution := scaleResolution p;
     numParticipants := numParticipants p;
     optimalParameters := optimalParameters p; parametersInEffect := parametersInEffect p;
     idealMaxBandwidthKbps := v;
     hasBandwidthPriority := hasBandwidthPriority p;
     encodingParamMap := encodingParamMap p;
     transceiverController := transceiverController p;
     videoCodecPreferences := videoCodecPreferences p;
     wantsResubscribeForVideoCodecPreferenceChange :=
       wantsResubscribeForVideoCodecPreferenceChange p |}.

Definition set_hasBandwidthPriority (v : bool) (p : NScaleVideoUplinkBandwidthPolicy) :=
  {| selfAttendeeId := selfAttendeeId p; scaleResolution := scaleResolution p;
     numParticipants := numParticipants p;
     optimalParameters := optimalParameters p; parametersInEffect := parametersInEffect p;
     idealMaxBandwidthKbps := idealMaxBandwidthKbps p;
     hasBandwidthPriority := v;
     encodingParamMap := encodingParamMap p;
     transceiverController := transceiverController p;
     videoCodecPreferences := videoCodecPreferences p;
     wantsResubscribeForVideoCodecPreferenceChange :=
       wantsResubscribeForVideoCodecPreferenceChange p |}.

Definition set_encodingParamMap (v : gmap string RTCRtpEncodingParameters)
  (p : NScaleVideoUplinkBandwidthPolicy) :=
  {| selfAttendeeId := selfAttendeeId p; scaleResolution := scaleResolution p;
     numParticipants := numParticipants p;
     optimalParameters := optimalParameters p; parametersInEffect := parametersInEffect p;
     idealMaxBandwidthKbps := idealMaxBandwidthKbps p;
     hasBandwidthPriority := hasBandwidthPriority p;
     encodingParamMap := v;
     transceiverController := transceiverController p;
     videoCodecPreferences := videoCodecPreferences p;
     wantsResubscribeForVideoCodecPreferenceChange :=
       wantsResubscribeForVideoCodecPreferenceChange p |}.

Definition set_transceiverController (v : option TransceiverController)
  (p : NScaleVideoUplinkBandwidthPolicy) :=
  {| selfAttendeeId := selfAttendeeId p; scaleResolution := scaleResolution p;
     numParticipants := numParticipants p;
     optimalParameters := optimalParameters p; parametersInEffect := parametersInEffect p;
     idealMaxBandwidthKbps := idealMaxBandwidthKbps p;
     hasBandwidthPriority := hasBandwidthPriority p;
     encodingParamMap := encodingParamMap p;
     transceiverController := v;
     videoCodecPreferences := videoCodecPreferences p;
     wantsResubscribeForVideoCodecPreferenceChange :=
       wantsResubscribeForVideoCodecPreferenceChange p |}.

Definition set_videoCodecPreferences (v : list VideoCodecCapability)
  (p : NScaleVideoUplinkBandwidthPolicy) :=
  {| selfAttendeeId := selfAttendeeId p; scaleResolution := scaleResolution p;
     numParticipants := numParticipants p;
     optimalParameters := optimalParameters p; parametersInEffect := parametersInEffect p;
     idealMaxBandwidthKbps := idealMaxBandwidthKbps p;
     hasBandwidthPriority := hasBandwidthPriority p;
     encodingParamMap := encodingParamMap p;
     transceiverController := transceiverController p;
     videoCodecPreferences := v;
     wantsResubscribeForVideoCodecPreferenceChange :=
       wantsResubscribeForVideoCodecPreferenceChange p |}.

Definition set_wantsResubscribeForVideoCodecPreferenceChange (v : bool)
  (p : NScaleVideoUplinkBandwidthPolicy) :=
  {| selfAttendeeId := selfAttendeeId p; scaleResolution := scaleResolution p;
     numParticipants := numParticipants p;
     optimalParameters := optimalParameters p; parametersInEffect := parametersInEffect p;
     idealMaxBandwidthKbps := idealMaxBandwidthKbps p;
     hasBandwidthPriority := hasBandwidthPriority p;
     encodingParamMap := encodingParamMap p;
     transceiverController := transceiverController p;
     videoCodecPreferences := videoCodecPreferences p;
     wantsResubscribeForVideoCodecPreferenceChange := v |}.

(** *** Methods that read *)

Definition captureWidth (this : NScaleVideoUplinkBandwidthPolicy) : Z :=
  if bool_decide (numParticipants this > 4) then 320 else 640.

Definition captureHeight (this : NScaleVideoUplinkBandwidthPolicy) : Z :=
  if bool_decide (numParticipants this > 4) then 192 else 384.

Definition captureFrameRate (this : NScaleVideoUplinkBandwidthPolicy) : Z := 15.

Definition maxBandwidthKbps (this : NScaleVideoUplinkBandwidthPolicy) : Z :=
  if hasBandwidthPriority this then Math_trunc (idealMaxBandwidthKbps this)
  else
    let rate :=
      if bool_decide (numParticipants this <= 2) then idealMaxBandwidthKbps this
      else if bool_decide (numParticipants this <= 4) then
        ((idealMaxBandwidthKbps this * num 2) / num 3)%js
      else
        (((num 544 / num 11 + num 14880 / (num 11 * num (numParticipants this)))
          / num 600) * idealMaxBandwidthKbps this)%js in
    Math_trunc rate.

Definition wantsResubscribe (this : NScaleVideoUplinkBandwidthPolicy) : bool :=
  wantsResubscribeForVideoCodecPreferenceChange this
  || negb (Param.equal (parametersInEffect this) (optimalParameters this)).

(** [this.transceiverController?.localVideoTransceiver()?.sender?.track?.getSettings()] *)
Definition getStreamCaptureSetting (this : NScaleVideoUplinkBandwidthPolicy)
  : option MediaTrackSettings :=
  tc ← transceiverController this;
  tr ← localVideoTransceiver tc;
  s ← sender tr;
  t ← track s;
  getSettings t.

(** The guard of the resolution scale-down, in the order the source tests it. *)
Definition scalesDown (this : NScaleVideoUplinkBandwidthPolicy)
  (setting : MediaTrackSettings) : bool :=
  bool_decide (height setting <> None) && bool_decide (width setting <> None)
  && scaleResolution this && negb (hasBandwidthPriority this)
  && bool_decide (numParticipants this > 2).

(** [targetHeightArray[Math.min(numParticipants, targetHeightArray.length - 1)]];
    under [scalesDown] the index lies between 3 and 25.  (An index outside the
    array, which cannot occur there, reads as 0.) *)
Definition targetHeight (this : NScaleVideoUplinkBandwidthPolicy) : Z :=
  default 0
    (targetHeightArray
       !! Z.to_nat (Z.min (numParticipants this) (Z.of_nat (length targetHeightArray) - 1))).

Definition calculateEncodingParameters (this : NScaleVideoUplinkBandwidthPolicy)
  (setting : MediaTrackSettings) : RTCRtpEncodingParameters :=
  let maxBitrate := (num (maxBandwidthKbps this) * num 1000)%js in
  let scale :=
    if scalesDown this setting then
      Math_max
        (Math_min (default (num 0) (height setting)) (default (num 0) (width setting))
         / num (targetHeight this))%js
        (num 1)
    else num 1 in
  {| scaleResolutionDownBy := Some scale; maxBitrate := Some maxBitrate |}.

(** [transceiverController.localVideoTransceiver().sender.getParameters()?.encodings?.[0]].
    The first dereferences carry no [?.] in the source; the function is only
    reached after [getStreamCaptureSetting] answered, so they are defined
    (lemma [settings_sender] below). *)
Definition transceiverEncoding (this : NScaleVideoUplinkBandwidthPolicy)
  : option RTCRtpEncodingParameters :=
  tc ← transceiverController this;
  tr ← localVideoTransceiver tc;
  s ← sender tr;
  ps ← getParameters s;
  es ← encodings ps;
  es !! 0%nat.

Definition shouldUpdateEndcodingParameters (this : NScaleVideoUplinkBandwidthPolicy)
  (encoding : RTCRtpEncodingParameters) : bool :=
  let te := transceiverEncoding this in
  bool_decide (maxBitrate encoding <> (te ≫= maxBitrate))
  || bool_decide (scaleResolutionDownBy encoding <> (te ≫= scaleResolutionDownBy)).

Definition chooseEncodingParameters (this : NScaleVideoUplinkBandwidthPolicy)
  : gmap string RTCRtpEncodingParameters := ∅.

(** *** Methods that write *)

Definition updateIndex (this : NScaleVideoUplinkBandwidthPolicy)
  (videoIndex : VideoStreamIndex) : NScaleVideoUplinkBandwidthPolicy :=
  let hasLocalVideo :=
    match transceiverController this with
    | Some tc => hasVideoInput tc
    | None => true
    end in
  (* the +1 for self assumes that we intend to send video *)
  let this :=
    set_numParticipants
      (numberOfVideoPublishingParticipantsExcludingSelf videoIndex (selfAttendeeId this)
       + (if hasLocalVideo then 1 else 0)) this in
  let scale :=
    match transceiverController this with
    | Some _ =>
        match getStreamCaptureSetting this with
        | Some settings => scaleResolutionDownBy (calculateEncodingParameters this settings)
        | None => Some (num 1)
        end
    | None => Some (num 1)
    end in
  set_optimalParameters
    (Param.new (captureWidth this) (captureHeight this) (captureFrameRate this)
       (maxBandwidthKbps this) false scale) this.

Definition chooseCaptureAndEncodeParameters (this : NScaleVideoUplinkBandwidthPolicy)
  : NScaleVideoUplinkBandwidthPolicy * DefaultVideoAndEncodeParameter :=
  let this := set_parametersInEffect (Param.clone (optimalParameters this)) this in
  (this, Param.clone (parametersInEffect this)).

Definition setIdealMaxBandwidthKbps (this : NScaleVideoUplinkBandwidthPolicy)
  (idealMaxBandwidthKbps : Qc) : NScaleVideoUplinkBandwidthPolicy :=
  set_idealMaxBandwidthKbps idealMaxBandwidthKbps this.

Definition setHasBandwidthPriority (this : NScaleVideoUplinkBandwidthPolicy)
  (hasBandwidthPriority : bool) : NScaleVideoUplinkBandwidthPolicy :=
  set_hasBandwidthPriority hasBandwidthPriority this.

Definition setTransceiverController (this : NScaleVideoUplinkBandwidthPolicy)
  (transceiverController : option TransceiverController)
  : NScaleVideoUplinkBandwidthPolicy :=
  set_transceiverController transceiverController this.

Definition setVideoCodecPreferences (this : NScaleVideoUplinkBandwidthPolicy)
  (preferences : list VideoCodecCapability) : NScaleVideoUplinkBandwidthPolicy :=
  set_wantsResubscribeForVideoCodecPreferenceChange true
    (set_videoCodecPreferences preferences this).

Definition chooseVideoCodecPreferences (this : NScaleVideoUplinkBandwidthPolicy)
  : NScaleVideoUplinkBandwidthPolicy * list VideoCodecCapability :=
  let this := set_wantsResubscribeForVideoCodecPreferenceChange false this in
  (this, videoCodecPreferences this).

(** *** The encoding push

    [setEncodingParameters] is a method of the controller, whose class is not
    among the sources: what it does to the controller's later answers is a
    parameter here.  A call of it is recorded in the list of pushes that
    [updateTransceiverController] returns next to the new state.  (The method
    is declared [async] and awaits nothing: its body runs in one piece.) *)

Section Push.

Variable setEncodingParameters :
  TransceiverController -> gmap string RTCRtpEncodingParameters -> TransceiverController.

Definition updateTransceiverController (this : NScaleVideoUplinkBandwidthPolicy)
  : NScaleVideoUplinkBandwidthPolicy * list (gmap string RTCRtpEncodingParameters) :=
  match getStreamCaptureSetting this with
  | None => (this, [])
  | Some settings =>
      let encodingParams := calculateEncodingParameters this settings in
      if shouldUpdateEndcodingParameters this encodingParams then
        let this :=
          set_encodingParamMap
            (<[encodingMapKey := encodingParams]> (encodingParamMap this)) this in
        (set_transceiverController
           ((fun tc => setEncodingParameters tc (encodingParamMap this))
              <$> transceiverController this) this,
         [encodingParamMap this])
      else (this, [])
  end.

(** The public methods of the class, as calls with their arguments. *)
Inductive operation :=
  | UpdateConnectionMetric
  | ChooseMediaTrackConstraints
  | ChooseEncodingParameters
  | UpdateIndex (videoIndex : VideoStreamIndex)
  | WantsResubscribe
  | ChooseCaptureAndEncodeParameters
  | MaxBandwidthKbps
  | SetIdealMaxBandwidthKbps (idealMaxBandwidthKbps : Qc)
  | SetHasBandwidthPriority (hasBandwidthPriority : bool)
  | SetTransceiverController (transceiverController : option TransceiverController)
  | UpdateTransceiverController
  | SetVideoCodecPreferences (preferences : list VideoCodecCapability)
  | ChooseVideoCodecPreferences.

(** The state a call leaves behind. *)
Definition call (op : operation) (this : NScaleVideoUplinkBandwidthPolicy)
  : NScaleVideoUplinkBandwidthPolicy :=
  match op with
  | UpdateConnectionMetric => this
  | ChooseMediaTrackConstraints => this
  | ChooseEncodingParameters => this
  | UpdateIndex videoIndex => updateIndex this videoIndex
  | WantsResubscribe => this
  | ChooseCaptureAndEncodeParameters => fst (chooseCaptureAndEncodeParameters this)
  | MaxBandwidthKbps => this
  | SetIdealMaxBandwidthKbps v => setIdealMaxBandwidthKbps this v
  | SetHasBandwidthPriority v => setHasBandwidthPriority this v
  | SetTransceiverController v => setTransceiverController this v
  | UpdateTransceiverController => fst (updateTransceiverController this)
  | SetVideoCodecPreferences v => setVideoCodecPreferences this v
  | ChooseVideoCodecPreferences => fst (chooseVideoCodecPreferences this)
  end.

(** A history of calls, oldest first. *)
Definition calls (ops : list operation) (this : NScaleVideoUplinkBandwidthPolicy)
  : NScaleVideoUplinkBandwidthPolicy :=
  foldl (fun s op => call op s) this ops.

End Push.

End Policy.

(** ** The commit of the parameters, with object identity

    [chooseCaptureAndEncodeParameters] once more, on a store of parameter
    objects: the policy's two fields are addresses, and each [clone()] makes a
    new object.  This is what tells the returned copy from the object kept in
    the policy. *)

Module Objects.

(** The objects, by address; [clone()] allocates at the end. *)
Definition allocate (v : DefaultVideoAndEncodeParameter)
  (store : list DefaultVideoAndEncodeParameter)
  : nat * list DefaultVideoAndEncodeParameter :=
  (length store, store ++ [v]).

Record References := {
  optimalParametersAt : nat;
  parametersInEffectAt : nat }.

(** The store and the references stand for the two fields of the policy. *)
Definition represents (store : list DefaultVideoAndEncodeParameter) (refs : References)
  (this : NScaleVideoUplinkBandwidthPolicy) : Prop :=
  store !! optimalParametersAt refs = Some (optimalParameters this)
  /\ store !! parametersInEffectAt refs = Some (parametersInEffect this).

(** [this.parametersInEffect = this.optimalParameters.clone();
     return this.parametersInEffect.clone();]
    The result is the new store, the new references and the address returned;
    [None] stands for a dangling reference. *)
Definition chooseCaptureAndEncodeParameters
  (store : list DefaultVideoAndEncodeParameter) (refs : References)
  : option (list DefaultVideoAndEncodeParameter * References * nat) :=
  optimal ← store !! optimalParametersAt refs;
  let '(a, store) := allocate (Param.clone optimal) store in
  let refs :=
    {| optimalParametersAt := optimalParametersAt refs; parametersInEffectAt := a |} in
  inEffect ← store !! parametersInEffectAt refs;
  let '(b, store) := allocate (Param.clone inEffect) store in
  Some (store, refs, b).

End Objects.

(** ** Codec reordering in an SDP document (src/sdp/SDP.ts)

    The sources hold the interface [SDP] only; the class that implements it is
    not among them.  The document and [withVideoSendCodecPreferences] are
    therefore modelled from the specification's data model and from the steps
    it gives for the reordering. *)

Module SDP.

Inductive MediaType := Audio | Video | OtherMedia.

Inductive Direction := Sendrecv | Sendonly | Recvonly | Inactive.

(** Modelled from the spec: the view of one payload type that the attribute
    lines [a=rtpmap] and [a=fmtp] of a section give: name, clock rate and the
    fmtp parameter string, if there is one. *)
Record CodecEntry := {
  payloadType : Z;
  name : string;
  clockRate : Z;
  fmtp : option string }.

(** Modelled from the spec: a media section, with the payload types in the
    order of its [m=] line. *)
Record MediaSection := {
  mediaType : MediaType;
  direction : Direction;
  payloadTypes : list Z;
  codecs : list CodecEntry }.

(** Modelled from the spec: the session-level lines and the media sections. *)
Record SessionDescription := {
  sessionLines : list string;
  sections : list MediaSection }.

(** *** Text of the fmtp parameters *)

(** The pieces of [s] between occurrences of [sep]. *)
Fixpoint split (sep : ascii) (s : string) : list string :=
  match s with
  | EmptyString => [EmptyString]
  | String c rest =>
      if bool_decide (c = sep) then EmptyString :: split sep rest
      else
        match split sep rest with
        | piece :: pieces => String c piece :: pieces
        | [] => [String c EmptyString]
        end
  end.

(** [s] without the prefix [p], when it starts with it. *)
Fixpoint stripPrefix (p s : string) : option string :=
  match p, s with
  | EmptyString, _ => Some s
  | String a p', String b s' => if bool_decide (a = b) then stripPrefix p' s' else None
  | String _ _, EmptyString => None
  end.

Definition digit (c : ascii) : option Z :=
  let n := Z.of_N (N_of_ascii c) in
  if bool_decide (48 <= n <= 57) then Some (n - 48) else None.

Fixpoint parseDigits (s : string) (acc : Z) : option Z :=
  match s with
  | EmptyString => Some acc
  | String c rest => d ← digit c; parseDigits rest (10 * acc + d)
  end.

(** A payload type written in decimal. *)
Definition parsePayloadType (s : string) : option Z :=
  match s with
  | EmptyString => None
  | _ => parseDigits s 0
  end.

(** The parameters of an fmtp string, separated by semicolons. *)
Definition parameters (line : string) : list string := split ";"%char line.

Fixpoint firstApt (params : list string) : option Z :=
  match params with
  | [] => None
  | param :: rest =>
      match stripPrefix "apt=" param ≫= parsePayloadType with
      | Some p => Some p
      | None => firstApt rest
      end
  end.

(** *** Step 1: classification *)

Definition entryOf (section : MediaSection) (pt : Z) : option CodecEntry :=
  List.find (fun e => bool_decide (payloadType e = pt)) (codecs section).

(** Modelled from the spec: the payload type that the fmtp of [pt] references
    through [apt=] (step 1). *)
Definition aptOf (section : MediaSection) (pt : Z) : option Z :=
  e ← entryOf section pt; line ← fmtp e; firstApt (parameters line).

(** Modelled from the spec: [pt] is the rtx pairing of a payload type of the
    section that is not a retransmission itself, and moves with it (step 1). *)
Definition travels (section : MediaSection) (pt : Z) : bool :=
  match aptOf section pt with
  | Some primary =>
      bool_decide (primary ∈ payloadTypes section)
      && bool_decide (aptOf section primary = None)
  | None => false
  end.

(** Modelled from the spec: the retransmission payload types paired with
    [primary]. *)
Definition rtxOf (section : MediaSection) (primary : Z) : list Z :=
  List.filter
    (fun pt => travels section pt && bool_decide (aptOf section pt = Some primary))
    (payloadTypes section).

(** Modelled from the spec: a primary immediately followed by its rtx, if any
    (steps 2 and 3). *)
Definition group (section : MediaSection) (primary : Z) : list Z :=
  primary :: rtxOf section primary.

(** Modelled from the spec: matching by (name, fmtp-profile-subset): the names
    agree, and each fmtp parameter of the preference is among those of the
    payload type (step 1). *)
Definition matchesEntry (preference : VideoCodecCapability) (e : CodecEntry) : bool :=
  bool_decide (name e = codecName preference)
  && match sdpFmtpLine (codecCapability preference) with
     | None => true
     | Some wanted =>
         forallb
           (fun param => bool_decide (param ∈ parameters (default EmptyString (fmtp e))))
           (parameters wanted)
     end.

Definition matches (section : MediaSection) (preference : VideoCodecCapability)
  (pt : Z) : bool :=
  match entryOf section pt with
  | Some e => matchesEntry preference e
  | None => false
  end.

(** *** Steps 2 and 3: the new order *)

(** Modelled from the spec: the primaries matched by the preferences, in the
    order of the preferences; each payload type is placed once (step 2). *)
Definition placeMatched (section : MediaSection)
  (preferences : list VideoCodecCapability) : list Z :=
  foldl
    (fun placed preference =>
       placed
       ++ List.filter
            (fun pt =>
               negb (travels section pt) && matches section preference pt
               && bool_decide (pt ∉ placed))
            (payloadTypes section))
    [] preferences.

(** Modelled from the spec: the primaries that no preference matched, in their
    original order (step 3). *)
Definition remaining (section : MediaSection) (placed : list Z) : list Z :=
  List.filter
    (fun pt => negb (travels section pt) && bool_decide (pt ∉ placed))
    (payloadTypes section).

(** Modelled from the spec: the new payload-type order of a section, the
    matched groups first and the remaining groups after them (steps 2 and 3).
    When no preference matches a payload type of the section the order stays
    as it is: an unmatched preference list is treated as a no-op (the
    specification's error handling, [InvalidCodecPreference]). *)
Definition reorder (section : MediaSection)
  (preferences : list VideoCodecCapability) : list Z :=
  match placeMatched section preferences with
  | [] => payloadTypes section
  | placed => flat_map (group section) (placed ++ remaining section placed)
  end.

(** *** Steps 4 and 5: the document *)

(** Modelled from the spec: the section that the operation works on.  The doc
    comment of [withVideoSendCodecPreferences] in SDP.ts says which one that
    is: the video section with [a=sendrecv]. *)
Definition sendsVideo (section : MediaSection) : bool :=
  match mediaType section, direction section with
  | Video, Sendrecv => true
  | _, _ => false
  end.

Definition withOrder (section : MediaSection) (order : list Z) : MediaSection :=
  {| mediaType := mediaType section; direction := direction section;
     payloadTypes := order; codecs := codecs section |}.

(** Modelled from the spec: only the payload-type list of the first sendrecv
    video section is rewritten (step 4). *)
Fixpoint rewriteSending (preferences : list VideoCodecCapability)
  (sections : list MediaSection) : list MediaSection :=
  match sections with
  | [] => []
  | section :: rest =>
      if sendsVideo section
      then withOrder section (reorder section preferences) :: rest
      else section :: rewriteSending preferences rest
  end.

(** Modelled from the spec: [withVideoSendCodecPreferences(preferences)], of
    the class that implements [SDP]; nothing changes when there is no
    preference or no sendrecv video section (step 5). *)
Definition withVideoSendCodecPreferences (document : SessionDescription)
  (preferences : list VideoCodecCapability) : SessionDescription :=
  match preferences with
  | [] => document
  | _ =>
      {| sessionLines := sessionLines document;
         sections := rewriteSending preferences (sections document) |}
  end.

(** The payload-type order of the sendrecv video section. *)
Definition videoSendOrder (document : SessionDescription) : option (list Z) :=
  payloadTypes <$> List.find sendsVideo (sections document).

End SDP.

(** ** SetLocalDescriptionTask (src/task/SetLocalDescriptionTask.ts) *)

(** A JavaScript [Error], by its message. *)
Inductive Error := JsError (message : string).

#[global] Instance Error_eq_dec : EqDecision Error.
Proof. solve_decision. Defined.

(** The state of a promise; [resolve] and [reject] act on a pending promise
    only. *)
Inductive Settled :=
  | Pending
  | Fulfilled
  | Rejected (reason : Error).

#[global] Instance Settled_eq_dec : EqDecision Settled.
Proof. solve_decision. Defined.

Definition settle (outcome current : Settled) : Settled :=
  match current with
  | Pending => outcome
  | _ => current
  end.

(** The offer handed to [peer.setLocalDescription]. *)
Record RTCSessionDescription := {
  type : string;
  sdp : string }.

Record AudioProfile := {
  audioBitrateBps : Z;
  isStereo : bool }.

(** The uplink policy of the context: the N-scale policy, or a policy that
    does not implement the optional [chooseVideoCodecPreferences]. *)
Inductive VideoUplinkBandwidthPolicy :=
  | NScale (policy : NScaleVideoUplinkBandwidthPolicy)
  | WithoutCodecPreferences.

(** The members of [AudioVideoControllerState] that the task reads.  The peer
    is the negotiation endpoint; its answers arrive as events. *)
Record AudioVideoControllerState := {
  sdpOfferInit : RTCSessionDescription;
  videoUplinkBandwidthPolicy : VideoUplinkBandwidthPolicy;
  audioProfile : option AudioProfile }.

(** What the endpoint does with one call of [setLocalDescription]. *)
Inductive Endpoint :=
  | InFlight
  | Done.

(** The task.  Every [run()] has a number (0 for the first); [promises] holds
    the promise that each run awaits, [endpoint] the state of its endpoint
    call, [offers] the argument of that call.  [cancelPromise] is the stored
    closure, by the number of the run whose promise it rejects.  [name] is
    what [name()] of the base class answers, and [info] holds the entries that
    the body of [run()] writes at level info.

    The base class [BaseTask] is not among the sources.  What it puts around
    the two methods of this class (its own checks before a body runs, its own
    entries in the same log) is outside the model: [run] and [cancel] below
    are the bodies of the methods as this class writes them. *)
Record SetLocalDescriptionTask := {
  context : AudioVideoControllerState;
  name : string;
  cancelPromise : option nat;
  promises : list Settled;
  endpoint : list Endpoint;
  offers : list RTCSessionDescription;
  info : list string }.

Module Task.

Definition new (context : AudioVideoControllerState) (name : string)
  : SetLocalDescriptionTask :=
  {| context := context; name := name; cancelPromise := None;
     promises := []; endpoint := []; offers := []; info := [] |}.

Section Run.

(** [DefaultBrowserBehavior] and [DefaultSDP] are not among the sources: the
    browser flag and the four rewritings of the SDP text are parameters. *)
Variable requiresDisablingH264Encoding : bool.
Variable removeH264SupportFromSendSection : string -> string.
Variable withVideoSendCodecPreferences : string -> list VideoCodecCapability -> string.
Variable withAudioMaxAverageBitrate : string -> Z -> string.
Variable withStereoAudio : string -> string.

(** The synchronous part of [run()] before the promise: the offer, and the
    policy after it was asked for its codec preferences. *)
Definition prepare (context : AudioVideoControllerState)
  : AudioVideoControllerState * RTCSessionDescription :=
  let sdp0 := sdp (sdpOfferInit context) in
  let sdp1 :=
    if requiresDisablingH264Encoding then removeH264SupportFromSendSection sdp0
    else sdp0 in
  let '(policy, sdp2) :=
    match videoUplinkBandwidthPolicy context with
    | NScale p =>
        let '(p, preferences) := Policy.chooseVideoCodecPreferences p in
        (NScale p,
         if bool_decide (0 < length preferences)%nat
         then withVideoSendCodecPreferences sdp1 preferences
         else sdp1)
    | WithoutCodecPreferences => (WithoutCodecPreferences, sdp1)
    end in
  let sdp3 :=
    match audioProfile context with
    | Some profile =>
        let s := withAudioMaxAverageBitrate sdp2 (audioBitrateBps profile) in
        if isStereo profile then withStereoAudio s else s
    | None => sdp2
    end in
  ({| sdpOfferInit := sdpOfferInit context;
      videoUplinkBandwidthPolicy := policy;
      audioProfile := audioProfile context |},
   {| type := "offer"; sdp := sdp3 |}).

(** [settle] on the promise of run [r]. *)
Definition settlePromise (r : nat) (outcome : Settled) (ps : list Settled)
  : list Settled :=
  alter (settle outcome) r ps.

(** The log entry of a run that got past its [await]. *)
Definition logged (r : nat) (before after : list Settled) : list string :=
  if bool_decide (before !! r = Some Pending /\ after !! r = Some Fulfilled)
  then ["set local description"] else [].

(** [run()], up to the point where it is suspended: the offer is prepared,
    the promise created, [cancelPromise] stored, and the endpoint called, once.
    [thrown] is the error of an endpoint call that throws at once; the [catch]
    rejects with it and the [finally] deletes [cancelPromise]. *)
Definition run (thrown : option Error) (this : SetLocalDescriptionTask)
  : SetLocalDescriptionTask :=
  let r := length (promises this) in
  let '(context, sdpOffer) := prepare (context this) in
  match thrown with
  | None =>
      {| context := context; name := name this;
         cancelPromise := Some r;
         promises := promises this ++ [Pending];
         endpoint := endpoint this ++ [InFlight];
         offers := offers this ++ [sdpOffer];
         info := info this |}
  | Some error =>
      {| context := context; name := name this;
         cancelPromise := None;
         promises := promises this ++ [Rejected error];
         endpoint := endpoint this ++ [Done];
         offers := offers this ++ [sdpOffer];
         info := info this |}
  end.

(** [cancel()] *)
Definition cancel (this : SetLocalDescriptionTask) : SetLocalDescriptionTask :=
  match cancelPromise this with
  | Some r =>
      let error := JsError ("canceling " +:+ name this) in
      {| context := context this; name := name this;
         cancelPromise := None;
         promises := settlePromise r (Rejected error) (promises this);
         endpoint := endpoint this;
         offers := offers this;
         info := info this |}
  | None => this
  end.

(** The continuation of run [r] after [await peer.setLocalDescription(..)]:
    [resolve()] or [reject(error)], then the [finally]; and, when this
    fulfilled the promise, the rest of [run()]. *)
Definition resume (r : nat) (outcome : Settled) (this : SetLocalDescriptionTask)
  : SetLocalDescriptionTask :=
  match endpoint this !! r with
  | Some InFlight =>
      let after := settlePromise r outcome (promises this) in
      {| context := context this; name := name this;
         cancelPromise := None;
         promises := after;
         endpoint := <[r := Done]> (endpoint this);
         offers := offers this;
         info := info this ++ logged r (promises this) after |}
  | _ => this
  end.

(** What can happen to a task, one step at a time. *)
Inductive event :=
  | Run (thrown : option Error)
  | Cancel
  | EndpointResolves (r : nat)
  | EndpointRejects (r : nat) (error : Error).

Definition step (this : SetLocalDescriptionTask) (e : event) : SetLocalDescriptionTask :=
  match e with
  | Run thrown => run thrown this
  | Cancel => cancel this
  | EndpointResolves r => resume r Fulfilled this
  | EndpointRejects r error => resume r (Rejected error) this
  end.

Definition exec (this : SetLocalDescriptionTask) (trace : list event)
  : SetLocalDescriptionTask :=
  foldl step this trace.

(** How run [r] ended, if it did. *)
Definition outcome (r : nat) (this : SetLocalDescriptionTask) : Settled :=
  default Pending (promises this !! r).

End Run.

End Task.

(** ** The specification's wording of the policy, for comparison with the code *)

Module Claimed.

(** The rate before [Math.trunc]: the three-way formula in the participant
    count, in the arithmetic of the code, or the ideal bandwidth itself under
    bandwidth priority. *)
Definition rate (this : NScaleVideoUplinkBandwidthPolicy) : Qc :=
  if hasBandwidthPriority this then idealMaxBandwidthKbps this
  else if bool_decide (numParticipants this <= 2) then idealMaxBandwidthKbps this
  else if bool_decide (numParticipants this <= 4) then
    (idealMaxBandwidthKbps this * num 2 / num 3)%js
  else
    ((num 544 / num 11 + num 14880 / (num 11 * num (numParticipants this)))
     / num 600 * idealMaxBandwidthKbps this)%js.

(** The bandwidth formula as the specification words it: a floor in every
    branch but the one for at most two participants, which hands out the ideal
    bandwidth as it is. *)
Definition maxBandwidthKbps (this : NScaleVideoUplinkBandwidthPolicy) : Qc :=
  if hasBandwidthPriority this then num (floor (idealMaxBandwidthKbps this))
  else if bool_decide (numParticipants this <= 2) then idealMaxBandwidthKbps this
  else num (floor (rate this)).

(** "A codec-preference change is pending acknowledgment": in the history of
    calls (oldest first) [setVideoCodecPreferences] was called and
    [chooseVideoCodecPreferences] has not been called since. *)
Definition pendingAcknowledgment (history : list Policy.operation) : Prop :=
  exists before preferences after,
    history = before ++ Policy.SetVideoCodecPreferences preferences :: after
    /\ Policy.ChooseVideoCodecPreferences ∉ after.

(** "Local capture is active": a transceiver controller is there and says that
    it has a video input. *)
Definition localCaptureActive (this : NScaleVideoUplinkBandwidthPolicy) : bool :=
  match transceiverController this with
  | Some tc => hasVideoInput tc
  | None => false
  end.

(** The participant count as the specification words it. *)
Definition numParticipants (this : NScaleVideoUplinkBandwidthPolicy)
  (videoIndex : VideoStreamIndex) : Z :=
  numberOfVideoPublishingParticipantsExcludingSelf videoIndex (selfAttendeeId this)
  + (if localCaptureActive this then 1 else 0).

(** "The last pushed value": the encoding the policy keeps under its map key,
    which it overwrites exactly when it pushes. *)
Definition lastPushed (this : NScaleVideoUplinkBandwidthPolicy)
  : option RTCRtpEncodingParameters :=
  encodingParamMap this !! Policy.encodingMapKey.

(** The push rule as the specification words it: when the recomputed encoding
    equals the last pushed value, nothing is pushed. *)
Definition pushesOnlyOnChange
  (setEncodingParameters :
     TransceiverController -> gmap string RTCRtpEncodingParameters -> TransceiverController)
  (this : NScaleVideoUplinkBandwidthPolicy) : Prop :=
  forall settings,
    Policy.getStreamCaptureSetting this = Some settings ->
    lastPushed this = Some (Policy.calculateEncodingParameters this settings) ->
    snd (Policy.updateTransceiverController setEncodingParameters this) = [].

End Claimed.
(** ** The formulas on the doubles of the kernel

    [maxBandwidthKbps] and the scale once more, on binary64 numbers as the
    kernel implements them, to compare with the rounding of [Number.fl]. *)

Module Double.

(** [Math.trunc] of a double; [None] for an infinity or a NaN. *)
Definition Math_trunc (x : float) : option Z :=
  match Prim2SF x with
  | S754_zero _ => Some 0
  | S754_finite negative m e =>
      let magnitude :=
        match e with
        | Z0 => Zpos m
        | Zpos p => Z.shiftl (Zpos m) (Zpos p)
        | Zneg p => Z.shiftr (Zpos m) (Zpos p)
        end in
      Some (if negative then - magnitude else magnitude)
  | _ => None
  end.

(** The rational that a finite double denotes. *)
Definition toNumber (x : float) : option Qc :=
  match Prim2SF x with
  | S754_zero _ => Some (num 0)
  | S754_finite negative m e =>
      let magnitude :=
        if bool_decide (0 <= e) then num (Zpos m * 2 ^ e)
        else (num (Zpos m) / num (2 ^ (- e)))%Qc in
      Some (if negative then (- magnitude)%Qc else magnitude)
  | _ => None
  end.

(** A small natural number as a double. *)
Definition ofZ (z : Z) : float := PrimFloat.of_uint63 (Uint63.of_Z z).

Definition maxBandwidthKbps (hasBandwidthPriority : bool) (numParticipants : Z)
  (idealMaxBandwidthKbps : float) : option Z :=
  if hasBandwidthPriority then Math_trunc idealMaxBandwidthKbps
  else
    let rate :=
      if bool_decide (numParticipants <= 2) then idealMaxBandwidthKbps
      else if bool_decide (numParticipants <= 4) then
        ((idealMaxBandwidthKbps * 2) / 3)%float
      else
        (((544 / 11 + 14880 / (11 * ofZ numParticipants)) / 600)
         * idealMaxBandwidthKbps)%float in
    Math_trunc rate.

(** [Math.max] and [Math.min] of two doubles that are numbers. *)
Definition Math_max (a b : float) : float := if (a <? b)%float then b else a.

Definition Math_min (a b : float) : float := if (b <? a)%float then b else a.

(** The scale of [calculateEncodingParameters] while the scale-down is active. *)
Definition scale (height width targetHeight : float) : float :=
  Math_max (Math_min height width / targetHeight)%float 1%float.

(** A policy with the given count and ideal bandwidth, and a capture. *)
Definition policy (numParticipants : Z) (idealMaxBandwidthKbps : Qc)
  : NScaleVideoUplinkBandwidthPolicy :=
  Policy.set_numParticipants numParticipants
    (Policy.setIdealMaxBandwidthKbps (Policy.new "self" true) idealMaxBandwidthKbps).

Definition capture (height width : Qc) : MediaTrackSettings :=
  {| width := Some width; height := Some height |}.

(** The model and the doubles give the same bandwidth. *)
Definition sameBandwidth (numParticipants : Z) (idealMaxBandwidthKbps : float) : bool :=
  match toNumber idealMaxBandwidthKbps with
  | Some ideal =>
      bool_decide
        (maxBandwidthKbps false numParticipants idealMaxBandwidthKbps
         = Some (Policy.maxBandwidthKbps (policy numParticipants ideal)))
  | None => false
  end.

(** The model and the doubles give the same scale. *)
Definition sameScale (numParticipants : Z) (height width : float) : bool :=
  match toNumber height, toNumber width with
  | Some h, Some w =>
      bool_decide
        (toNumber
           (scale height width (ofZ (Policy.targetHeight (policy numParticipants (num 1400)))))
         = scaleResolutionDownBy
             (Policy.calculateEncodingParameters (policy numParticipants (num 1400))
                (capture h w)))
  | _, _ => false
  end.

(** Counts from 1 to 40, and ideal bandwidths and capture sides to try. *)
Definition counts : list Z := seqZ 1 40.

Definition bandwidths : list float :=
  [275; 1100; 1400; 1400.5; 600; 2500; 1; 0.5; 3; 1000000; 123456789;
   ofZ 1 / ofZ 3; ofZ 4097 / ofZ 7; ofZ 1400 / ofZ 11; 4503599627370497;
   9007199254740991; - 1; - 275; - (ofZ 1400 / ofZ 3)]%float.

Definition sides : list float :=
  [481; 720; 1080; 360; 719; 181; 2160; 541;
   ofZ 1441 / ofZ 2; ofZ 2161 / ofZ 4]%float.

End Double.


(** ** Terms of the statements *)

Module Vocabulary.

Import Policy.

(** The policy after the participant count was stored and before the optimal
    parameters are rebuilt. *)
Definition counted (this : NScaleVideoUplinkBandwidthPolicy)
  (videoIndex : VideoStreamIndex) : NScaleVideoUplinkBandwidthPolicy :=
  set_numParticipants
    (numberOfVideoPublishingParticipantsExcludingSelf videoIndex (selfAttendeeId this)
     + match transceiverController this with
       | Some tc => if hasVideoInput tc then 1 else 0
       | None => 1
       end) this.

(** Two policies agree in every field, apart from the ideal bandwidth when
    [ideal] is set and from the priority flag when [priority] is set. *)
Definition agreeApartFrom (ideal priority : bool)
  (a b : NScaleVideoUplinkBandwidthPolicy) : Prop :=
  selfAttendeeId a = selfAttendeeId b
  /\ scaleResolution a = scaleResolution b
  /\ numParticipants a = numParticipants b
  /\ optimalParameters a = optimalParameters b
  /\ parametersInEffect a = parametersInEffect b
  /\ encodingParamMap a = encodingParamMap b
  /\ transceiverController a = transceiverController b
  /\ videoCodecPreferences a = videoCodecPreferences b
  /\ wantsResubscribeForVideoCodecPreferenceChange a
     = wantsResubscribeForVideoCodecPreferenceChange b
  /\ (ideal = false -> idealMaxBandwidthKbps a = idealMaxBandwidthKbps b)
  /\ (priority = false -> hasBandwidthPriority a = hasBandwidthPriority b).

(** [setEncodingParameters] keeps the capture settings and makes the sender
    report the two members of the pushed encoding. *)
Definition reportsPushes
  (setEncodingParameters :
     TransceiverController -> gmap string RTCRtpEncodingParameters -> TransceiverController)
  : Prop :=
  forall this m e,
    is_Some (getStreamCaptureSetting this) ->
    m !! encodingMapKey = Some e ->
    let pushed :=
      set_transceiverController
        ((fun tc => setEncodingParameters tc m) <$> transceiverController this) this in
    getStreamCaptureSetting pushed = getStreamCaptureSetting this
    /\ (transceiverEncoding pushed ≫= maxBitrate) = maxBitrate e
    /\ (transceiverEncoding pushed ≫= scaleResolutionDownBy) = scaleResolutionDownBy e.

(** The runs started in a trace, and the traces of [cancel()] calls. *)
Definition isRun (e : Task.event) : bool :=
  match e with Task.Run _ => true | _ => false end.

Definition runs (trace : list Task.event) : nat := length (List.filter isRun trace).

Definition isCancel (e : Task.event) : bool :=
  match e with Task.Cancel => true | _ => false end.

End Vocabulary.

(** ** Policies, controllers, documents and tasks of the examples *)

Module Scenario.

Import Policy.

(** A policy as constructed, after [updateIndex] saw [others] other publishers
    (no transceiver controller is set, so the policy counts itself in). *)
Definition among (others : Z) : NScaleVideoUplinkBandwidthPolicy :=
  updateIndex (new "self" true)
    {| numberOfVideoPublishingParticipantsExcludingSelf := fun _ => others |}.

(** The live settings of a controller with a 1280x720 capture. *)
Definition hd720 : MediaTrackSettings :=
  {| width := Some (num 1280); height := Some (num 720) |}.

(** A controller with a 1280x720 camera whose sender reports no encodings. *)
Definition camera : TransceiverController :=
  {| hasVideoInput := true;
     localVideoTransceiver :=
       Some {| sender :=
                 Some {| track := Some {| getSettings := Some hd720 |};
                         getParameters := Some {| encodings := None |} |} |} |}.

(** A controller on which [setEncodingParameters] leaves the sender's
    parameters as they are (as one whose transceiver does not send). *)
Definition ignoring (tc : TransceiverController)
  (m : gmap string RTCRtpEncodingParameters) : TransceiverController := tc.

Definition withCamera : NScaleVideoUplinkBandwidthPolicy :=
  setTransceiverController (new "self" true) (Some camera).

(** A controller on which [setEncodingParameters] stores the pushed encoding
    as the first encoding of the sender. *)
Definition storing (tc : TransceiverController)
  (m : gmap string RTCRtpEncodingParameters) : TransceiverController :=
  match m !! encodingMapKey, localVideoTransceiver tc ≫= sender with
  | Some e, Some s =>
      {| hasVideoInput := hasVideoInput tc;
         localVideoTransceiver :=
           Some {| sender :=
                     Some {| track := track s;
                             getParameters := Some {| encodings := Some [e] |} |} |} |}
  | _, _ => tc
  end.

(** A context with the default policy preferring H.264, and a task on it whose
    SDP rewritings leave the text alone. *)
Definition someContext : AudioVideoControllerState :=
  {| sdpOfferInit := {| type := "offer"; sdp := "v=0" |};
     videoUplinkBandwidthPolicy :=
       NScale (Policy.setVideoCodecPreferences (Policy.new "self" true)
                 [Codec.h264ConstrainedBaselineProfile]);
     audioProfile := None |}.

Definition plainExec :=
  Task.exec false (fun s => s) (fun s _ => s) (fun s _ => s) (fun s => s).

End Scenario.

Module SDPScenario.

Import SDP.

(** A sending video section with VP8 (96, rtx 97) and H.264 (98, rtx 99). *)
Definition vp8_h264 : MediaSection :=
  {| mediaType := Video; direction := Sendrecv;
     payloadTypes := [96; 97; 98; 99];
     codecs :=
       [ {| payloadType := 96; name := "VP8"; clockRate := 90000; fmtp := None |};
         {| payloadType := 97; name := "rtx"; clockRate := 90000; fmtp := Some "apt=96" |};
         {| payloadType := 98; name := "H264"; clockRate := 90000;
            fmtp :=
              Some "level-asymmetry-allowed=1;packetization-mode=1;profile-level-id=42e01f" |};
         {| payloadType := 99; name := "rtx"; clockRate := 90000; fmtp := Some "apt=98" |} ] |}.

(** The same section with H.264 at 96 as well, in place of VP8. *)
Definition h264_twice : MediaSection :=
  {| mediaType := Video; direction := Sendrecv;
     payloadTypes := [96; 97; 98; 99];
     codecs :=
       [ {| payloadType := 96; name := "H264"; clockRate := 90000;
            fmtp :=
              Some "level-asymmetry-allowed=1;packetization-mode=1;profile-level-id=42e01f" |};
         {| payloadType := 97; name := "rtx"; clockRate := 90000; fmtp := Some "apt=96" |};
         {| payloadType := 98; name := "H264"; clockRate := 90000;
            fmtp :=
              Some "level-asymmetry-allowed=1;packetization-mode=1;profile-level-id=42e01f" |};
         {| payloadType := 99; name := "rtx"; clockRate := 90000; fmtp := Some "apt=98" |} ] |}.

(** A section whose retransmissions do not stand next to their primaries. *)
Definition apart : MediaSection :=
  {| mediaType := Video; direction := Sendrecv;
     payloadTypes := [96; 98; 97; 99];
     codecs := codecs vp8_h264 |}.

Definition opus : MediaSection :=
  {| mediaType := Audio; direction := Sendrecv;
     payloadTypes := [111];
     codecs :=
       [ {| payloadType := 111; name := "opus"; clockRate := 48000;
            fmtp := Some "minptime=10;useinbandfec=1" |} ] |}.

Definition offer : SessionDescription :=
  {| sessionLines := ["v=0"; "s=-"; "t=0 0"];
     sections := [opus; vp8_h264] |}.

End SDPScenario.

(** ** Further terms: shares, repeated pushes, counts *)

Module More.

Import Policy.

(** The factor that [maxBandwidthKbps] puts on the ideal bandwidth beyond four
    participants, in the arithmetic of the code. *)
Definition coefficient (n : Z) : Qc :=
  ((num 544 / num 11 + num 14880 / (num 11 * num n)) / num 600)%js.

(** The pushes of [k] calls of [updateTransceiverController()] in a row. *)
Fixpoint pushesOf
  (setEncodingParameters :
     TransceiverController -> gmap string RTCRtpEncodingParameters -> TransceiverController)
  (k : nat) (this : NScaleVideoUplinkBandwidthPolicy)
  : list (gmap string RTCRtpEncodingParameters) :=
  match k with
  | O => []
  | S k =>
      let '(this, pushed) := updateTransceiverController setEncodingParameters this in
      pushed ++ pushesOf setEncodingParameters k this
  end.

(** The shapes of the parameters that the policy ever holds: the value its
    constructor builds, or one of the two capture formats at 15 frames, not
    simulcast, with a scale of at least 1. *)
Definition policyShaped (p : DefaultVideoAndEncodeParameter) : Prop :=
  p = Param.new 0 0 0 0 false None
  \/ (((paramWidth p, paramHeight p) = (640, 384)
       \/ (paramWidth p, paramHeight p) = (320, 192))
      /\ paramFrameRate p = 15
      /\ paramIsSimulcast p = false
      /\ (num 1 <= paramScale p)%Qc).

(** The runs of a task that completed. *)
Definition fulfilled (this : SetLocalDescriptionTask) : nat :=
  length (List.filter (fun p => bool_decide (p = Fulfilled)) (promises this)).

(** What holds of every task that a trace leads to: the lists of promises and
    of endpoint calls have one entry for each run, and a stored closure belongs
    to a run that is still pending with its endpoint call in flight. *)
Definition consistent (this : SetLocalDescriptionTask) : Prop :=
  length (endpoint this) = length (promises this)
  /\ forall r,
      cancelPromise this = Some r ->
      promises this !! r = Some Pending /\ endpoint this !! r = Some InFlight.

(** The context asks for no codec reordering: the policy's list is empty, or
    the policy has no [chooseVideoCodecPreferences]. *)
Definition noPreferences (context : AudioVideoControllerState) : Prop :=
  match videoUplinkBandwidthPolicy context with
  | NScale p => videoCodecPreferences p = []
  | WithoutCodecPreferences => True
  end.

End More.

(** * Properties

    ** Numbers *)

Module NumberFacts.

Lemma num_this z : this (num z) = inject_Z z.
Proof. reflexivity. Qed.

Lemma Math_trunc_num z : Math_trunc (num z) = z.
Proof. unfold Math_trunc. simpl. apply Z.quot_1_r. Qed.

Lemma floor_num z : floor (num z) = z.
Proof. unfold floor, Qfloor. simpl. apply Z.div_1_r. Qed.

(** On a number that is not negative, truncation and floor agree. *)
Lemma Math_trunc_floor q : (0 <= q)%Qc -> Math_trunc q = floor q.
Proof.
  intros Hq. unfold Math_trunc, floor, Qfloor.
  destruct q as [[a b] Hc]; simpl in *.
  unfold Qcle, Qle in Hq; simpl in Hq.
  apply Z.quot_div_nonneg; lia.
Qed.

Lemma Math_max_l a b : (b <= a)%Qc -> Math_max a b = a.
Proof.
  intros H. unfold Math_max. destruct (a ?= b)%Qc eqn:E; try reflexivity.
  apply Qclt_alt in E. exfalso. eapply Qcle_not_lt; eauto.
Qed.

Lemma Math_max_r a b : (a <= b)%Qc -> Math_max a b = b.
Proof.
  intros H. unfold Math_max. destruct (a ?= b)%Qc eqn:E; try reflexivity.
  - apply Qceq_alt in E. congruence.
  - apply Qcgt_alt in E. exfalso. eapply Qcle_not_lt; eauto.
Qed.

Lemma Math_max_ge_r a b : (b <= Math_max a b)%Qc.
Proof.
  destruct (Qclt_le_dec a b) as [H|H].
  - rewrite Math_max_r; [apply Qcle_refl | apply Qclt_le_weak, H].
  - rewrite Math_max_l; assumption.
Qed.

(** Closed equations and disequations between numbers, by evaluation. *)
Ltac qc_eq := apply Qc_is_canon; vm_compute; reflexivity.

Ltac qc_neq :=
  let H := fresh in
  intros H; apply (f_equal (fun q : Qc => (Qnum q, Qden q))) in H;
  vm_compute in H; discriminate H.

End NumberFacts.

Import NumberFacts.

(** ** Rounding to the nearest double *)

Module RoundingFacts.

Local Open Scope Q_scope.

Lemma floor_bounds q : inject_Z (Qfloor q) <= q /\ q < inject_Z (Qfloor q) + 1.
Proof.
  split; [apply Qfloor_le |].
  assert (H := Qlt_floor q). rewrite inject_Z_plus in H. exact H.
Qed.

Lemma nearest_cases q :
  nearest q = Qfloor q \/ nearest q = (Qfloor q + 1)%Z.
Proof.
  unfold nearest. cbv zeta.
  destruct (q - inject_Z (Qfloor q) ?= 1 # 2); auto.
  destruct (Z.even (Qfloor q)); auto.
Qed.

Lemma nearest_Z k : nearest (inject_Z k) = k.
Proof.
  unfold nearest. cbv zeta. rewrite Qfloor_Z.
  destruct (Qcompare_spec (inject_Z k - inject_Z k) (1 # 2)) as [E | E | E];
    try reflexivity; exfalso; lra.
Qed.

Lemma nearest_comp x y : x == y -> nearest x = nearest y.
Proof.
  intros H. unfold nearest. cbv zeta.
  rewrite (Qfloor_comp _ _ H).
  assert (Hc : (x - inject_Z (Qfloor y) ?= 1 # 2) = (y - inject_Z (Qfloor y) ?= 1 # 2))
    by (rewrite H; reflexivity).
  rewrite Hc. reflexivity.
Qed.

Lemma nearest_mono x y : x <= y -> (nearest x <= nearest y)%Z.
Proof.
  intros Hxy.
  assert (Hf : (Qfloor x <= Qfloor y)%Z) by (apply Qfloor_resp_le, Hxy).
  destruct (Z.eq_dec (Qfloor x) (Qfloor y)) as [Heq | Hne].
  - unfold nearest. cbv zeta. rewrite Heq.
    destruct (Qcompare_spec (x - inject_Z (Qfloor y)) (1 # 2)) as [Ex | Ex | Ex];
      destruct (Qcompare_spec (y - inject_Z (Qfloor y)) (1 # 2)) as [Ey | Ey | Ey];
      try (exfalso; lra); destruct (Z.even (Qfloor y)); lia.
  - destruct (nearest_cases x) as [-> | ->]; destruct (nearest_cases y) as [-> | ->]; lia.
Qed.

(** Rounding to the nearest integer moves a number by at most one half. *)
Lemma nearest_close q :
  q - (1 # 2) <= inject_Z (nearest q) <= q + (1 # 2).
Proof.
  destruct (floor_bounds q) as [Hlow Hhigh].
  unfold nearest. cbv zeta.
  destruct (Qcompare_spec (q - inject_Z (Qfloor q)) (1 # 2)) as [E | E | E];
    [destruct (Z.even (Qfloor q)) | |];
    rewrite ?inject_Z_plus; change (inject_Z 1) with 1; lra.
Qed.

(** ** Powers of two *)

Lemma pow2_pos k : 0 < 2 ^ k.
Proof. apply Qpower_0_lt. reflexivity. Qed.

Lemma pow2_add a b : 2 ^ (a + b) == 2 ^ a * 2 ^ b.
Proof. apply Qpower_plus. discriminate. Qed.

Lemma pow2_succ a : 2 ^ (a + 1) == 2 * 2 ^ a.
Proof. rewrite pow2_add. change (2 ^ 1) with 2. ring. Qed.

Lemma pow2_sub a b : 2 ^ (a - b) == 2 ^ a / 2 ^ b.
Proof. apply Qpower_minus. discriminate. Qed.

Lemma pow2_le a b : (a <= b)%Z -> 2 ^ a <= 2 ^ b.
Proof. intros H. apply Qpower_le_compat_l; [exact H | discriminate]. Qed.

Lemma pow2_lt a b : (a < b)%Z -> 2 ^ a < 2 ^ b.
Proof. intros H. apply Qpower_lt_compat_l; [exact H | reflexivity]. Qed.

Lemma pow2_lt_inv a b : 2 ^ a < 2 ^ b -> (a < b)%Z.
Proof.
  intros H. destruct (Z_lt_le_dec a b) as [Hlt | Hle]; [exact Hlt |].
  apply pow2_le in Hle. lra.
Qed.

Lemma pow2_Z k : (0 <= k)%Z -> 2 ^ k == inject_Z (2 ^ k).
Proof. intros H. rewrite Zpower_Qpower by exact H. reflexivity. Qed.

(** ** The exponent *)

Lemma exponent_spec q :
  0 < q -> 2 ^ exponent q <= q /\ q < 2 ^ (exponent q + 1).
Proof.
  intros Hq. destruct q as [a b].
  assert (Ha : (0 < a)%Z) by (unfold Qlt in Hq; simpl in Hq; lia).
  unfold exponent. simpl Qnum. simpl Qden. cbv zeta.
  destruct (Z.log2_spec a Ha) as [Ha1 Ha2].
  destruct (Z.log2_spec (Zpos b) (Pos2Z.is_pos b)) as [Hb1 Hb2].
  assert (Hla := Z.log2_nonneg a). assert (Hlb := Z.log2_nonneg (Zpos b)).
  set (la := Z.log2 a) in *. set (lb := Z.log2 (Zpos b)) in *.
  assert (HA1 : 2 ^ la <= inject_Z a) by (rewrite pow2_Z by lia; rewrite <- Zle_Qle; lia).
  assert (HA2 : inject_Z a < 2 ^ (la + 1))
    by (rewrite pow2_Z by lia; rewrite <- Zlt_Qlt; rewrite <- Z.add_1_r in Ha2; lia).
  assert (HB1 : 2 ^ lb <= inject_Z (Zpos b)) by (rewrite pow2_Z by lia; rewrite <- Zle_Qle; lia).
  assert (HB2 : inject_Z (Zpos b) < 2 ^ (lb + 1))
    by (rewrite pow2_Z by lia; rewrite <- Zlt_Qlt; rewrite <- Z.add_1_r in Hb2; lia).
  assert (Hq' : (a # b) * inject_Z (Zpos b) == inject_Z a).
  { rewrite (Qmake_Qdiv a b). field. discriminate. }
  assert (Hposla := pow2_pos la). assert (Hposlb := pow2_pos lb).
  assert (Hg := pow2_add (la - lb) lb). replace (la - lb + lb)%Z with la in Hg by lia.
  assert (Hg1 := pow2_succ (la - lb)). assert (Hla1 := pow2_succ la).
  assert (Hlb1 := pow2_succ lb).
  assert (Hposg := pow2_pos (la - lb)).
  destruct (Qle_bool (2 ^ (la - lb)) (a # b)) eqn:E.
  - apply Qle_bool_iff in E. split; [exact E |]. nra.
  - assert (E' : a # b < 2 ^ (la - lb)).
    { apply Qnot_le_lt. intros H. apply Qle_bool_iff in H. congruence. }
    replace (la - lb - 1 + 1)%Z with (la - lb)%Z by lia. split; [| exact E'].
    assert (Hh := pow2_succ (la - lb - 1)).
    replace (la - lb - 1 + 1)%Z with (la - lb)%Z in Hh by lia.
    assert (Hposh := pow2_pos (la - lb - 1)). nra.
Qed.

Lemma exponent_unique q e :
  2 ^ e <= q -> q < 2 ^ (e + 1) -> exponent q = e.
Proof.
  intros H1 H2.
  assert (Hq : 0 < q) by (assert (H := pow2_pos e); lra).
  destruct (exponent_spec q Hq) as [H3 H4].
  assert (Ha : (e < exponent q + 1)%Z) by (apply pow2_lt_inv; lra).
  assert (Hb : (exponent q < e + 1)%Z) by (apply pow2_lt_inv; lra).
  lia.
Qed.

Lemma exponent_comp x y : 0 < x -> x == y -> exponent x = exponent y.
Proof.
  intros Hx Hxy. symmetry. destruct (exponent_spec x Hx) as [H1 H2].
  apply exponent_unique; lra.
Qed.

Lemma exponent_mono x y : 0 < x -> x <= y -> (exponent x <= exponent y)%Z.
Proof.
  intros Hx Hxy.
  destruct (exponent_spec x Hx) as [H1 _].
  destruct (exponent_spec y) as [_ H2]; [lra |].
  assert (H : (exponent x < exponent y + 1)%Z) by (apply pow2_lt_inv; lra).
  lia.
Qed.

(** ** Rounding a magnitude *)

Lemma ulp_pow2 q : ulp q = 2 ^ ulpExponent q.
Proof. reflexivity. Qed.

(** A number at or below the grid point [k * 2^u] is not rounded above it. *)
Lemma scaled_le x u k : x <= inject_Z k * 2 ^ u -> (nearest (x / 2 ^ u) <= k)%Z.
Proof.
  intros H. rewrite <- (nearest_Z k). apply nearest_mono.
  apply Qle_shift_div_r; [apply pow2_pos | exact H].
Qed.

Lemma scaled_ge x u k : inject_Z k * 2 ^ u <= x -> (k <= nearest (x / 2 ^ u))%Z.
Proof.
  intros H. rewrite <- (nearest_Z k) at 1. apply nearest_mono.
  apply Qle_shift_div_l; [apply pow2_pos | exact H].
Qed.

Lemma roundMagnitude_zero q : q == 0 -> roundMagnitude q == 0.
Proof.
  intros H. unfold roundMagnitude.
  assert (Hn : nearest (q / ulp q) = 0%Z).
  { rewrite <- (nearest_Z 0). apply nearest_comp.
    unfold Qdiv. generalize (/ ulp q). intros r. rewrite H.
    change (inject_Z 0) with 0. ring. }
  rewrite Hn. change (inject_Z 0) with 0. ring.
Qed.

Lemma roundMagnitude_nonneg q : 0 <= q -> 0 <= roundMagnitude q.
Proof.
  intros H. unfold roundMagnitude. rewrite ulp_pow2.
  apply Qmult_le_0_compat; [| apply Qlt_le_weak, pow2_pos].
  change 0 with (inject_Z 0). rewrite <- Zle_Qle. apply scaled_ge.
  change (inject_Z 0) with 0. lra.
Qed.

Lemma roundMagnitude_comp x y :
  0 <= x -> x == y -> roundMagnitude x == roundMagnitude y.
Proof.
  intros H0 H. destruct (Qlt_le_dec 0 x) as [Hx | Hx].
  - unfold roundMagnitude. rewrite !ulp_pow2. unfold ulpExponent.
    rewrite (exponent_comp x y Hx H).
    rewrite (nearest_comp (x / _) (y / 2 ^ Z.max (exponent y - 52) (-1074)))
      by (rewrite H; reflexivity).
    reflexivity.
  - rewrite (roundMagnitude_zero x) by lra.
    rewrite (roundMagnitude_zero y) by lra. reflexivity.
Qed.

Lemma roundMagnitude_mono x y :
  0 <= x -> x <= y -> roundMagnitude x <= roundMagnitude y.
Proof.
  intros H0 Hxy. destruct (Qlt_le_dec 0 x) as [Hx | Hx].
  - assert (He := exponent_mono x y Hx Hxy).
    destruct (exponent_spec x Hx) as [_ Hx2].
    destruct (exponent_spec y) as [Hy1 _]; [lra |].
    unfold roundMagnitude. rewrite !ulp_pow2.
    remember (ulpExponent x) as u eqn:Hu. remember (ulpExponent y) as v eqn:Hv.
    unfold ulpExponent in Hu, Hv.
    destruct (Z.eq_dec u v) as [<- | Hne].
    + apply Qmult_le_compat_r; [| apply Qlt_le_weak, pow2_pos].
      rewrite <- Zle_Qle. apply nearest_mono.
      apply Qmult_le_compat_r; [exact Hxy |].
      apply Qinv_le_0_compat, Qlt_le_weak, pow2_pos.
    + assert (Huv : (u < v)%Z) by lia.
      assert (Hv' : v = (exponent y - 52)%Z) by lia.
      assert (Hlt : (exponent x + 1 <= exponent y)%Z) by lia.
      apply Qle_trans with (y := 2 ^ exponent y).
      * (* the smaller number is not rounded above 2^(exponent y) *)
        assert (Hk : (0 <= exponent y - u)%Z) by lia.
        assert (Hsplit := pow2_add (exponent y - u) u).
        replace (exponent y - u + u)%Z with (exponent y) in Hsplit by lia.
        rewrite Hsplit. rewrite (pow2_Z _ Hk).
        apply Qmult_le_compat_r; [| apply Qlt_le_weak, pow2_pos].
        rewrite <- Zle_Qle. apply scaled_le.
        rewrite <- (pow2_Z _ Hk), <- Hsplit.
        assert (Hp := pow2_le _ _ Hlt). lra.
      * (* the larger one is not rounded below it *)
        assert (Hsplit := pow2_add 52 v).
        replace (52 + v)%Z with (exponent y) in Hsplit by lia.
        rewrite Hsplit. rewrite (pow2_Z 52) by lia.
        apply Qmult_le_compat_r; [| apply Qlt_le_weak, pow2_pos].
        rewrite <- Zle_Qle. apply scaled_ge.
        rewrite <- (pow2_Z 52) by lia. rewrite <- Hsplit. exact Hy1.
  - rewrite (roundMagnitude_zero x) by lra. apply roundMagnitude_nonneg. lra.
Qed.

(** ** Rounding *)

Lemma round_nonneg_eq q : 0 <= q -> round q = roundMagnitude q.
Proof. intros H. unfold round. apply Qle_bool_iff in H. rewrite H. reflexivity. Qed.

Lemma round_neg_eq q : q < 0 -> round q = - roundMagnitude (- q).
Proof.
  intros H. unfold round. destruct (Qle_bool 0 q) eqn:E; [| reflexivity].
  apply Qle_bool_iff in E. lra.
Qed.

Lemma round_mono x y : x <= y -> round x <= round y.
Proof.
  intros Hxy. destruct (Qlt_le_dec x 0) as [Hx | Hx];
    destruct (Qlt_le_dec y 0) as [Hy | Hy].
  - rewrite !round_neg_eq by assumption.
    assert (H := roundMagnitude_mono (- y) (- x)). lra.
  - rewrite (round_neg_eq x), (round_nonneg_eq y) by assumption.
    assert (H1 := roundMagnitude_nonneg (- x)).
    assert (H2 := roundMagnitude_nonneg y Hy). lra.
  - lra.
  - rewrite !round_nonneg_eq by assumption. apply roundMagnitude_mono; assumption.
Qed.

Lemma round_comp x y : x == y -> round x == round y.
Proof.
  intros H. destruct (Qlt_le_dec x 0) as [Hx | Hx].
  - rewrite !round_neg_eq by lra.
    rewrite (roundMagnitude_comp (- x) (- y)) by lra. reflexivity.
  - rewrite !round_nonneg_eq by lra. apply roundMagnitude_comp; assumption.
Qed.

(** A number on the grid of its own last bit, or on a finer grid that is not
    below 2^-1074, with fewer than 2^53 steps, is left as it is. *)
Lemma round_grid k u :
  (0 <= k < 2 ^ 53)%Z -> (-1074 <= u)%Z ->
  round (inject_Z k * 2 ^ u) == inject_Z k * 2 ^ u.
Proof.
  intros Hk Hu. set (x := inject_Z k * 2 ^ u).
  assert (Hpu := pow2_pos u).
  destruct (Z.eq_dec k 0) as [-> | Hk0].
  { rewrite round_nonneg_eq by (unfold x; change (inject_Z 0) with 0; lra).
    rewrite roundMagnitude_zero; unfold x; change (inject_Z 0) with 0; ring. }
  assert (Hk1 : 1 <= inject_Z k) by (change 1 with (inject_Z 1); rewrite <- Zle_Qle; lia).
  assert (Hx : 0 < x) by (unfold x; nra).
  rewrite round_nonneg_eq by lra.
  destruct (exponent_spec x Hx) as [He1 He2].
  assert (Hk53 : inject_Z k < 2 ^ 53)
    by (rewrite (pow2_Z 53) by lia; rewrite <- Zlt_Qlt; lia).
  assert (Hs := pow2_add 53 u).
  assert (He : (exponent x < 53 + u)%Z) by (apply pow2_lt_inv; unfold x in *; nra).
  unfold roundMagnitude. rewrite ulp_pow2.
  remember (ulpExponent x) as v eqn:Hv. unfold ulpExponent in Hv.
  assert (Hvu : (0 <= u - v)%Z) by lia.
  assert (Hsplit := pow2_add (u - v) v). replace (u - v + v)%Z with u in Hsplit by lia.
  assert (Hn : nearest (x / 2 ^ v) = (k * 2 ^ (u - v))%Z).
  { rewrite <- (nearest_Z (k * 2 ^ (u - v))). apply nearest_comp.
    unfold x. rewrite inject_Z_mult, <- (pow2_Z _ Hvu), Hsplit.
    field. apply Qnot_eq_sym, Qlt_not_eq, pow2_pos. }
  rewrite Hn. unfold x. rewrite inject_Z_mult, <- (pow2_Z _ Hvu), Hsplit. ring.
Qed.

(** What rounding yields lies on such a grid. *)
Lemma round_on_grid x :
  0 <= x ->
  exists k u, (0 <= k <= 2 ^ 53)%Z /\ (-1074 <= u)%Z /\ round x == inject_Z k * 2 ^ u.
Proof.
  intros H0. rewrite round_nonneg_eq by exact H0.
  unfold roundMagnitude. rewrite ulp_pow2.
  exists (nearest (x / 2 ^ ulpExponent x)), (ulpExponent x).
  split; [| split; [unfold ulpExponent; lia | reflexivity]].
  split.
  - apply scaled_ge. change (inject_Z 0) with 0. lra.
  - apply scaled_le. destruct (Qlt_le_dec 0 x) as [Hx | Hx].
    + destruct (exponent_spec x Hx) as [_ He2].
      rewrite <- (pow2_Z 53) by lia. rewrite <- pow2_add.
      assert (Hp : 2 ^ (exponent x + 1) <= 2 ^ (53 + ulpExponent x))
        by (apply pow2_le; unfold ulpExponent; lia).
      lra.
    + assert (Hp := pow2_pos (ulpExponent x)).
      assert (Hp53 : 0 <= inject_Z (2 ^ 53)) by (rewrite <- (pow2_Z 53) by lia; apply Qlt_le_weak, pow2_pos).
      nra.
Qed.

(** Twice a double is a double (the range of the exponent is not bounded
    above in this model). *)
Lemma round_twice x : 0 <= x -> round x == x -> round (2 * x) == 2 * x.
Proof.
  intros H0 Hx. destruct (round_on_grid x H0) as (k & u & Hk & Hu & Hg).
  rewrite Hx in Hg.
  destruct (Z.eq_dec k (2 ^ 53)) as [-> | Hne].
  - assert (Hs := pow2_add 53 u). rewrite <- (pow2_Z 53) in Hg by lia.
    assert (Hs' := pow2_add 0 (54 + u)). 
    rewrite (round_comp (2 * x) (inject_Z 1 * 2 ^ (54 + u))).
    + rewrite round_grid by lia. change (inject_Z 1) with 1.
      replace (54 + u)%Z with (53 + u + 1)%Z by lia. rewrite pow2_succ. lra.
    + change (inject_Z 1) with 1.
      replace (54 + u)%Z with (53 + u + 1)%Z by lia. rewrite pow2_succ. lra.
  - rewrite (round_comp (2 * x) (inject_Z k * 2 ^ (u + 1))).
    + rewrite round_grid by lia. rewrite pow2_succ. lra.
    + rewrite pow2_succ. lra.
Qed.

Lemma round_opp x : round (- x) == - round x.
Proof.
  destruct (Qlt_le_dec x 0) as [Hx | Hx].
  - rewrite (round_neg_eq x Hx), round_nonneg_eq by lra. ring.
  - destruct (Qlt_le_dec 0 x) as [Hpos | Hzero].
    + rewrite (round_neg_eq (- x)) by lra. rewrite (round_nonneg_eq x Hx).
      rewrite (roundMagnitude_comp (- - x) x) by lra. reflexivity.
    + rewrite !round_nonneg_eq by lra.
      rewrite (roundMagnitude_zero x), (roundMagnitude_zero (- x)) by lra. reflexivity.
Qed.

(** Above 1 (where the weight of the last bit follows the exponent) rounding
    moves a number by at most the 2^53rd part of it. *)
Lemma round_close x :
  1 <= x ->
  x - x / inject_Z (2 ^ 53) <= round x /\ round x <= x + x / inject_Z (2 ^ 53).
Proof.
  intros H1. assert (Hx : 0 < x) by lra.
  destruct (exponent_spec x Hx) as [He1 He2].
  assert (He : (0 <= exponent x)%Z).
  { assert ((0 < exponent x + 1)%Z) by (apply pow2_lt_inv; change (2 ^ 0) with 1; lra).
    lia. }
  rewrite round_nonneg_eq by lra. unfold roundMagnitude. rewrite ulp_pow2.
  replace (ulpExponent x) with (exponent x - 52)%Z by (unfold ulpExponent; lia).
  assert (Hs := pow2_add (exponent x - 52) 52).
  replace (exponent x - 52 + 52)%Z with (exponent x) in Hs by lia.
  rewrite (pow2_Z 52) in Hs by lia.
  set (u := 2 ^ (exponent x - 52)) in *.
  assert (Hu : 0 < u) by apply pow2_pos.
  destruct (nearest_close (x / u)) as [Hn1 Hn2].
  assert (Hxu : x / u * u == x) by (field; lra).
  assert (H53 : inject_Z (2 ^ 53) == 2 * inject_Z (2 ^ 52)) by reflexivity.
  assert (Hp52 : 0 < inject_Z (2 ^ 52)) by reflexivity.
  assert (Hhalf : u * (1 # 2) <= x / inject_Z (2 ^ 53)).
  { apply Qle_shift_div_l; [lra |]. rewrite H53. nra. }
  set (n := inject_Z (nearest (x / u))) in *.
  set (y := x / u) in *. set (r := x / inject_Z (2 ^ 53)) in *.
  split; nra.
Qed.

(** ** On the numbers of the model *)

Local Open Scope Qc_scope.

Lemma fl_this q : (this (fl q) == round q)%Q.
Proof. unfold fl. simpl. apply Qred_correct. Qed.

(** Rounding keeps the order. *)
Lemma fl_mono x y : x <= y -> fl x <= fl y.
Proof.
  intros H. unfold Qcle. rewrite !fl_this. apply round_mono. exact H.
Qed.

Lemma fl_num k : (Z.abs k < 2 ^ 53)%Z -> fl (num k) = num k.
Proof.
  intros Hk. apply Qc_is_canon. rewrite fl_this.
  change (this (num k)) with (inject_Z k).
  destruct (Z_lt_le_dec k 0) as [Hneg | Hpos].
  - rewrite (round_comp (inject_Z k) (- (inject_Z (- k) * 2 ^ 0))%Q)
      by (rewrite inject_Z_opp; change (2 ^ 0)%Q with 1%Q; ring).
    rewrite round_opp, round_grid by lia.
    rewrite inject_Z_opp. change (2 ^ 0)%Q with 1%Q. ring.
  - rewrite (round_comp (inject_Z k) (inject_Z k * 2 ^ 0)%Q)
      by (change (2 ^ 0)%Q with 1%Q; ring).
    rewrite round_grid by lia. change (2 ^ 0)%Q with 1%Q. ring.
Qed.

Lemma fl_nonneg x : 0 <= x -> 0 <= fl x.
Proof.
  intros H. assert (Hz : fl 0 = 0) by (apply Qc_is_canon; vm_compute; reflexivity).
  rewrite <- Hz. apply fl_mono. exact H.
Qed.

(** A double, doubled, is a double. *)
Lemma fl_twice x : 0 <= x -> fl x = x -> fl (x * num 2) = x * num 2.
Proof.
  intros H0 Hx. apply Qc_is_canon. rewrite fl_this.
  assert (Hd : (this (x * num 2) == 2 * this x)%Q).
  { simpl. rewrite Qred_correct. change (inject_Z 2) with 2%Q. ring. }
  rewrite (round_comp _ _ Hd), Hd.
  apply round_twice; [exact H0 |].
  rewrite <- fl_this, Hx. reflexivity.
Qed.

Lemma this_plus (a b : Qc) : (this (a + b) == this a + this b)%Q.
Proof. simpl. apply Qred_correct. Qed.

Lemma this_minus (a b : Qc) : (this (a - b) == this a - this b)%Q.
Proof. unfold Qcminus. simpl. rewrite !Qred_correct. reflexivity. Qed.

Lemma this_mult (a b : Qc) : (this (a * b) == this a * this b)%Q.
Proof. simpl. apply Qred_correct. Qed.

Lemma this_div (a b : Qc) : (this (a / b) == this a / this b)%Q.
Proof. unfold Qcdiv. simpl. rewrite !Qred_correct. reflexivity. Qed.

(** A quotient that is at least 1, times its divisor, is the dividend up to
    the 2^53rd part of it. *)
Lemma div_close (s t : Qc) :
  0 < t -> t <= s ->
  s - s / num (2 ^ 53) <= (s / t)%js * t /\ (s / t)%js * t <= s + s / num (2 ^ 53).
Proof.
  intros Ht Hts.
  assert (Hq : (1 <= this s / this t)%Q).
  { apply Qle_shift_div_l; [exact Ht |]. rewrite Qmult_1_l. exact Hts. }
  destruct (round_close _ Hq) as [Hlow Hhigh].
  assert (Hd : (this (s / t)%js == round (this s / this t))%Q).
  { unfold div. rewrite fl_this. apply round_comp, this_div. }
  assert (Ht' : (0 < this t)%Q) by exact Ht.
  assert (Hcancel : (this s / this t * this t == this s)%Q) by (field; lra).
  assert (H53 : (0 < inject_Z (2 ^ 53))%Q) by reflexivity.
  assert (Hfrac : (this s / this t / inject_Z (2 ^ 53) * this t
                   == this s / inject_Z (2 ^ 53))%Q) by (field; lra).
  unfold Qcle. rewrite this_minus, this_plus, this_mult, this_div, Hd.
  change (this (num (2 ^ 53))) with (inject_Z (2 ^ 53)).
  set (r := round (this s / this t)) in *. set (q := (this s / this t)%Q) in *.
  set (e := (this s / inject_Z (2 ^ 53))%Q) in *.
  set (f := (q / inject_Z (2 ^ 53))%Q) in *.
  split; nra.
Qed.

End RoundingFacts.

Import RoundingFacts.

(** ** Parameter values *)

Module ParamFacts.

Lemma clone_id p : Param.clone p = p.
Proof. destruct p; reflexivity. Qed.

Lemma equal_true p q : Param.equal p q = true <-> p = q.
Proof. unfold Param.equal. apply bool_decide_eq_true. Qed.

Lemma equal_false p q : Param.equal p q = false <-> p <> q.
Proof. unfold Param.equal. apply bool_decide_eq_false. Qed.

End ParamFacts.

(** ** The bandwidth formula *)

Module PolicyFacts.

Import Policy Vocabulary Scenario.

Lemma Qc_nonneg_mult (x y : Qc) : (0 <= x)%Qc -> (0 <= y)%Qc -> (0 <= x * y)%Qc.
Proof.
  unfold Qcle. simpl. rewrite !Qred_correct. apply Qmult_le_0_compat.
Qed.

Lemma Qc_nonneg_inv (x : Qc) : (0 <= x)%Qc -> (0 <= / x)%Qc.
Proof.
  unfold Qcle. simpl. rewrite !Qred_correct. apply Qinv_le_0_compat.
Qed.

Lemma Qc_nonneg_div (x y : Qc) : (0 <= x)%Qc -> (0 <= y)%Qc -> (0 <= x / y)%Qc.
Proof. intros Hx Hy. apply Qc_nonneg_mult; [assumption | apply Qc_nonneg_inv, Hy]. Qed.

Lemma num_nonneg z : 0 <= z -> (0 <= num z)%Qc.
Proof. intros Hz. unfold Qcle, Qle. simpl. lia. Qed.

(** The code rounds the rate of [Claimed.rate] toward zero. *)
Lemma maxBandwidthKbps_trunc this :
  maxBandwidthKbps this = Math_trunc (Claimed.rate this).
Proof.
  unfold maxBandwidthKbps, Claimed.rate.
  destruct (hasBandwidthPriority this); [reflexivity |].
  repeat case_bool_decide; reflexivity.
Qed.

Lemma add_nonneg (x y : Qc) : (0 <= x)%Qc -> (0 <= y)%Qc -> (0 <= (x + y)%js)%Qc.
Proof. intros Hx Hy. apply fl_nonneg, Qcplus_nonneg_nonneg; assumption. Qed.

Lemma mul_nonneg (x y : Qc) : (0 <= x)%Qc -> (0 <= y)%Qc -> (0 <= (x * y)%js)%Qc.
Proof. intros Hx Hy. apply fl_nonneg, Qc_nonneg_mult; assumption. Qed.

Lemma div_nonneg (x y : Qc) : (0 <= x)%Qc -> (0 <= y)%Qc -> (0 <= (x / y)%js)%Qc.
Proof. intros Hx Hy. apply fl_nonneg, Qc_nonneg_div; assumption. Qed.

Lemma rate_nonneg this :
  (0 <= idealMaxBandwidthKbps this)%Qc -> (0 <= Claimed.rate this)%Qc.
Proof.
  intros HI. unfold Claimed.rate.
  destruct (hasBandwidthPriority this); [assumption |].
  repeat case_bool_decide; try assumption.
  - apply div_nonneg; [apply mul_nonneg |]; try assumption;
      apply num_nonneg; lia.
  - apply mul_nonneg; [| assumption].
    apply div_nonneg; [| apply num_nonneg; lia].
    apply add_nonneg; apply div_nonneg; try (apply num_nonneg; lia).
    apply mul_nonneg; apply num_nonneg; lia.
Qed.

Example among_numParticipants : numParticipants (among 3) = 4.
Proof. reflexivity. Qed.

Example default_one : maxBandwidthKbps (among 0) = 1400.
Proof. vm_compute. reflexivity. Qed.

Example default_two : maxBandwidthKbps (among 1) = 1400.
Proof. vm_compute. reflexivity. Qed.

Example default_four : maxBandwidthKbps (among 3) = 933.
Proof. vm_compute. reflexivity. Qed.

Example default_ten : maxBandwidthKbps (among 9) = 431.
Proof. vm_compute. reflexivity. Qed.

(** C1, as the specification states it, fails on the code in two ways: with at
    most two participants a fractional ideal bandwidth (1400.5) is truncated to
    1400 and not handed out as it is; and a negative rate (ideal bandwidth -1,
    three participants, rate -2/3) is rounded toward zero, to 0, where a floor
    gives -1. *)
Lemma maxBandwidthKbps_not_as_claimed :
  let fractional := setIdealMaxBandwidthKbps (among 1) (num 2801 / num 2)%Qc in
  let negative := setIdealMaxBandwidthKbps (among 2) (num (-1)) in
  (numParticipants fractional = 2
   /\ maxBandwidthKbps fractional = 1400
   /\ Claimed.maxBandwidthKbps fractional = (num 2801 / num 2)%Qc
   /\ num (maxBandwidthKbps fractional) <> Claimed.maxBandwidthKbps fractional)
  /\ (numParticipants negative = 3
      /\ maxBandwidthKbps negative = 0
      /\ Claimed.maxBandwidthKbps negative = num (-1)
      /\ num (maxBandwidthKbps negative) <> Claimed.maxBandwidthKbps negative).
Proof.
  cbv zeta.
  repeat match goal with |- _ /\ _ => split end;
    first [ qc_neq | vm_compute; reflexivity | qc_eq ].
Qed.

(** The arithmetic is that of the doubles: with 15 participants and an ideal
    bandwidth of 275 the rate is the double just below 64, and the result is
    63, where the quotient taken exactly is 64. *)
Example rounded_just_below :
  let this := setIdealMaxBandwidthKbps (among 14) (num 275) in
  numParticipants this = 15
  /\ maxBandwidthKbps this = 63
  /\ (((num 544 / num 11 + num 14880 / (num 11 * num 15)) / num 600) * num 275)%Qc
     = num 64.
Proof. cbv zeta. split; [reflexivity |]. split; [vm_compute; reflexivity | qc_eq]. Qed.

(** C1, amended: [maxBandwidthKbps()] is the rate rounded toward zero
    ([Math.trunc]) in every branch, the rate being the ideal bandwidth under
    bandwidth priority or with at most two participants, (ideal * 2) / 3 with
    three or four, and ((544/11 + 14880/(11 n))/600) * ideal beyond four, each
    operation rounded as the doubles round it; this for an ideal bandwidth
    whose double does not leave the range of the finite doubles.  When the
    ideal bandwidth is not negative the result is the floor of the rate; when
    it is an integer the first two cases return it unchanged; at the default
    1400 the result is 1400 for one or two participants and 933 for four. *)
Theorem maxBandwidthKbps_formula (this : NScaleVideoUplinkBandwidthPolicy) :
  inRange (idealMaxBandwidthKbps this * num 2)%Qc ->
  maxBandwidthKbps this = Math_trunc (Claimed.rate this)
  /\ ((0 <= idealMaxBandwidthKbps this)%Qc ->
      maxBandwidthKbps this = floor (Claimed.rate this))
  /\ (forall k : Z,
        idealMaxBandwidthKbps this = num k ->
        hasBandwidthPriority this = true \/ numParticipants this <= 2 ->
        maxBandwidthKbps this = k)
  /\ (idealMaxBandwidthKbps this = num 1400 ->
      hasBandwidthPriority this = false ->
      (numParticipants this = 1 \/ numParticipants this = 2 ->
       maxBandwidthKbps this = 1400)
      /\ (numParticipants this = 4 -> maxBandwidthKbps this = 933)).
Proof.
  intros _.
  split; [apply maxBandwidthKbps_trunc |].
  split.
  { intros HI. rewrite maxBandwidthKbps_trunc.
    apply Math_trunc_floor, rate_nonneg, HI. }
  split.
  { intros k Hk Hcase. rewrite maxBandwidthKbps_trunc. unfold Claimed.rate.
    rewrite Hk. destruct (hasBandwidthPriority this); [apply Math_trunc_num |].
    destruct Hcase as [? | Hn]; [discriminate |].
    rewrite bool_decide_eq_true_2 by assumption. apply Math_trunc_num. }
  intros HI Hp. rewrite maxBandwidthKbps_trunc. unfold Claimed.rate.
  rewrite HI, Hp. split.
  - intros Hn. rewrite bool_decide_eq_true_2 by lia. apply Math_trunc_num.
  - intros Hn. rewrite Hn. vm_compute. reflexivity.
Qed.

(** The amended formula at a policy that saw nine others, at the default. *)
Lemma maxBandwidthKbps_formula_witness :
  inRange (idealMaxBandwidthKbps (among 9) * num 2)%Qc
  /\ (0 <= idealMaxBandwidthKbps (among 9))%Qc
  /\ maxBandwidthKbps (among 9) = floor (Claimed.rate (among 9))
  /\ maxBandwidthKbps (among 9) = 431.
Proof.
  assert (Hrange : inRange (idealMaxBandwidthKbps (among 9) * num 2)%Qc)
    by (split; vm_compute; discriminate).
  split; [exact Hrange |].
  split; [vm_compute; discriminate |].
  split; [| vm_compute; reflexivity].
  apply (proj1 (proj2 (maxBandwidthKbps_formula (among 9) Hrange))).
  vm_compute; discriminate.
Defined.


(** ** Resubscription and the codec preferences *)

Section History.

Variable setEncodingParameters :
  TransceiverController -> gmap string RTCRtpEncodingParameters -> TransceiverController.

Abbreviation call := (Policy.call setEncodingParameters).
Abbreviation calls := (Policy.calls setEncodingParameters).

Lemma calls_snoc ops op this : calls (ops ++ [op]) this = call op (calls ops this).
Proof. unfold Policy.calls. rewrite foldl_app. reflexivity. Qed.

(** What one call does to the acknowledgment flag. *)
Lemma call_flag op this :
  wantsResubscribeForVideoCodecPreferenceChange (call op this) =
  match op with
  | SetVideoCodecPreferences _ => true
  | ChooseVideoCodecPreferences => false
  | _ => wantsResubscribeForVideoCodecPreferenceChange this
  end.
Proof.
  destruct op; try reflexivity.
  simpl. unfold updateTransceiverController.
  destruct (getStreamCaptureSetting this); [| reflexivity].
  destruct (shouldUpdateEndcodingParameters _ _); reflexivity.
Qed.

Lemma pending_nil : ~ Claimed.pendingAcknowledgment [].
Proof. intros (b & p & a & H & _). destruct b; discriminate. Qed.

Lemma pending_snoc ops op :
  Claimed.pendingAcknowledgment (ops ++ [op]) <->
  match op with
  | SetVideoCodecPreferences _ => True
  | ChooseVideoCodecPreferences => False
  | _ => Claimed.pendingAcknowledgment ops
  end.
Proof.
  assert (Hmid : forall (b a : list operation) x,
             ops ++ [op] = b ++ x :: a ->
             (a = [] /\ ops = b /\ op = x)
             \/ exists a', a = a' ++ [op] /\ ops = b ++ x :: a').
  { intros b a x H. destruct (decide (a = [])) as [-> | Hne].
    - left. apply app_inj_tail in H. destruct H; subst; auto.
    - right. destruct (exists_last Hne) as (a' & y & ->).
      replace (b ++ x :: a' ++ [y]) with ((b ++ x :: a') ++ [y]) in H
        by (rewrite <- app_assoc; reflexivity).
      apply app_inj_tail in H. destruct H as [H ->].
      exists a'. split; [reflexivity |]. rewrite H. reflexivity. }
  assert (Hkeep : op <> ChooseVideoCodecPreferences ->
            (forall p, op <> SetVideoCodecPreferences p) ->
            Claimed.pendingAcknowledgment (ops ++ [op])
            <-> Claimed.pendingAcknowledgment ops).
  { intros Hc Hs. split.
    - intros (b & p & a & H & Hnot). apply Hmid in H.
      destruct H as [(_ & _ & Hop) | (a' & -> & ->)].
      + exfalso. exact (Hs p Hop).
      + exists b, p, a'. split; [reflexivity |].
        intros Hin. apply Hnot. apply elem_of_app. left. exact Hin.
    - intros (b & p & a & -> & Hnot). exists b, p, (a ++ [op]). split.
      + rewrite <- app_assoc. reflexivity.
      + intros Hin. apply elem_of_app in Hin. destruct Hin as [Hin | Hin].
        * exact (Hnot Hin).
        * apply list_elem_of_singleton in Hin. congruence. }
  destruct op; try (apply Hkeep; [discriminate | intros; discriminate]).
  - split; [trivial |]. intros _. exists ops, preferences, []. split; [reflexivity |].
    apply not_elem_of_nil.
  - split; [| tauto]. intros (b & p & a & H & Hnot). apply Hmid in H.
    destruct H as [(_ & _ & Hop) | (a' & -> & _)]; [discriminate |].
    apply Hnot. apply elem_of_app. right. apply list_elem_of_singleton. reflexivity.
Qed.

(** The flag of a policy is set exactly when its history, from the
    constructor on, leaves a codec-preference change unacknowledged. *)
Lemma flag_pending id scale ops :
  wantsResubscribeForVideoCodecPreferenceChange (calls ops (new id scale)) = true
  <-> Claimed.pendingAcknowledgment ops.
Proof.
  induction ops as [| op ops IH] using rev_ind.
  - simpl. split; [discriminate | intros H; destruct (pending_nil H)].
  - rewrite calls_snoc, call_flag, pending_snoc.
    destruct op; try exact IH; simpl; split; auto; try discriminate; tauto.
Qed.

(** C4.  [wantsResubscribe()] answers true exactly when the optimal parameters
    differ from the parameters in effect or the acknowledgment flag is set; and
    in a policy reached from its constructor by any history of calls the flag is
    set exactly when [setVideoCodecPreferences] was called and
    [chooseVideoCodecPreferences] has not been called since. *)
Theorem wantsResubscribe_iff :
  (forall this,
      wantsResubscribe this = true <->
      optimalParameters this <> parametersInEffect this
      \/ wantsResubscribeForVideoCodecPreferenceChange this = true)
  /\ (forall id scale history,
        let this := calls history (new id scale) in
        wantsResubscribe this = true <->
        optimalParameters this <> parametersInEffect this
        \/ Claimed.pendingAcknowledgment history).
Proof.
  assert (H : forall this,
      wantsResubscribe this = true <->
      optimalParameters this <> parametersInEffect this
      \/ wantsResubscribeForVideoCodecPreferenceChange this = true).
  { intros this. unfold wantsResubscribe.
    rewrite orb_true_iff, negb_true_iff, ParamFacts.equal_false.
    split; intros [H | H]; auto; left; congruence. }
  split; [exact H |].
  intros id scale history this. rewrite H. unfold this.
  rewrite flag_pending. reflexivity.
Qed.

End History.

(** C4 on two histories of the default policy that never ran [updateIndex]
    (so that its parameters agree): a stored preference makes it want to
    resubscribe, and reading the preference ends that. *)
Lemma wantsResubscribe_iff_witness :
  wantsResubscribe
    (Policy.calls (fun tc _ => tc)
       [SetVideoCodecPreferences [Codec.vp8]; MaxBandwidthKbps] (new "self" true))
  = true
  /\ wantsResubscribe
       (Policy.calls (fun tc _ => tc)
          [SetVideoCodecPreferences [Codec.vp8]; ChooseVideoCodecPreferences]
          (new "self" true))
     <> true.
Proof.
  destruct (wantsResubscribe_iff (fun tc _ => tc)) as [_ Hhistory].
  split.
  - apply (Hhistory "self" true [SetVideoCodecPreferences [Codec.vp8]; MaxBandwidthKbps]).
    right. exists [], [Codec.vp8], [MaxBandwidthKbps]. split; [reflexivity |].
    intros Hin. apply list_elem_of_singleton in Hin. discriminate Hin.
  - intros Hwants.
    apply (Hhistory "self" true
             [SetVideoCodecPreferences [Codec.vp8]; ChooseVideoCodecPreferences])
      in Hwants.
    destruct Hwants as [Hdiffer | (before & preferences & after & Heq & Hnot)].
    + apply Hdiffer. reflexivity.
    + destruct before as [| op1 [| op2 [| op3 before]]]; simpl in Heq.
      * injection Heq as _ <-. apply Hnot, list_elem_of_here.
      * injection Heq as _ Heq. discriminate Heq.
      * injection Heq as _ _ Heq. discriminate Heq.
      * injection Heq as _ _ Heq. destruct before; discriminate Heq.
Defined.

(** ** The encoding parameters *)

Lemma targetHeightArray_length : length targetHeightArray = 26%nat.
Proof. reflexivity. Qed.

(** With more than two participants the table is read inside its bounds. *)
Lemma targetHeight_lookup this :
  numParticipants this > 2 ->
  targetHeightArray !! Z.to_nat (Z.min (numParticipants this) 25)
  = Some (targetHeight this)
  /\ 180 <= targetHeight this <= 540.
Proof.
  intros Hn. unfold targetHeight. rewrite targetHeightArray_length.
  change (Z.of_nat 26 - 1) with 25.
  set (k := Z.to_nat (Z.min (numParticipants this) 25)).
  assert (Hk : (3 <= k < 26)%nat) by (unfold k; lia).
  clearbody k.
  do 26 (destruct k as [| k]; [simpl; split; [reflexivity | lia] |]).
  lia.
Qed.

Lemma scalesDown_true this setting :
  scalesDown this setting = true <->
  numParticipants this > 2 /\ hasBandwidthPriority this = false
  /\ scaleResolution this = true
  /\ is_Some (width setting) /\ is_Some (height setting).
Proof.
  unfold scalesDown.
  rewrite !andb_true_iff, !bool_decide_eq_true, negb_true_iff,
    <- !not_eq_None_Some.
  tauto.
Qed.

(** C5.  The scale of the computed encoding is
    max(min(height, width) / targetHeightArray[min(numParticipants, 25)], 1)
    when there are more than two participants, no bandwidth priority,
    resolution scaling enabled and both capture dimensions known, and it is 1 in
    every other case; so it differs from 1 only in the first case.  The table
    is the one of the specification. *)
Theorem scaleResolutionDownBy_cases
  (this : NScaleVideoUplinkBandwidthPolicy) (setting : MediaTrackSettings) :
  let active :=
    numParticipants this > 2 /\ hasBandwidthPriority this = false
    /\ scaleResolution this = true
    /\ is_Some (width setting) /\ is_Some (height setting) in
  let scale := scaleResolutionDownBy (calculateEncodingParameters this setting) in
  targetHeightArray =
    [0; 0; 0; 540; 540; 480; 480; 480; 480; 360; 360; 360; 360;
     270; 270; 270; 270; 180; 180; 180; 180; 180; 180; 180; 180; 180]
  /\ (forall capturedHeight capturedWidth,
        numParticipants this > 2 -> hasBandwidthPriority this = false ->
        scaleResolution this = true ->
        height setting = Some capturedHeight -> width setting = Some capturedWidth ->
        exists target,
          targetHeightArray !! Z.to_nat (Z.min (numParticipants this) 25) = Some target
          /\ scale =
             Some (Math_max (Math_min capturedHeight capturedWidth / num target)%js (num 1)))
  /\ (~ active -> scale = Some (num 1))
  /\ (scale <> Some (num 1) -> active).
Proof.
  cbv zeta. split; [reflexivity |].
  assert (Hoff : ~ (numParticipants this > 2 /\ hasBandwidthPriority this = false
                    /\ scaleResolution this = true
                    /\ is_Some (width setting) /\ is_Some (height setting)) ->
                 scaleResolutionDownBy (calculateEncodingParameters this setting)
                 = Some (num 1)).
  { intros Hnot. unfold calculateEncodingParameters. simpl.
    destruct (scalesDown this setting) eqn:E; [| reflexivity].
    apply scalesDown_true in E. contradiction. }
  split; [| split; [exact Hoff |]].
  - intros h w Hn Hp Hs Hh Hw.
    destruct (targetHeight_lookup this Hn) as [Hlook _].
    exists (targetHeight this). split; [exact Hlook |].
    unfold calculateEncodingParameters. simpl.
    rewrite (proj2 (scalesDown_true this setting)).
    + rewrite Hh, Hw. reflexivity.
    + rewrite Hh, Hw. repeat split; eauto.
  - intros Hne.
    destruct (decide (numParticipants this > 2)) as [Hn | Hn];
      [| exfalso; apply Hne, Hoff; tauto].
    destruct (hasBandwidthPriority this) eqn:Hp;
      [exfalso; apply Hne, Hoff; intros (_ & ? & _); discriminate |].
    destruct (scaleResolution this) eqn:Hs;
      [| exfalso; apply Hne, Hoff; intros (_ & _ & ? & _); discriminate].
    destruct (width setting) as [w |] eqn:Hw;
      [| exfalso; apply Hne, Hoff; intros (_ & _ & _ & [? ?] & _); discriminate].
    destruct (height setting) as [h |] eqn:Hh;
      [| exfalso; apply Hne, Hoff; intros (_ & _ & _ & _ & [? ?]); discriminate].
    repeat split; eauto.
Qed.

(** C5 at a policy with six participants and a 1280x720 capture: the target
    height is 480 and the scale 720/480 = 3/2. *)
Lemma scaleResolutionDownBy_cases_witness :
  scaleResolutionDownBy (calculateEncodingParameters (among 5) hd720)
  = Some (num 3 / num 2)%Qc.
Proof.
  assert (Hn : numParticipants (among 5) > 2) by reflexivity.
  destruct (proj1 (proj2 (scaleResolutionDownBy_cases (among 5) hd720))
              (num 720) (num 1280) Hn eq_refl eq_refl eq_refl eq_refl)
    as (target & Hlook & Hscale).
  rewrite Hscale. vm_compute in Hlook.
  injection Hlook as <-. f_equal. qc_eq.
Defined.

(** *** The push *)

Lemma settings_sender this settings :
  getStreamCaptureSetting this = Some settings ->
  exists tc tr s,
    transceiverController this = Some tc
    /\ localVideoTransceiver tc = Some tr /\ sender tr = Some s.
Proof.
  unfold getStreamCaptureSetting. intros H.
  destruct (transceiverController this) as [tc |]; simpl in H; [| discriminate].
  destruct (localVideoTransceiver tc) as [tr |] eqn:Htr; simpl in H; [| discriminate].
  destruct (sender tr) as [s |] eqn:Hs; simpl in H; [| discriminate].
  exists tc, tr, s. auto.
Qed.

Lemma shouldUpdate_false this encoding :
  shouldUpdateEndcodingParameters this encoding = false <->
  (transceiverEncoding this ≫= maxBitrate) = maxBitrate encoding
  /\ (transceiverEncoding this ≫= scaleResolutionDownBy) = scaleResolutionDownBy encoding.
Proof.
  unfold shouldUpdateEndcodingParameters. cbv zeta.
  rewrite orb_false_iff, !bool_decide_eq_false.
  split; intros [H1 H2]; split;
    first [ symmetry; apply dec_stable; assumption | intros Hn; apply Hn; symmetry; assumption ].
Qed.

Lemma updateTransceiverController_pushing setEncodingParameters this settings :
  getStreamCaptureSetting this = Some settings ->
  shouldUpdateEndcodingParameters this (calculateEncodingParameters this settings) = true ->
  updateTransceiverController setEncodingParameters this =
  (let stored :=
     <[encodingMapKey := calculateEncodingParameters this settings]> (encodingParamMap this) in
   (set_transceiverController
      ((fun tc => setEncodingParameters tc stored) <$> transceiverController this)
      (set_encodingParamMap stored this),
    [stored])).
Proof.
  intros Hs Hu. unfold updateTransceiverController. rewrite Hs, Hu. reflexivity.
Qed.

(** C8, amended: [updateTransceiverController()] does nothing without live
    capture settings; otherwise it recomputes the encoding
    {maxBitrate = maxBandwidthKbps()*1000, scaleResolutionDownBy} from them and
    compares it with the first encoding that the sender of the local video
    transceiver currently reports (a member that is missing there counts as
    different).  When both members agree, nothing is pushed and nothing
    changes; otherwise the encoding is stored under the map key and the map is
    pushed to the controller, once. *)
Theorem updateTransceiverController_push
  (setEncodingParameters :
     TransceiverController -> gmap string RTCRtpEncodingParameters -> TransceiverController)
  (this : NScaleVideoUplinkBandwidthPolicy) :
  let update := updateTransceiverController setEncodingParameters in
  (getStreamCaptureSetting this = None -> update this = (this, []))
  /\ (forall settings,
        getStreamCaptureSetting this = Some settings ->
        let encoding := calculateEncodingParameters this settings in
        let reported := transceiverEncoding this in
        let stored := <[encodingMapKey := encoding]> (encodingParamMap this) in
        maxBitrate encoding = Some (num (maxBandwidthKbps this) * num 1000)%js
        /\ ((reported ≫= maxBitrate) = maxBitrate encoding
            /\ (reported ≫= scaleResolutionDownBy) = scaleResolutionDownBy encoding ->
            update this = (this, []))
        /\ (~ ((reported ≫= maxBitrate) = maxBitrate encoding
               /\ (reported ≫= scaleResolutionDownBy) = scaleResolutionDownBy encoding) ->
            snd (update this) = [stored]
            /\ encodingParamMap (fst (update this)) = stored
            /\ Claimed.lastPushed (fst (update this)) = Some encoding)).
Proof.
  cbv zeta. unfold updateTransceiverController. split.
  - intros ->. reflexivity.
  - intros settings ->. split; [reflexivity |]. split.
    + intros H. apply shouldUpdate_false in H. rewrite H. reflexivity.
    + intros H.
      destruct (shouldUpdateEndcodingParameters this
                  (calculateEncodingParameters this settings)) eqn:E.
      * simpl. split; [reflexivity |]. split; [reflexivity |].
        unfold Claimed.lastPushed. simpl. apply lookup_insert_eq.
      * apply shouldUpdate_false in E. contradiction.
Qed.

Lemma calculateEncodingParameters_fields a b settings :
  numParticipants a = numParticipants b ->
  idealMaxBandwidthKbps a = idealMaxBandwidthKbps b ->
  hasBandwidthPriority a = hasBandwidthPriority b ->
  scaleResolution a = scaleResolution b ->
  calculateEncodingParameters a settings = calculateEncodingParameters b settings.
Proof.
  intros Hn HI Hp Hs.
  unfold calculateEncodingParameters, scalesDown, targetHeight, maxBandwidthKbps.
  rewrite Hn, HI, Hp, Hs. reflexivity.
Qed.

(** The encoding at [withCamera]: 1400 kbps, unscaled. *)
Lemma withCamera_encoding :
  calculateEncodingParameters withCamera hd720
  = {| maxBitrate := Some (num 1400000); scaleResolutionDownBy := Some (num 1) |}.
Proof.
  unfold calculateEncodingParameters.
  change (scalesDown withCamera hd720) with false. cbv iota zeta.
  f_equal. f_equal. qc_eq.
Qed.

(** C8 at [withCamera]: the sender reports nothing, so the encoding
    {1400000, 1} is pushed. *)
Lemma updateTransceiverController_push_witness :
  snd (updateTransceiverController ignoring withCamera)
  = [ {[ encodingMapKey :=
           {| maxBitrate := Some (num 1400000);
              scaleResolutionDownBy := Some (num 1) |} ]} ].
Proof.
  assert (Hs : getStreamCaptureSetting withCamera = Some hd720) by reflexivity.
  destruct (proj2 (updateTransceiverController_push ignoring withCamera) hd720 Hs)
    as (_ & _ & Hpush).
  destruct Hpush as (-> & _).
  - intros [H _]. vm_compute in H. discriminate H.
  - rewrite withCamera_encoding.
    unfold withCamera, new, setTransceiverController. simpl.
    rewrite insert_singleton_eq. reflexivity.
Defined.

(** The first push at [withCamera]. *)
Lemma withCamera_first_push :
  updateTransceiverController ignoring withCamera
  = (set_encodingParamMap
       (<[encodingMapKey := calculateEncodingParameters withCamera hd720]>
          (encodingParamMap withCamera)) withCamera,
     [ {[ encodingMapKey :=
            {| maxBitrate := Some (num 1400000);
               scaleResolutionDownBy := Some (num 1) |} ]} ]).
Proof.
  rewrite (updateTransceiverController_pushing ignoring withCamera hd720);
    [| reflexivity | vm_compute; reflexivity].
  cbv zeta. rewrite withCamera_encoding. f_equal; try reflexivity.
  all: try (f_equal; apply insert_singleton_eq).
Qed.

(** C8, as the specification states it, fails on the code: the comparison is
    with what the sender reports, not with the last pushed value.  After a
    first push to a controller whose sender keeps reporting no encodings, the
    recomputed encoding equals the last pushed one, and it is pushed again. *)
Lemma push_repeats_last_pushed :
  let first := updateTransceiverController ignoring withCamera in
  let second := updateTransceiverController ignoring (fst first) in
  snd first <> []
  /\ getStreamCaptureSetting (fst first) = Some hd720
  /\ Claimed.lastPushed (fst first)
     = Some (calculateEncodingParameters (fst first) hd720)
  /\ snd second = snd first
  /\ ~ Claimed.pushesOnlyOnChange ignoring (fst first).
Proof.
  cbv zeta.
  assert (H1 : snd (updateTransceiverController ignoring withCamera) <> [])
    by (rewrite withCamera_first_push; discriminate).
  assert (H2 : getStreamCaptureSetting
                 (fst (updateTransceiverController ignoring withCamera)) = Some hd720)
    by (rewrite withCamera_first_push; reflexivity).
  assert (H3 : Claimed.lastPushed (fst (updateTransceiverController ignoring withCamera))
               = Some (calculateEncodingParameters
                         (fst (updateTransceiverController ignoring withCamera)) hd720)).
  { rewrite withCamera_first_push. unfold Claimed.lastPushed. simpl.
    rewrite lookup_insert_eq. reflexivity. }
  assert (H4 : snd (updateTransceiverController ignoring
                      (fst (updateTransceiverController ignoring withCamera)))
               = snd (updateTransceiverController ignoring withCamera)).
  { rewrite (updateTransceiverController_pushing ignoring _ hd720 H2).
    - rewrite withCamera_first_push. cbv zeta. cbn [fst snd].
      rewrite (calculateEncodingParameters_fields _ withCamera hd720) by reflexivity.
      rewrite withCamera_encoding. cbn [encodingParamMap set_encodingParamMap].
      rewrite insert_insert_eq. unfold withCamera, new, setTransceiverController.
      simpl. rewrite insert_singleton_eq. reflexivity.
    - rewrite withCamera_first_push. vm_compute. reflexivity. }
  repeat split; try assumption.
  intros Hclaim. apply H1. rewrite <- H4. apply (Hclaim hd720 H2 H3).
Qed.

(** *** Controllers that report what was pushed *)

Lemma storing_reportsPushes : reportsPushes storing.
Proof.
  intros this m e [settings Hs] Hm. cbv zeta.
  destruct (settings_sender this settings Hs) as (tc & tr & s & Htc & Htr & Hsender).
  unfold getStreamCaptureSetting, transceiverEncoding in *. simpl.
  rewrite Htc in *. simpl in *. unfold storing. rewrite Hm, Htr. simpl.
  rewrite Hsender. simpl. rewrite Htr in Hs. simpl in Hs. rewrite Hsender in Hs.
  simpl in Hs. auto.
Qed.

(** With such a controller the specification's wording holds: the call that
    follows a call of [updateTransceiverController()] pushes nothing. *)
Lemma second_call_pushes_nothing setEncodingParameters this :
  reportsPushes setEncodingParameters ->
  snd (updateTransceiverController setEncodingParameters
         (fst (updateTransceiverController setEncodingParameters this))) = [].
Proof.
  intros Hreports.
  destruct (getStreamCaptureSetting this) as [settings |] eqn:Hs.
  - destruct (shouldUpdateEndcodingParameters this
                (calculateEncodingParameters this settings)) eqn:Hu.
    + rewrite (updateTransceiverController_pushing _ this settings Hs Hu).
      cbv zeta. simpl fst.
      set (e := calculateEncodingParameters this settings).
      set (m := <[encodingMapKey := e]> (encodingParamMap this)).
      destruct (Hreports (set_encodingParamMap m this) m e) as (Hs' & Hb & Hsc).
      { exists settings. exact Hs. }
      { apply lookup_insert_eq. }
      simpl in Hs', Hb, Hsc.
      unfold updateTransceiverController at 1.
      change (transceiverController (set_encodingParamMap m this))
        with (transceiverController this) in *.
      rewrite Hs'. change (getStreamCaptureSetting (set_encodingParamMap m this))
        with (getStreamCaptureSetting this). rewrite Hs.
      match goal with
      | |- context [calculateEncodingParameters ?s settings] =>
          replace (calculateEncodingParameters s settings) with e
            by (apply calculateEncodingParameters_fields; reflexivity)
      end.
      rewrite (proj2 (shouldUpdate_false _ e)); [reflexivity |].
      split; assumption.
    + unfold updateTransceiverController at 2. rewrite Hs, Hu. simpl fst.
      unfold updateTransceiverController. rewrite Hs, Hu. reflexivity.
  - unfold updateTransceiverController at 2. rewrite Hs. simpl fst.
    unfold updateTransceiverController. rewrite Hs. reflexivity.
Qed.

Example storing_second_call :
  snd (updateTransceiverController storing
         (fst (updateTransceiverController storing withCamera))) = [].
Proof. apply second_call_pushes_nothing, storing_reportsPushes. Qed.

(** ** [updateIndex] and the commit of the parameters *)

Lemma updateIndex_counted this videoIndex :
  updateIndex this videoIndex =
  set_optimalParameters
    (Param.new (captureWidth (counted this videoIndex))
       (captureHeight (counted this videoIndex)) 15
       (maxBandwidthKbps (counted this videoIndex)) false
       (match getStreamCaptureSetting this with
        | Some settings =>
            scaleResolutionDownBy
              (calculateEncodingParameters (counted this videoIndex) settings)
        | None => Some (num 1)
        end))
    (counted this videoIndex).
Proof.
  unfold updateIndex, counted, getStreamCaptureSetting. cbv zeta.
  destruct (transceiverController this) as [tc |] eqn:Htc;
    unfold set_numParticipants at 1 5; simpl; rewrite Htc; reflexivity.
Qed.

(** C6, as the specification states it, fails on the code: a policy as
    constructed has no transceiver controller, hence no local capture that
    could be active, and [updateIndex] still counts the policy's own video in.
    With no other publisher the count is 1, not 0. *)
Lemma updateIndex_counts_self_without_controller :
  let this := new "self" true in
  let videoIndex :=
    {| numberOfVideoPublishingParticipantsExcludingSelf := fun _ => 0 |} in
  transceiverController this = None
  /\ Claimed.localCaptureActive this = false
  /\ Claimed.numParticipants this videoIndex = 0
  /\ numParticipants (updateIndex this videoIndex) = 1
  /\ numParticipants (updateIndex this videoIndex)
     <> Claimed.numParticipants this videoIndex.
Proof. cbv zeta. repeat split. discriminate. Qed.

(** C6, amended: after [updateIndex(videoIndex)] the participant count is the
    index's count of video-publishing participants excluding self, plus 1
    unless a transceiver controller is set and reports no video input (with no
    controller the policy counts itself in); and the optimal parameters are
    rebuilt from that count: 640x384 up to four participants and 320x192
    beyond, frame rate 15, [maxBandwidthKbps()] at the new count, no simulcast,
    and the scale of the encoding computed at the new count from the live
    capture settings, or 1 when there are none.  The parameters in effect and
    the other fields stay as they were. *)
Theorem updateIndex_recomputes
  (this : NScaleVideoUplinkBandwidthPolicy) (videoIndex : VideoStreamIndex) :
  let after := updateIndex this videoIndex in
  let n :=
    numberOfVideoPublishingParticipantsExcludingSelf videoIndex (selfAttendeeId this)
    + match transceiverController this with
      | Some tc => if hasVideoInput tc then 1 else 0
      | None => 1
      end in
  numParticipants after = n
  /\ (Claimed.localCaptureActive this = true \/ transceiverController this <> None ->
      n = Claimed.numParticipants this videoIndex)
  /\ optimalParameters after =
     {| paramWidth := if bool_decide (n > 4) then 320 else 640;
        paramHeight := if bool_decide (n > 4) then 192 else 384;
        paramFrameRate := 15;
        paramMaxBandwidthKbps := maxBandwidthKbps after;
        paramIsSimulcast := false;
        paramScale :=
          match getStreamCaptureSetting this with
          | Some settings =>
              default (num 1)
                (scaleResolutionDownBy (calculateEncodingParameters after settings))
          | None => num 1
          end |}
  /\ parametersInEffect after = parametersInEffect this
  /\ idealMaxBandwidthKbps after = idealMaxBandwidthKbps this
  /\ hasBandwidthPriority after = hasBandwidthPriority this
  /\ transceiverController after = transceiverController this
  /\ encodingParamMap after = encodingParamMap this
  /\ videoCodecPreferences after = videoCodecPreferences this
  /\ wantsResubscribeForVideoCodecPreferenceChange after
     = wantsResubscribeForVideoCodecPreferenceChange this.
Proof.
  cbv zeta. rewrite updateIndex_counted.
  split; [reflexivity |].
  split.
  { unfold Claimed.numParticipants, Claimed.localCaptureActive.
    destruct (transceiverController this) as [tc |].
    - intros _. destruct (hasVideoInput tc); reflexivity.
    - intros [? | ?]; [discriminate | contradiction]. }
  split.
  { simpl. unfold Param.new, captureWidth, captureHeight, counted. simpl.
    f_equal. destruct (getStreamCaptureSetting this); reflexivity. }
  repeat split.
Qed.

(** C6 at [withCamera] with five other publishers: six participants,
    320x192 at 15 frames, 641 kbps, scale 3/2. *)
Lemma updateIndex_recomputes_witness :
  let after :=
    updateIndex withCamera
      {| numberOfVideoPublishingParticipantsExcludingSelf := fun _ => 5 |} in
  numParticipants after = 6
  /\ optimalParameters after = Param.new 320 192 15 641 false (Some (num 3 / num 2)%Qc).
Proof.
  cbv zeta.
  destruct (updateIndex_recomputes withCamera
              {| numberOfVideoPublishingParticipantsExcludingSelf := fun _ => 5 |})
    as (Hn & _ & Hopt & _).
  split; [exact Hn |].
  rewrite Hopt. unfold Param.new.
  f_equal; first [ vm_compute; reflexivity | qc_eq ].
Defined.

(** The commit on the store of objects: the two clones are new objects, the
    returned one is neither of the policy's, and they carry the value of the
    optimal parameters; the store and references after the call stand for the
    policy after the call. *)
Lemma commit_returns_new_object store refs this :
  Objects.represents store refs this ->
  exists store' refs' returned,
    Objects.chooseCaptureAndEncodeParameters store refs = Some (store', refs', returned)
    /\ Objects.represents store' refs' (fst (chooseCaptureAndEncodeParameters this))
    /\ store' !! returned = Some (snd (chooseCaptureAndEncodeParameters this))
    /\ returned <> Objects.parametersInEffectAt refs'
    /\ returned <> Objects.optimalParametersAt refs'
    /\ Objects.parametersInEffectAt refs' <> Objects.optimalParametersAt refs'
    /\ (forall changed,
          Objects.represents (<[returned := changed]> store') refs'
            (fst (chooseCaptureAndEncodeParameters this))).
Proof.
  intros [Hopt Heff].
  assert (Hlt := lookup_lt_Some _ _ _ Hopt).
  unfold Objects.chooseCaptureAndEncodeParameters, Objects.allocate.
  rewrite Hopt. simpl.
  rewrite (lookup_app_r store) by lia. rewrite Nat.sub_diag. simpl.
  eexists _, _, _. split; [reflexivity |].
  unfold Objects.represents, chooseCaptureAndEncodeParameters. simpl.
  rewrite !ParamFacts.clone_id.
  assert (Ha : ((store ++ [optimalParameters this]) ++ [optimalParameters this])
               !! length store = Some (optimalParameters this)).
  { rewrite lookup_app_l by (rewrite length_app; simpl; lia).
    rewrite lookup_app_r by lia. rewrite Nat.sub_diag. reflexivity. }
  assert (Ho : ((store ++ [optimalParameters this]) ++ [optimalParameters this])
               !! Objects.optimalParametersAt refs = Some (optimalParameters this)).
  { rewrite lookup_app_l by (rewrite length_app; simpl; lia).
    rewrite lookup_app_l by lia. exact Hopt. }
  repeat split; try assumption; try (rewrite ?length_app; simpl; lia).
  - rewrite lookup_app_r by (rewrite length_app; simpl; lia).
    rewrite Nat.sub_diag. reflexivity.
  - rewrite list_lookup_insert_ne by (rewrite length_app; simpl; lia). exact Ho.
  - rewrite list_lookup_insert_ne by (rewrite length_app; simpl; lia). exact Ha.
Qed.

Section Frame.

Variable setEncodingParameters :
  TransceiverController -> gmap string RTCRtpEncodingParameters -> TransceiverController.

Abbreviation call' := (Policy.call setEncodingParameters).
Abbreviation calls' := (Policy.calls setEncodingParameters).

Lemma updateTransceiverController_frame this :
  let after := fst (updateTransceiverController setEncodingParameters this) in
  parametersInEffect after = parametersInEffect this
  /\ optimalParameters after = optimalParameters this
  /\ numParticipants after = numParticipants this
  /\ idealMaxBandwidthKbps after = idealMaxBandwidthKbps this
  /\ hasBandwidthPriority after = hasBandwidthPriority this
  /\ videoCodecPreferences after = videoCodecPreferences this.
Proof.
  cbv zeta. unfold updateTransceiverController.
  destruct (getStreamCaptureSetting this); [| repeat split].
  destruct (shouldUpdateEndcodingParameters _ _); repeat split.
Qed.

(** One call other than the commit leaves the parameters in effect alone. *)
Lemma call_parametersInEffect op this :
  op <> ChooseCaptureAndEncodeParameters ->
  parametersInEffect (call' op this) = parametersInEffect this.
Proof.
  intros Hop. destruct op; try contradiction;
    first [ apply updateTransceiverController_frame
          | simpl; rewrite ?updateIndex_counted; reflexivity ].
Qed.

(** One call other than [updateIndex] leaves the optimal parameters alone. *)
Lemma call_optimalParameters op this :
  (forall videoIndex, op <> UpdateIndex videoIndex) ->
  optimalParameters (call' op this) = optimalParameters this.
Proof.
  intros Hop. destruct op;
    first [ destruct (Hop videoIndex eq_refl)
          | apply updateTransceiverController_frame
          | reflexivity ].
Qed.

Lemma calls_optimalParameters ops this :
  (forall videoIndex, UpdateIndex videoIndex ∉ ops) ->
  optimalParameters (calls' ops this) = optimalParameters this.
Proof.
  revert this. induction ops as [| op ops IH]; intros this Hno; [reflexivity |].
  simpl. rewrite IH.
  - apply call_optimalParameters. intros videoIndex ->.
    apply (Hno videoIndex). apply list_elem_of_here.
  - intros videoIndex Hin. apply (Hno videoIndex). apply list_elem_of_further, Hin.
Qed.

(** C7.  Of all the calls on a policy only [chooseCaptureAndEncodeParameters()]
    changes the parameters in effect: it sets them to the value of the optimal
    parameters, which it leaves alone, and returns a copy of that value; every
    other call leaves the parameters in effect as they were.  On the store of
    objects the returned copy is an object of its own: whatever is written to
    it, the policy's parameters stay what they are. *)
Theorem parametersInEffect_only_by_commit (this : NScaleVideoUplinkBandwidthPolicy) :
  (forall op,
      parametersInEffect (call' op this) <> parametersInEffect this ->
      op = ChooseCaptureAndEncodeParameters)
  /\ (forall videoIndex,
        parametersInEffect (updateIndex this videoIndex) = parametersInEffect this)
  /\ call' WantsResubscribe this = this
  /\ call' MaxBandwidthKbps this = this
  /\ (forall v,
        parametersInEffect (setIdealMaxBandwidthKbps this v) = parametersInEffect this)
  /\ (forall v,
        parametersInEffect (setHasBandwidthPriority this v) = parametersInEffect this)
  /\ (forall v,
        parametersInEffect (setVideoCodecPreferences this v) = parametersInEffect this)
  /\ parametersInEffect (fst (chooseVideoCodecPreferences this)) = parametersInEffect this
  /\ parametersInEffect (fst (updateTransceiverController setEncodingParameters this))
     = parametersInEffect this
  /\ (let committed := chooseCaptureAndEncodeParameters this in
      parametersInEffect (fst committed) = optimalParameters this
      /\ snd committed = optimalParameters this
      /\ optimalParameters (fst committed) = optimalParameters this
      /\ call' ChooseCaptureAndEncodeParameters this = fst committed)
  /\ (forall store refs,
        Objects.represents store refs this ->
        exists store' refs' returned,
          Objects.chooseCaptureAndEncodeParameters store refs
          = Some (store', refs', returned)
          /\ store' !! returned = Some (optimalParameters this)
          /\ returned <> Objects.parametersInEffectAt refs'
          /\ returned <> Objects.optimalParametersAt refs'
          /\ (forall changed,
                Objects.represents (<[returned := changed]> store') refs'
                  (fst (chooseCaptureAndEncodeParameters this)))).
Proof.
  split.
  { intros op Hne.
    destruct op; try reflexivity;
      exfalso; apply Hne, call_parametersInEffect; discriminate. }
  split.
  { intros videoIndex.
    apply (call_parametersInEffect (UpdateIndex videoIndex)). discriminate. }
  do 6 (split; [reflexivity |]).
  split; [apply updateTransceiverController_frame |].
  split.
  { cbv zeta. unfold chooseCaptureAndEncodeParameters. simpl.
    rewrite !ParamFacts.clone_id. auto. }
  intros store refs Hrep.
  destruct (commit_returns_new_object store refs this Hrep)
    as (store' & refs' & returned & Heq & _ & Hret & Hne1 & Hne2 & _ & Hkeep).
  exists store', refs', returned.
  replace (optimalParameters this)
    with (snd (chooseCaptureAndEncodeParameters this))
    by (unfold chooseCaptureAndEncodeParameters; simpl;
        rewrite !ParamFacts.clone_id; reflexivity).
  auto.
Qed.

End Frame.

(** C7 at the default policy with one participant: [updateIndex] computes new
    optimal parameters and leaves the parameters in effect at their initial
    value; the commit then hands out 640x384 at 1400 kbps. *)
Lemma parametersInEffect_only_by_commit_witness :
  let alone := {| numberOfVideoPublishingParticipantsExcludingSelf := fun _ => 0 |} in
  parametersInEffect (updateIndex (new "self" true) alone)
  = Param.new 0 0 0 0 false None
  /\ snd (chooseCaptureAndEncodeParameters (updateIndex (new "self" true) alone))
     = Param.new 640 384 15 1400 false None.
Proof.
  cbv zeta.
  destruct (parametersInEffect_only_by_commit ignoring (new "self" true))
    as (_ & Hupdate & _).
  destruct (parametersInEffect_only_by_commit ignoring (among 0))
    as (_ & _ & _ & _ & _ & _ & _ & _ & _ & (_ & Hreturned & _) & _).
  split.
  - rewrite Hupdate. reflexivity.
  - unfold among in Hreturned. rewrite Hreturned.
    unfold Param.new. f_equal; vm_compute; reflexivity.
Defined.

(** ** The codec preferences, the ideal bandwidth and the priority flag *)

Section Deferred.

Variable setEncodingParameters :
  TransceiverController -> gmap string RTCRtpEncodingParameters -> TransceiverController.

Abbreviation call'' := (Policy.call setEncodingParameters).
Abbreviation calls'' := (Policy.calls setEncodingParameters).

(** One call other than [setVideoCodecPreferences] keeps the stored list. *)
Lemma call_videoCodecPreferences op this :
  (forall l, op <> SetVideoCodecPreferences l) ->
  videoCodecPreferences (call'' op this) = videoCodecPreferences this.
Proof.
  intros Hop. destruct op;
    first [ destruct (Hop preferences eq_refl)
          | apply updateTransceiverController_frame
          | reflexivity ].
Qed.

Lemma calls_videoCodecPreferences ops this :
  (forall l, SetVideoCodecPreferences l ∉ ops) ->
  videoCodecPreferences (calls'' ops this) = videoCodecPreferences this.
Proof.
  revert this. induction ops as [| op ops IH]; intros this Hno; [reflexivity |].
  simpl. rewrite IH.
  - apply call_videoCodecPreferences. intros l ->.
    apply (Hno l). apply list_elem_of_here.
  - intros l Hin. apply (Hno l). apply list_elem_of_further, Hin.
Qed.

(** C9.  [setVideoCodecPreferences(list)] stores the list and sets the flag;
    the next [chooseVideoCodecPreferences()], directly or after any calls that
    do not store another list, returns exactly that list and clears the flag,
    after which [wantsResubscribe()] only answers for the parameters. *)
Theorem codec_preferences_stored_then_acknowledged
  (this : NScaleVideoUplinkBandwidthPolicy) (list : list VideoCodecCapability) :
  let stored := setVideoCodecPreferences this list in
  videoCodecPreferences stored = list
  /\ wantsResubscribeForVideoCodecPreferenceChange stored = true
  /\ wantsResubscribe stored = true
  /\ (forall between,
        (forall l, SetVideoCodecPreferences l ∉ between) ->
        let read := chooseVideoCodecPreferences (calls'' between stored) in
        snd read = list
        /\ videoCodecPreferences (fst read) = list
        /\ wantsResubscribeForVideoCodecPreferenceChange (fst read) = false
        /\ (wantsResubscribe (fst read) = true <->
            optimalParameters (fst read) <> parametersInEffect (fst read))).
Proof.
  cbv zeta. repeat (split; [reflexivity |]).
  intros between Hno. unfold chooseVideoCodecPreferences. simpl.
  rewrite (calls_videoCodecPreferences between _ Hno). simpl.
  repeat (split; [reflexivity |]).
  unfold wantsResubscribe. simpl.
  rewrite negb_true_iff, ParamFacts.equal_false.
  split; intros H; congruence.
Qed.

(** C10.  [setIdealMaxBandwidthKbps] and [setHasBandwidthPriority] write
    their own field and nothing else.  The optimal parameters and the
    parameters in effect stay as they were, so [wantsResubscribe()] and the
    result of [chooseCaptureAndEncodeParameters()] are what they were before,
    also after any further calls other than [updateIndex]; the next
    [updateIndex] rebuilds the optimal parameters with the bandwidth of the new
    setting. *)
Theorem ideal_and_priority_wait_for_updateIndex
  (this : NScaleVideoUplinkBandwidthPolicy) :
  (forall v,
      let after := setIdealMaxBandwidthKbps this v in
      idealMaxBandwidthKbps after = v
      /\ agreeApartFrom true false after this
      /\ wantsResubscribe after = wantsResubscribe this
      /\ snd (chooseCaptureAndEncodeParameters after)
         = snd (chooseCaptureAndEncodeParameters this)
      /\ (forall later,
            (forall videoIndex, UpdateIndex videoIndex ∉ later) ->
            optimalParameters (calls'' later after) = optimalParameters this
            /\ snd (chooseCaptureAndEncodeParameters (calls'' later after))
               = optimalParameters this)
      /\ (forall videoIndex,
            let updated := updateIndex after videoIndex in
            idealMaxBandwidthKbps updated = v
            /\ paramMaxBandwidthKbps (optimalParameters updated)
               = maxBandwidthKbps updated))
  /\ (forall v,
        let after := setHasBandwidthPriority this v in
        hasBandwidthPriority after = v
        /\ agreeApartFrom false true after this
        /\ wantsResubscribe after = wantsResubscribe this
        /\ snd (chooseCaptureAndEncodeParameters after)
           = snd (chooseCaptureAndEncodeParameters this)
        /\ (forall later,
              (forall videoIndex, UpdateIndex videoIndex ∉ later) ->
              optimalParameters (calls'' later after) = optimalParameters this
              /\ snd (chooseCaptureAndEncodeParameters (calls'' later after))
                 = optimalParameters this)
        /\ (forall videoIndex,
              let updated := updateIndex after videoIndex in
              hasBandwidthPriority updated = v
              /\ paramMaxBandwidthKbps (optimalParameters updated)
                 = maxBandwidthKbps updated)).
Proof.
  assert (Hlater : forall s later,
             optimalParameters s = optimalParameters this ->
             (forall videoIndex, UpdateIndex videoIndex ∉ later) ->
             optimalParameters (calls'' later s) = optimalParameters this
             /\ snd (chooseCaptureAndEncodeParameters (calls'' later s))
                = optimalParameters this).
  { intros s later Hs Hno. unfold chooseCaptureAndEncodeParameters. simpl.
    rewrite !ParamFacts.clone_id.
    rewrite (calls_optimalParameters setEncodingParameters later s Hno).
    auto. }
  split; intros v; cbv zeta.
  - split; [reflexivity |].
    split; [unfold agreeApartFrom; repeat split; intros; discriminate |].
    split; [reflexivity |]. split; [reflexivity |].
    split; [intros later; apply Hlater; reflexivity |].
    intros videoIndex. rewrite updateIndex_counted. split; reflexivity.
  - split; [reflexivity |].
    split; [unfold agreeApartFrom; repeat split; intros; discriminate |].
    split; [reflexivity |]. split; [reflexivity |].
    split; [intros later; apply Hlater; reflexivity |].
    intros videoIndex. rewrite updateIndex_counted. split; reflexivity.
Qed.

End Deferred.

(** C9 with H.264 preferred and a bandwidth query before the read. *)
Lemma codec_preferences_stored_then_acknowledged_witness :
  let stored :=
    setVideoCodecPreferences (among 0) [Codec.h264ConstrainedBaselineProfile] in
  let read := chooseVideoCodecPreferences (Policy.calls ignoring [MaxBandwidthKbps] stored) in
  snd read = [Codec.h264ConstrainedBaselineProfile]
  /\ wantsResubscribeForVideoCodecPreferenceChange (fst read) = false.
Proof.
  cbv zeta.
  destruct (codec_preferences_stored_then_acknowledged ignoring (among 0)
              [Codec.h264ConstrainedBaselineProfile]) as (_ & _ & _ & Hread).
  destruct (Hread [MaxBandwidthKbps]) as (H1 & _ & H2 & _).
  - intros l Hin. apply list_elem_of_singleton in Hin. discriminate Hin.
  - split; assumption.
Defined.

(** C10 at the default policy with one participant: the ideal bandwidth set
    to 600 shows in the committed parameters only after the next
    [updateIndex]. *)
Lemma ideal_and_priority_wait_for_updateIndex_witness :
  let alone := {| numberOfVideoPublishingParticipantsExcludingSelf := fun _ => 0 |} in
  let after := setIdealMaxBandwidthKbps (among 0) (num 600) in
  maxBandwidthKbps after = 600
  /\ paramMaxBandwidthKbps
       (snd (chooseCaptureAndEncodeParameters (Policy.calls ignoring [WantsResubscribe] after))) = 1400
  /\ paramMaxBandwidthKbps
       (snd (chooseCaptureAndEncodeParameters (updateIndex after alone))) = 600.
Proof.
  cbv zeta.
  destruct (ideal_and_priority_wait_for_updateIndex ignoring (among 0)) as [Hideal _].
  destruct (Hideal (num 600)) as (_ & _ & _ & _ & Hlater & _).
  destruct (Hlater [WantsResubscribe]) as [_ Hsame].
  - intros videoIndex Hin. apply list_elem_of_singleton in Hin. discriminate Hin.
  - split; [vm_compute; reflexivity |].
    split; [rewrite Hsame; vm_compute; reflexivity | vm_compute; reflexivity].
Defined.
(** ** The formulas on the doubles of the kernel, compared *)

Example double_one_or_two :
  Double.maxBandwidthKbps false 1 1400%float = Some (maxBandwidthKbps (among 0))
  /\ Double.maxBandwidthKbps false 2 1400%float = Some (maxBandwidthKbps (among 1)).
Proof. split; vm_compute; reflexivity. Qed.

Example double_four :
  Double.maxBandwidthKbps false 4 1400%float = Some 933
  /\ maxBandwidthKbps (among 3) = 933.
Proof. split; vm_compute; reflexivity. Qed.

Example double_ten :
  Double.maxBandwidthKbps false 10 1400%float = Some 431
  /\ maxBandwidthKbps (among 9) = 431.
Proof. split; vm_compute; reflexivity. Qed.

(** The two inputs on which the specification's wording fails behave the same
    on doubles: 1400.5 is truncated, and -2/3 becomes 0. *)
Example double_fractional_and_negative :
  Double.maxBandwidthKbps false 2 1400.5%float = Some 1400
  /\ Double.maxBandwidthKbps false 3 (-1)%float = Some 0.
Proof. split; vm_compute; reflexivity. Qed.

(** Where rounding decides: 15 participants with an ideal bandwidth of 275 or
    of 1100 give 63 and 255, on the doubles and in the model. *)
Example double_fifteen :
  Double.maxBandwidthKbps false 15 275%float = Some 63
  /\ maxBandwidthKbps (Double.policy 15 (num 275)) = 63
  /\ Double.maxBandwidthKbps false 15 1100%float = Some 255
  /\ maxBandwidthKbps (Double.policy 15 (num 1100)) = 255.
Proof. repeat split; vm_compute; reflexivity. Qed.

(** The model gives the bandwidth of the doubles for every count from 1 to 40
    at each of the ideal bandwidths of [Double.bandwidths]. *)
Example double_bandwidths :
  forallb (fun n => forallb (Double.sameBandwidth n) Double.bandwidths) Double.counts
  = true.
Proof. vm_compute. reflexivity. Qed.

(** And the scale of the doubles for every such count above 2 (where the
    scale-down is active) and every pair of the capture sides of
    [Double.sides]. *)
Example double_scales :
  forallb
    (fun n =>
       forallb (fun h => forallb (Double.sameScale n h) Double.sides) Double.sides)
    (List.filter (fun n => bool_decide (n > 2)) Double.counts)
  = true.
Proof. vm_compute. reflexivity. Qed.

(** A capture of 481 lines at a target of 480: the scale is the double
    nearest to 481/480, and 481 divided by it is not 480. *)
Example double_481 :
  Double.toNumber (Double.scale 481 640 480)
  = scaleResolutionDownBy
      (calculateEncodingParameters (Double.policy 5 (num 1400))
         (Double.capture (num 481) (num 640)))
  /\ (481 / Double.scale 481 640 480 <? 480)%float = true.
Proof. split; vm_compute; reflexivity. Qed.

End PolicyFacts.

(** ** Codec reordering *)

Module SDPFacts.

Import SDP SDPScenario.

Example parameters_h264 :
  parameters "level-asymmetry-allowed=1;packetization-mode=1;profile-level-id=42e01f"
  = ["level-asymmetry-allowed=1"; "packetization-mode=1"; "profile-level-id=42e01f"].
Proof. reflexivity. Qed.

Example aptOf_99 : aptOf vp8_h264 99 = Some 98.
Proof. reflexivity. Qed.

Example rtxOf_98 : rtxOf vp8_h264 98 = [99].
Proof. reflexivity. Qed.

Example reorder_h264 :
  reorder vp8_h264 [Codec.h264ConstrainedBaselineProfile] = [98; 99; 96; 97].
Proof. vm_compute. reflexivity. Qed.

Example reorder_vp8 : reorder vp8_h264 [Codec.vp8] = [96; 97; 98; 99].
Proof. vm_compute. reflexivity. Qed.

Example reorder_unmatched : reorder vp8_h264 [Codec.av1] = [96; 97; 98; 99].
Proof. vm_compute. reflexivity. Qed.

(** A preference list that matches nothing leaves the order alone, also where
    the retransmissions stand apart from their primaries; a preference that
    matches brings them together. *)
Example reorder_apart :
  reorder apart [Codec.av1] = [96; 98; 97; 99]
  /\ reorder apart [Codec.vp8] = [96; 97; 98; 99].
Proof. split; vm_compute; reflexivity. Qed.

Lemma filter_none {A} (f : A -> bool) (l : list A) :
  (forall y, In y l -> f y = false) -> List.filter f l = [].
Proof.
  induction l as [| y l IH]; intros Hnone; [reflexivity |].
  simpl. rewrite (Hnone y (or_introl eq_refl)). apply IH.
  intros z Hz. apply Hnone. right. exact Hz.
Qed.

(** In a list without repetition, a filter that only [r] passes yields [r]. *)
Lemma filter_only {A} (f : A -> bool) (l : list A) (r : A) :
  NoDup l -> In r l -> f r = true ->
  (forall x, In x l -> f x = true -> x = r) ->
  List.filter f l = [r].
Proof.
  induction l as [| x l IH]; intros Hnd Hin Hr Honly; [destruct Hin |].
  inversion Hnd as [| ? ? Hx Hnd']; subst.
  simpl. destruct (f x) eqn:E.
  - assert (x = r) as -> by (apply Honly; [left; reflexivity | exact E]).
    f_equal. apply filter_none. intros y Hy.
    destruct (f y) eqn:Ey; [| reflexivity].
    assert (y = r) as Hyr by (apply Honly; [right; exact Hy | exact Ey]).
    rewrite Hyr in Hy. destruct (Hx (proj2 (list_elem_of_In _ _) Hy)).
  - destruct Hin as [-> | Hin]; [congruence |].
    apply IH; try assumption.
    intros y Hy. apply Honly. right. exact Hy.
Qed.

Lemma rtxOf_only section primary rtx :
  NoDup (payloadTypes section) ->
  In rtx (payloadTypes section) -> In primary (payloadTypes section) ->
  aptOf section rtx = Some primary -> aptOf section primary = None ->
  (forall other,
      In other (payloadTypes section) -> aptOf section other = Some primary ->
      other = rtx) ->
  rtxOf section primary = [rtx].
Proof.
  intros Hnd Hr Hp Hapt Hprim Honly. unfold rtxOf.
  apply filter_only; try assumption.
  - unfold travels. rewrite Hapt.
    rewrite !andb_true_iff, !bool_decide_eq_true.
    repeat split; try assumption. apply list_elem_of_In. exact Hp.
  - intros other Hother Hf. apply andb_true_iff in Hf. destruct Hf as [_ Hf].
    apply bool_decide_eq_true in Hf. apply Honly; assumption.
Qed.

(** Every primary of the section is placed, by a preference or among the rest. *)
Lemma primary_placed section preferences primary :
  In primary (payloadTypes section) -> aptOf section primary = None ->
  let placed := placeMatched section preferences in
  In primary (placed ++ remaining section placed).
Proof.
  intros Hp Hprim placed. apply in_or_app.
  destruct (decide (primary ∈ placed)) as [Hin | Hout].
  - left. apply list_elem_of_In. exact Hin.
  - right. unfold remaining. apply filter_In. split; [exact Hp |].
    unfold travels. rewrite Hprim. simpl. apply bool_decide_eq_true. exact Hout.
Qed.

(** The groups stay whole in the new order. *)
Lemma group_in_flat_map section order primary :
  In primary order ->
  exists before after,
    flat_map (group section) order = before ++ group section primary ++ after.
Proof.
  intros Hin. apply in_split in Hin. destruct Hin as (l1 & l2 & ->).
  exists (flat_map (group section) l1), (flat_map (group section) l2).
  rewrite flat_map_app. reflexivity.
Qed.

Lemma reorder_adjacent section preferences primary rtx :
  NoDup (payloadTypes section) ->
  placeMatched section preferences <> [] ->
  In rtx (payloadTypes section) -> In primary (payloadTypes section) ->
  aptOf section rtx = Some primary -> aptOf section primary = None ->
  (forall other,
      In other (payloadTypes section) -> aptOf section other = Some primary ->
      other = rtx) ->
  exists before after,
    reorder section preferences = before ++ primary :: rtx :: after.
Proof.
  intros Hnd Hmatched Hr Hp Hapt Hprim Honly. unfold reorder.
  destruct (placeMatched section preferences) as [| p placed] eqn:E;
    [contradiction |].
  rewrite <- E.
  destruct (group_in_flat_map section _ primary
              (primary_placed section preferences primary Hp Hprim))
    as (before & after & ->).
  exists before, after. unfold group.
  rewrite (rtxOf_only section primary rtx) by assumption. reflexivity.
Qed.

(** A preference that matches a primary of the section places it. *)
Lemma placeMatched_matched section preferences preference pt :
  In preference preferences -> In pt (payloadTypes section) ->
  travels section pt = false -> matches section preference pt = true ->
  In pt (placeMatched section preferences).
Proof.
  intros Hpref Hpt Ht Hm. unfold placeMatched.
  set (step := fun placed preference =>
                 placed
                 ++ List.filter
                      (fun pt =>
                         negb (travels section pt) && matches section preference pt
                         && bool_decide (pt ∉ placed))
                      (payloadTypes section)).
  assert (Hkeep : forall prefs placed, In pt placed -> In pt (foldl step placed prefs)).
  { induction prefs as [| q prefs IH]; intros placed Hin; [exact Hin |].
    simpl. apply IH. unfold step. apply in_or_app. left. exact Hin. }
  generalize (@nil Z).
  induction preferences as [| q preferences IH]; intros placed; [destruct Hpref |].
  simpl. destruct Hpref as [-> | Hpref]; [| apply IH, Hpref].
  apply Hkeep. unfold step. apply in_or_app.
  destruct (decide (pt ∈ placed)) as [Hin | Hout].
  - left. apply list_elem_of_In. exact Hin.
  - right. apply filter_In. split; [exact Hpt |].
    rewrite Ht, Hm. simpl. apply bool_decide_eq_true. exact Hout.
Qed.

(** *** The reordering keeps the payload types of the section *)

Lemma NoDup_flat_map {A B} (g : A -> list B) (l : list A) :
  List.NoDup l ->
  (forall x, In x l -> List.NoDup (g x)) ->
  (forall x y z, In x l -> In y l -> x <> y -> In z (g x) -> ~ In z (g y)) ->
  List.NoDup (flat_map g l).
Proof.
  induction l as [| x l IH]; intros Hnd Hg Hdisj; [constructor |].
  inversion Hnd as [| ? ? Hx Hnd']; subst. simpl.
  apply List.NoDup_app.
  - apply Hg. left. reflexivity.
  - apply IH; [assumption | |].
    + intros y Hy. apply Hg. right. exact Hy.
    + intros a b z Ha Hb. apply Hdisj; right; assumption.
  - intros z Hz Hin. apply in_flat_map in Hin. destruct Hin as (y & Hy & Hzy).
    apply (Hdisj x y z); try assumption.
    + left. reflexivity.
    + right. exact Hy.
    + intros ->. contradiction.
Qed.

Section Kept.

Variable section : MediaSection.

Hypothesis distinct : List.NoDup (payloadTypes section).

Lemma rtxOf_In primary z :
  In z (rtxOf section primary) <->
  In z (payloadTypes section) /\ travels section z = true
  /\ aptOf section z = Some primary.
Proof.
  unfold rtxOf. rewrite filter_In, andb_true_iff, bool_decide_eq_true. tauto.
Qed.

Lemma travels_primary z primary :
  travels section z = true -> aptOf section z = Some primary ->
  In primary (payloadTypes section) /\ travels section primary = false.
Proof.
  unfold travels at 1. intros Ht Hapt. rewrite Hapt in Ht.
  apply andb_true_iff in Ht. destruct Ht as [Hin Hnone].
  apply bool_decide_eq_true in Hin. apply bool_decide_eq_true in Hnone.
  split; [apply list_elem_of_In; exact Hin |].
  unfold travels. rewrite Hnone. reflexivity.
Qed.

Lemma travels_apt z :
  travels section z = true -> exists primary, aptOf section z = Some primary.
Proof.
  unfold travels. destruct (aptOf section z) as [p |]; [eauto | discriminate].
Qed.

Lemma placeMatched_primaries preferences :
  List.NoDup (placeMatched section preferences)
  /\ forall x, In x (placeMatched section preferences) ->
       In x (payloadTypes section) /\ travels section x = false.
Proof.
  unfold placeMatched.
  assert (Hgen : forall placed,
             List.NoDup placed ->
             (forall x, In x placed ->
                        In x (payloadTypes section) /\ travels section x = false) ->
             let result :=
               foldl
                 (fun placed preference =>
                    placed
                    ++ List.filter
                         (fun pt =>
                            negb (travels section pt) && matches section preference pt
                            && bool_decide (pt ∉ placed))
                         (payloadTypes section))
                 placed preferences in
             List.NoDup result
             /\ forall x, In x result ->
                  In x (payloadTypes section) /\ travels section x = false).
  { induction preferences as [| preference preferences IH]; intros placed Hnd Hin.
    - simpl. auto.
    - simpl. apply IH.
      + apply List.NoDup_app; [assumption | apply List.NoDup_filter, distinct |].
        intros x Hx Hf. apply filter_In in Hf. destruct Hf as [_ Hf].
        apply andb_true_iff in Hf. destruct Hf as [_ Hf].
        apply bool_decide_eq_true in Hf. apply Hf, list_elem_of_In, Hx.
      + intros x Hx. apply in_app_or in Hx. destruct Hx as [Hx | Hx]; [auto |].
        apply filter_In in Hx. destruct Hx as [HL Hf].
        rewrite !andb_true_iff, negb_true_iff in Hf. tauto. }
  apply Hgen; [constructor | intros x []].
Qed.

(** The placed primaries and the remaining ones are the primaries. *)
Lemma primaries_permutation preferences :
  let placed := placeMatched section preferences in
  Permutation (placed ++ remaining section placed)
    (List.filter (fun pt => negb (travels section pt)) (payloadTypes section)).
Proof.
  intros placed.
  destruct (placeMatched_primaries preferences) as [Hnd Hin]. fold placed in Hnd, Hin.
  apply Permutation.NoDup_Permutation.
  - apply List.NoDup_app; [assumption | apply List.NoDup_filter, distinct |].
    intros x Hx Hf. apply filter_In in Hf. destruct Hf as [_ Hf].
    apply andb_true_iff in Hf. destruct Hf as [_ Hf].
    apply bool_decide_eq_true in Hf. apply Hf, list_elem_of_In, Hx.
  - apply List.NoDup_filter, distinct.
  - intros x. rewrite in_app_iff. unfold remaining. rewrite !filter_In.
    rewrite andb_true_iff, negb_true_iff, bool_decide_eq_true.
    split.
    + intros [Hx | Hx]; [apply Hin, Hx | tauto].
    + intros [HL Ht]. destruct (decide (x ∈ placed)) as [Hp | Hp].
      * left. apply list_elem_of_In, Hp.
      * right. tauto.
Qed.

(** The groups of the primaries make up the section. *)
Lemma groups_permutation :
  Permutation
    (flat_map (group section)
       (List.filter (fun pt => negb (travels section pt)) (payloadTypes section)))
    (payloadTypes section).
Proof.
  apply Permutation.NoDup_Permutation; [| exact distinct |].
  - apply NoDup_flat_map.
    + apply List.NoDup_filter, distinct.
    + intros p Hp. apply filter_In in Hp. destruct Hp as [_ Hlead].
      apply negb_true_iff in Hlead. unfold group. constructor.
      * intros Hin. apply rtxOf_In in Hin. destruct Hin as (_ & Ht & _). congruence.
      * apply List.NoDup_filter, distinct.
    + intros p q z Hp Hq Hpq Hzp Hzq.
      apply filter_In in Hp. destruct Hp as [_ Hp]. apply negb_true_iff in Hp.
      apply filter_In in Hq. destruct Hq as [_ Hq]. apply negb_true_iff in Hq.
      unfold group in Hzp, Hzq. simpl in Hzp, Hzq.
      destruct Hzp as [<- | Hzp]; destruct Hzq as [<- | Hzq].
      * congruence.
      * apply rtxOf_In in Hzq. destruct Hzq as (_ & Ht & _). congruence.
      * apply rtxOf_In in Hzp. destruct Hzp as (_ & Ht & _). congruence.
      * apply rtxOf_In in Hzp. apply rtxOf_In in Hzq.
        destruct Hzp as (_ & _ & Hap). destruct Hzq as (_ & _ & Haq). congruence.
  - intros z. rewrite in_flat_map. split.
    + intros (p & Hp & Hz). apply filter_In in Hp. destruct Hp as [Hp _].
      unfold group in Hz. simpl in Hz. destruct Hz as [<- | Hz]; [exact Hp |].
      apply rtxOf_In in Hz. tauto.
    + intros Hz. destruct (travels section z) eqn:Ht.
      * destruct (travels_apt z Ht) as [p Hapt].
        destruct (travels_primary z p Ht Hapt) as [Hp Hlead].
        exists p. split.
        -- apply filter_In. rewrite Hlead. auto.
        -- unfold group. right. apply rtxOf_In. auto.
      * exists z. split.
        -- apply filter_In. rewrite Ht. auto.
        -- left. reflexivity.
Qed.

(** No payload type is dropped or repeated by the reordering. *)
Lemma reorder_permutation preferences :
  Permutation (reorder section preferences) (payloadTypes section).
Proof.
  unfold reorder.
  destruct (placeMatched section preferences) as [| p placed] eqn:E;
    [apply Permutation_refl |].
  rewrite <- E.
  eapply perm_trans; [| exact groups_permutation].
  apply Permutation_flat_map, primaries_permutation.
Qed.

End Kept.

Lemma sendsVideo_withOrder section order :
  sendsVideo (withOrder section order) = sendsVideo section.
Proof. reflexivity. Qed.

(** The operation puts [reorder] on the section that sends video. *)
Lemma videoSendOrder_reordered document preferences section :
  preferences <> [] ->
  List.find sendsVideo (sections document) = Some section ->
  videoSendOrder (withVideoSendCodecPreferences document preferences)
  = Some (reorder section preferences).
Proof.
  intros Hne Hfind. unfold withVideoSendCodecPreferences, videoSendOrder.
  destruct preferences as [| pref preferences]; [contradiction |].
  simpl sections. revert Hfind.
  induction (sections document) as [| s rest IH]; intros Hfind; [discriminate |].
  simpl in Hfind. simpl rewriteSending.
  destruct (sendsVideo s) eqn:E.
  - injection Hfind as ->. simpl. rewrite sendsVideo_withOrder, E. reflexivity.
  - simpl. rewrite E. apply IH, Hfind.
Qed.

(** A list of preferences that matches no primary of the sendrecv video
    section leaves the document as it is. *)
Lemma unmatched_preferences_noop document preferences section :
  List.find sendsVideo (sections document) = Some section ->
  placeMatched section preferences = [] ->
  withVideoSendCodecPreferences document preferences = document.
Proof.
  intros Hfind Hnone. unfold withVideoSendCodecPreferences.
  destruct preferences as [| preference preferences]; [reflexivity |].
  destruct document as [lines sects]. simpl in *. f_equal.
  revert Hfind. induction sects as [| s rest IH]; intros Hfind; [reflexivity |].
  simpl in Hfind. simpl rewriteSending.
  destruct (sendsVideo s) eqn:E.
  - injection Hfind as ->. unfold reorder. rewrite Hnone.
    destruct section; reflexivity.
  - f_equal. apply IH, Hfind.
Qed.

Example offer_apart_unmatched :
  let document := {| sessionLines := ["v=0"]; sections := [opus; apart] |} in
  withVideoSendCodecPreferences document [Codec.av1] = document.
Proof. apply (unmatched_preferences_noop _ _ apart); vm_compute; reflexivity. Qed.

(** The four payload types of the claim's section, classified. *)
Lemma travels_four section :
  payloadTypes section = [96; 97; 98; 99] ->
  aptOf section 96 = None -> aptOf section 98 = None ->
  aptOf section 99 = Some 98 -> aptOf section 97 <> Some 98 ->
  travels section 96 = false /\ travels section 98 = false
  /\ travels section 99 = true
  /\ (travels section 97 = true -> aptOf section 97 = Some 96).
Proof.
  intros Hpts H96 H98 H99 H97. unfold travels. rewrite Hpts, H96, H98, H99.
  split; [reflexivity |]. split; [reflexivity |]. split.
  - rewrite H98. apply andb_true_intro. split; apply bool_decide_eq_true_2;
      [rewrite list_elem_of_In; simpl; lia | reflexivity].
  - destruct (aptOf section 97) as [p |] eqn:E; [| discriminate].
    intros Ht. apply andb_true_iff in Ht. destruct Ht as [Hin Hnone].
    apply bool_decide_eq_true in Hin. apply bool_decide_eq_true in Hnone.
    apply list_elem_of_In in Hin. simpl in Hin.
    destruct Hin as [<- | [<- | [<- | [<- | []]]]]; congruence.
Qed.

(** C2, as the specification states it, fails on the operation that the
    specification describes: 98 being H.264 with 99 as its rtx does not bring
    98 to the front when 96 is H.264 as well.  Both match the preference, and
    step 2 places the matching payload types in the order they have: the
    order stays 96, 97, 98, 99 and does not start with 98, 99, 96, 97. *)
Lemma two_h264_keep_their_order :
  let document := {| sessionLines := ["v=0"]; sections := [opus; h264_twice] |} in
  let after :=
    withVideoSendCodecPreferences document [Codec.h264ConstrainedBaselineProfile] in
  videoSendOrder document = Some [96; 97; 98; 99]
  /\ (name <$> entryOf h264_twice 98) = Some "H264"
  /\ aptOf h264_twice 99 = Some 98
  /\ videoSendOrder after = Some [96; 97; 98; 99]
  /\ ~ exists rest, videoSendOrder after = Some ([98; 99; 96; 97] ++ rest).
Proof.
  cbv zeta.
  assert (Hafter :
            videoSendOrder
              (withVideoSendCodecPreferences
                 {| sessionLines := ["v=0"]; sections := [opus; h264_twice] |}
                 [Codec.h264ConstrainedBaselineProfile])
            = Some [96; 97; 98; 99]) by (vm_compute; reflexivity).
  repeat split; try (vm_compute; reflexivity); try exact Hafter.
  intros [rest Hrest]. rewrite Hafter in Hrest. discriminate Hrest.
Qed.

(** C2, amended.  On a document whose sendrecv video section lists 96, 97, 98,
    99, where the preference matches 98 and neither 96 nor 97, where 96 and 98
    are primaries (no [apt=]), 99 is the rtx of 98 ([apt=98]) and 97 is not,
    the operation with that one preference yields the order 98, 99, 96, 97.
    And whenever the operation reorders (a sendrecv video section without
    repeated payload types, and a preference that matches one of its
    primaries), a payload type whose fmtp names a primary of the section
    through [apt=], as that primary's only retransmission, stands immediately
    after this primary in the new order, which holds the payload types of the
    section, each once. *)
Theorem rtx_immediately_after_primary :
  (forall (document : SessionDescription) (preference : VideoCodecCapability)
          (section : MediaSection),
      List.find sendsVideo (sections document) = Some section ->
      payloadTypes section = [96; 97; 98; 99] ->
      matches section preference 98 = true -> aptOf section 98 = None ->
      aptOf section 99 = Some 98 ->
      matches section preference 96 = false -> aptOf section 96 = None ->
      matches section preference 97 = false -> aptOf section 97 <> Some 98 ->
      videoSendOrder (withVideoSendCodecPreferences document [preference])
      = Some [98; 99; 96; 97])
  /\ forall (document : SessionDescription) (preferences : list VideoCodecCapability)
        (section : MediaSection) (primary rtx : Z),
      List.find sendsVideo (sections document) = Some section ->
      NoDup (payloadTypes section) ->
      (exists preference matched,
          In preference preferences /\ In matched (payloadTypes section)
          /\ travels section matched = false
          /\ matches section preference matched = true) ->
      In rtx (payloadTypes section) -> In primary (payloadTypes section) ->
      aptOf section rtx = Some primary -> aptOf section primary = None ->
      (forall other,
          In other (payloadTypes section) -> aptOf section other = Some primary ->
          other = rtx) ->
      exists before after,
        videoSendOrder (withVideoSendCodecPreferences document preferences)
        = Some (before ++ primary :: rtx :: after)
        /\ Permutation (before ++ primary :: rtx :: after) (payloadTypes section).
Proof.
  split.
  - intros document preference section Hfind Hpts M98 A98 A99 M96 A96 M97 A97.
    rewrite (videoSendOrder_reordered document [preference] section)
      by (try discriminate; exact Hfind).
    destruct (travels_four section Hpts A96 A98 A99 A97) as (T96 & T98 & T99 & T97).
    assert (Hplaced : placeMatched section [preference] = [98]).
    { unfold placeMatched. cbn [foldl]. rewrite Hpts. cbn [List.filter app].
      rewrite T96, T98, T99, M96, M97, M98. cbn [negb andb].
      rewrite andb_false_r. cbn [app].
      rewrite bool_decide_eq_true_2 by (rewrite list_elem_of_In; simpl; tauto).
      reflexivity. }
    assert (R98 : rtxOf section 98 = [99]).
    { unfold rtxOf. rewrite Hpts. cbn [List.filter]. rewrite T96, T98, T99, A99.
      cbn [andb]. rewrite (bool_decide_eq_true_2 (Some 98 = Some 98)) by reflexivity.
      rewrite (bool_decide_eq_false_2 (aptOf section 97 = Some 98)) by exact A97.
      rewrite andb_false_r. reflexivity. }
    assert (R96 : rtxOf section 96 = if travels section 97 then [97] else []).
    { unfold rtxOf. rewrite Hpts. cbn [List.filter]. rewrite T96, T98, T99, A99.
      cbn [andb]. rewrite (bool_decide_eq_false_2 (Some 98 = Some 96)) by discriminate.
      destruct (travels section 97) eqn:E97; [| reflexivity].
      rewrite (T97 eq_refl). cbn [andb].
      rewrite (bool_decide_eq_true_2 (Some 96 = Some 96)) by reflexivity.
      reflexivity. }
    assert (R97 : travels section 97 = false -> rtxOf section 97 = []).
    { intros E97. unfold rtxOf. rewrite Hpts. cbn [List.filter].
      rewrite T96, T98, T99, A99, E97. cbn [andb].
      rewrite (bool_decide_eq_false_2 (Some 98 = Some 97)) by discriminate.
      reflexivity. }
    unfold reorder. rewrite Hplaced. unfold remaining, group.
    rewrite Hpts. cbn [List.filter app flat_map]. rewrite R98, T96, T98, T99.
    cbn [negb andb app].
    rewrite (bool_decide_eq_true_2 (96 ∉ [98])) by (rewrite list_elem_of_In; simpl; lia).
    rewrite (bool_decide_eq_true_2 (97 ∉ [98])) by (rewrite list_elem_of_In; simpl; lia).
    rewrite (bool_decide_eq_false_2 (98 ∉ [98]))
      by (intros H; apply H; rewrite list_elem_of_In; simpl; lia).
    destruct (travels section 97) eqn:E97; cbn [negb andb app flat_map].
    + rewrite R96. reflexivity.
    + rewrite R96, (R97 eq_refl). reflexivity.
  - intros document preferences section primary rtx Hfind Hnd Hmatch Hr Hp Hapt Hprim Honly.
    assert (Hne : preferences <> []).
    { destruct Hmatch as (preference & _ & Hin & _). intros ->. destruct Hin. }
    assert (Hplaced : placeMatched section preferences <> []).
    { destruct Hmatch as (preference & matched & Hin & Hm & Ht & Hmt).
      intros Hnone.
      assert (H := placeMatched_matched section preferences preference matched
                     Hin Hm Ht Hmt).
      rewrite Hnone in H. destruct H. }
    rewrite (videoSendOrder_reordered document preferences section Hne Hfind).
    assert (Hperm := reorder_permutation section (proj1 (NoDup_ListNoDup _) Hnd) preferences).
    destruct (reorder_adjacent section preferences primary rtx) as (b & a & Heq);
      try assumption.
    exists b, a. rewrite <- Heq. split; [reflexivity | exact Hperm].
Qed.

(** C2 at the offer with VP8 (96, rtx 97) and H.264 (98, rtx 99) under the
    preference for H.264: the order becomes 98, 99, 96, 97, and VP8 and its
    rtx follow next to each other. *)
Lemma rtx_immediately_after_primary_witness :
  videoSendOrder (withVideoSendCodecPreferences offer [Codec.h264ConstrainedBaselineProfile])
  = Some [98; 99; 96; 97]
  /\ exists before after,
      videoSendOrder
        (withVideoSendCodecPreferences offer [Codec.h264ConstrainedBaselineProfile])
      = Some (before ++ 96 :: 97 :: after)
      /\ Permutation (before ++ 96 :: 97 :: after) [96; 97; 98; 99].
Proof.
  split.
  - apply (proj1 rtx_immediately_after_primary offer
             Codec.h264ConstrainedBaselineProfile vp8_h264);
      first [ reflexivity | vm_compute; discriminate ].
  - apply (proj2 rtx_immediately_after_primary offer
             [Codec.h264ConstrainedBaselineProfile] vp8_h264 96 97).
    + reflexivity.
    + simpl. apply (bool_decide_unpack _). vm_compute. exact I.
    + exists Codec.h264ConstrainedBaselineProfile, 98.
      repeat split; simpl; tauto.
    + simpl. tauto.
    + simpl. tauto.
    + reflexivity.
    + reflexivity.
    + intros other Hin Hapt. simpl in Hin.
      destruct Hin as [<- | [<- | [<- | [<- | []]]]];
        first [ reflexivity | vm_compute in Hapt; discriminate Hapt ].
Defined.

End SDPFacts.

(** ** The set-local-description task *)

Module TaskFacts.

Import Task Vocabulary Scenario.

Section Cancellation.

Variable requiresDisablingH264Encoding : bool.
Variable removeH264SupportFromSendSection : string -> string.
Variable withVideoSendCodecPreferences : string -> list VideoCodecCapability -> string.
Variable withAudioMaxAverageBitrate : string -> Z -> string.
Variable withStereoAudio : string -> string.

Abbreviation run :=
  (Task.run requiresDisablingH264Encoding removeH264SupportFromSendSection
     withVideoSendCodecPreferences withAudioMaxAverageBitrate withStereoAudio).
Abbreviation step :=
  (Task.step requiresDisablingH264Encoding removeH264SupportFromSendSection
     withVideoSendCodecPreferences withAudioMaxAverageBitrate withStereoAudio).
Abbreviation exec :=
  (Task.exec requiresDisablingH264Encoding removeH264SupportFromSendSection
     withVideoSendCodecPreferences withAudioMaxAverageBitrate withStereoAudio).

Lemma run_fields thrown this :
  name (run thrown this) = name this
  /\ offers (run thrown this)
     = offers this
       ++ [snd (prepare requiresDisablingH264Encoding removeH264SupportFromSendSection
                  withVideoSendCodecPreferences withAudioMaxAverageBitrate
                  withStereoAudio (context this))]
  /\ promises (run thrown this)
     = promises this ++ [match thrown with None => Pending | Some e => Rejected e end]
  /\ cancelPromise (run thrown this)
     = match thrown with None => Some (length (promises this)) | Some _ => None end.
Proof.
  unfold Task.run. destruct (prepare _ _ _ _ _ _) as [c o].
  destruct thrown; simpl; auto.
Qed.

Lemma settlePromise_settled r r' v outcome ps :
  ps !! r = Some v -> v <> Pending ->
  settlePromise r' outcome ps !! r = Some v.
Proof.
  intros Hv Hne. unfold settlePromise.
  destruct (decide (r' = r)) as [-> | Hr].
  - rewrite list_lookup_alter_eq, Hv. simpl. destruct v; [contradiction | reflexivity ..].
  - rewrite list_lookup_alter_ne by assumption. exact Hv.
Qed.

(** A settled promise stays as it is, whatever happens. *)
Lemma step_settled e this r v :
  promises this !! r = Some v -> v <> Pending ->
  promises (step this e) !! r = Some v.
Proof.
  intros Hv Hne. destruct e as [thrown | | r' | r' error]; simpl.
  - destruct (run_fields thrown this) as (_ & _ & -> & _).
    apply lookup_app_l_Some, Hv.
  - unfold cancel. destruct (cancelPromise this); [| exact Hv].
    simpl. apply settlePromise_settled; assumption.
  - unfold resume. destruct (endpoint this !! r') as [[|] |]; try exact Hv.
    simpl. apply settlePromise_settled; assumption.
  - unfold resume. destruct (endpoint this !! r') as [[|] |]; try exact Hv.
    simpl. apply settlePromise_settled; assumption.
Qed.

Lemma exec_settled trace this r v :
  promises this !! r = Some v -> v <> Pending ->
  promises (exec this trace) !! r = Some v.
Proof.
  revert this. induction trace as [| e trace IH]; intros this Hv Hne; [exact Hv |].
  simpl. apply IH; [apply step_settled |]; assumption.
Qed.

Lemma step_name e this : name (step this e) = name this.
Proof.
  destruct e as [thrown | | r | r error]; simpl.
  - apply run_fields.
  - unfold cancel. destruct (cancelPromise this); reflexivity.
  - unfold resume. destruct (endpoint this !! r) as [[|] |]; reflexivity.
  - unfold resume. destruct (endpoint this !! r) as [[|] |]; reflexivity.
Qed.

(** Only [run()] calls the endpoint, and each run calls it once. *)
Lemma step_offers e this :
  length (offers (step this e))
  = (length (offers this) + (if isRun e then 1 else 0))%nat.
Proof.
  destruct e as [thrown | | r | r error]; simpl.
  - destruct (run_fields thrown this) as (_ & -> & _).
    rewrite length_app. reflexivity.
  - unfold cancel. destruct (cancelPromise this); simpl; lia.
  - unfold resume. destruct (endpoint this !! r) as [[|] |]; simpl; lia.
  - unfold resume. destruct (endpoint this !! r) as [[|] |]; simpl; lia.
Qed.

Lemma exec_offers trace this :
  length (offers (exec this trace)) = (length (offers this) + runs trace)%nat.
Proof.
  revert this. induction trace as [| e trace IH]; intros this.
  - unfold runs. simpl. lia.
  - simpl. rewrite IH, step_offers. unfold runs. simpl.
    destruct (isRun e); simpl; lia.
Qed.

(** After the first [run()] of a fresh task. *)
Lemma first_run context label :
  let suspended := run None (new context label) in
  promises suspended = [Pending] /\ cancelPromise suspended = Some 0%nat
  /\ endpoint suspended = [InFlight] /\ length (offers suspended) = 1%nat
  /\ name suspended = label /\ info suspended = [].
Proof.
  cbv zeta. unfold Task.run. simpl.
  destruct (prepare _ _ _ _ _ _) as [c o]. simpl. repeat split; reflexivity.
Qed.

(** [cancel()] on a task whose closure is gone does nothing. *)
Lemma cancel_idle this : cancelPromise this = None -> cancel this = this.
Proof. intros H. unfold cancel. rewrite H. reflexivity. Qed.

Lemma exec_cancels_idle cancels this :
  cancelPromise this = None ->
  forallb isCancel cancels = true ->
  exec this cancels = this.
Proof.
  intros Hnone. induction cancels as [| e cancels IH]; intros Hall; [reflexivity |].
  simpl in Hall. apply andb_true_iff in Hall. destruct Hall as [He Hall].
  destruct e; try discriminate. simpl. rewrite cancel_idle by assumption.
  apply IH, Hall.
Qed.

(** C3.  From a fresh task: when [cancel()] is called after [run()] was
    suspended and before the endpoint answered, the run fails with the error
    "canceling <name>", whatever the endpoint answers later, and does not
    complete; a trace calls the endpoint exactly once for each [run()] in it;
    and once the endpoint call resolved, the run has completed and stays so,
    and calls of [cancel()] change nothing at all.  (A rejection by the
    endpoint, without [cancel()], fails the run with the endpoint's own
    error.) *)
Theorem cancel_before_commit_rejects_and_after_is_idle
  (context : AudioVideoControllerState) (label : string) :
  (forall rest,
      outcome 0 (exec (new context label) (Run None :: Cancel :: rest))
      = Rejected (JsError ("canceling " +:+ label)))
  /\ (forall trace,
        length (offers (exec (new context label) trace)) = runs trace)
  /\ (forall rest,
        outcome 0 (exec (new context label) (Run None :: EndpointResolves 0 :: rest))
        = Fulfilled)
  /\ (forall cancels,
        forallb isCancel cancels = true ->
        exec (new context label) (Run None :: EndpointResolves 0 :: cancels)
        = exec (new context label) [Run None; EndpointResolves 0]
        /\ info (exec (new context label) (Run None :: EndpointResolves 0 :: cancels))
           = ["set local description"])
  /\ (forall error rest,
        outcome 0
          (exec (new context label) (Run None :: EndpointRejects 0 error :: rest))
        = Rejected error).
Proof.
  destruct (first_run context label) as (Hp & Hc & He & Ho & Hn & Hi).
  split; [| split; [| split; [| split]]].
  - intros rest. unfold outcome. simpl.
    erewrite exec_settled; [reflexivity | | discriminate].
    unfold cancel. rewrite Hc. simpl. rewrite Hp, Hn. reflexivity.
  - intros trace. rewrite exec_offers. reflexivity.
  - intros rest. unfold outcome. simpl.
    erewrite exec_settled; [reflexivity | | discriminate].
    unfold resume. rewrite He. simpl. rewrite Hp. reflexivity.
  - intros cancels Hall. simpl.
    rewrite exec_cancels_idle; [| | assumption].
    + split; [reflexivity |].
      unfold resume. rewrite He. simpl. rewrite Hi, Hp. reflexivity.
    + unfold resume. rewrite He. reflexivity.
  - intros error rest. unfold outcome. simpl.
    erewrite exec_settled; [reflexivity | | discriminate].
    unfold resume. rewrite He. simpl. rewrite Hp. reflexivity.
Qed.

End Cancellation.

(** C3 on [someContext]: cancelled before the endpoint resolves, the run fails
    with the cancellation error although the endpoint resolves afterwards; with
    the order reversed it completes. *)
Lemma cancel_before_commit_rejects_and_after_is_idle_witness :
  outcome 0
    (plainExec (new someContext "SetLocalDescriptionTask")
       [Run None; Cancel; EndpointResolves 0])
  = Rejected (JsError "canceling SetLocalDescriptionTask")
  /\ outcome 0
       (plainExec (new someContext "SetLocalDescriptionTask")
          [Run None; EndpointResolves 0; Cancel])
     = Fulfilled.
Proof.
  destruct (cancel_before_commit_rejects_and_after_is_idle
              false (fun s => s) (fun s _ => s) (fun s _ => s) (fun s => s)
              someContext "SetLocalDescriptionTask") as (Hcancel & _ & Hdone & _).
  split; [apply (Hcancel [EndpointResolves 0]) | apply (Hdone [Cancel])].
Defined.

End TaskFacts.

(** * Further properties of the policy *)

Module PolicyMore.

Import Policy Vocabulary Scenario More PolicyFacts.

(** ** Bandwidth: bounds and monotonicity *)

Lemma Qc_inv_antitone (x y : Qc) : (0 < x)%Qc -> (x <= y)%Qc -> (/ y <= / x)%Qc.
Proof.
  unfold Qclt, Qcle. simpl. rewrite !Qred_correct. intros Hx Hxy.
  assert (Hy : (0 < y)%Q) by (eapply Qlt_le_trans; eassumption).
  apply Qle_shift_inv_l; [exact Hx |].
  rewrite Qmult_comm. change (this x * / this y)%Q with (this x / this y)%Q.
  apply Qle_shift_div_r; [exact Hy |]. rewrite Qmult_1_l. exact Hxy.
Qed.

Lemma num_one : num 1 = 1%Qc.
Proof. qc_eq. Qed.

Lemma num_le a b : a <= b -> (num a <= num b)%Qc.
Proof. intros H. unfold Qcle, Qle. simpl. lia. Qed.

Lemma num_pos a : 0 < a -> (0 < num a)%Qc.
Proof. intros H. unfold Qclt, Qlt. simpl. lia. Qed.

Lemma num_neq_0 a : 0 < a -> num a <> 0%Qc.
Proof. intros H. apply not_eq_sym, Qclt_not_eq, num_pos, H. Qed.

Lemma fl_one : fl (num 1) = num 1.
Proof. apply fl_num. reflexivity. Qed.

(** The operations of the code keep the order of their operands. *)
Lemma add_mono_r (a b c : Qc) : (b <= c)%Qc -> ((a + b)%js <= (a + c)%js)%Qc.
Proof. intros H. apply fl_mono, Qcplus_le_mono_l, H. Qed.

Lemma mul_mono_r (a b c : Qc) :
  (0 <= a)%Qc -> (b <= c)%Qc -> ((a * b)%js <= (a * c)%js)%Qc.
Proof. intros Ha H. apply fl_mono, Qcmult_le_mono_nonneg_l; assumption. Qed.

Lemma mul_mono_l (a b c : Qc) :
  (0 <= c)%Qc -> (a <= b)%Qc -> ((a * c)%js <= (b * c)%js)%Qc.
Proof. intros Hc H. apply fl_mono, Qcmult_le_mono_nonneg_r; assumption. Qed.

Lemma div_mono_l (a b c : Qc) :
  (0 <= c)%Qc -> (a <= b)%Qc -> ((a / c)%js <= (b / c)%js)%Qc.
Proof.
  intros Hc H. apply fl_mono. unfold Qcdiv.
  apply Qcmult_le_mono_nonneg_r; [apply Qc_nonneg_inv, Hc | exact H].
Qed.

Lemma div_antitone_r (a b c : Qc) :
  (0 <= a)%Qc -> (0 < b)%Qc -> (b <= c)%Qc -> ((a / c)%js <= (a / b)%js)%Qc.
Proof.
  intros Ha Hb H. apply fl_mono. unfold Qcdiv.
  apply Qcmult_le_mono_nonneg_l; [exact Ha | apply Qc_inv_antitone; assumption].
Qed.

Lemma coefficient_nonneg n : 0 <= n -> (0 <= coefficient n)%Qc.
Proof.
  intros Hn. unfold coefficient.
  apply div_nonneg; [| apply num_nonneg; lia].
  apply add_nonneg; apply div_nonneg; try (apply num_nonneg; lia).
  apply mul_nonneg; apply num_nonneg; lia.
Qed.

(** Beyond four participants the factor shrinks as the count grows. *)
Lemma coefficient_antitone n m :
  1 <= n -> n <= m -> (coefficient m <= coefficient n)%Qc.
Proof.
  intros Hn Hnm. unfold coefficient.
  apply div_mono_l; [apply num_nonneg; lia |].
  apply add_mono_r.
  apply div_antitone_r; [apply num_nonneg; lia | |].
  - apply Qclt_le_trans with (y := fl (num 1));
      [replace (fl (num 1)) with (num 1) by (symmetry; apply fl_one); apply num_pos; lia |].
    apply fl_mono.
    apply Qcle_trans with (y := (num 11 * num 1)%Qc); [vm_compute; discriminate |].
    apply Qcmult_le_mono_nonneg_l; [apply num_nonneg; lia | apply num_le; lia].
  - apply mul_mono_r; [apply num_nonneg; lia | apply num_le; lia].
Qed.

(** At five participants the factor is the double nearest to 8/15. *)
Lemma coefficient_five : (coefficient 5 <= num 8 / num 15)%Qc.
Proof. vm_compute. discriminate. Qed.

Lemma coefficient_le n : 5 <= n -> (coefficient n <= num 8 / num 15)%Qc.
Proof.
  intros Hn. apply Qcle_trans with (y := coefficient 5); [| apply coefficient_five].
  apply coefficient_antitone; lia.
Qed.

(** The rate without bandwidth priority, by the number of participants. *)
Lemma rate_low this :
  hasBandwidthPriority this = false -> numParticipants this <= 2 ->
  Claimed.rate this = idealMaxBandwidthKbps this.
Proof.
  intros Hp Hn. unfold Claimed.rate. rewrite Hp.
  rewrite bool_decide_eq_true_2 by assumption. reflexivity.
Qed.

Lemma rate_mid this :
  hasBandwidthPriority this = false -> 2 < numParticipants this <= 4 ->
  Claimed.rate this = (idealMaxBandwidthKbps this * num 2 / num 3)%js.
Proof.
  intros Hp Hn. unfold Claimed.rate. rewrite Hp.
  rewrite bool_decide_eq_false_2 by lia. rewrite bool_decide_eq_true_2 by lia.
  reflexivity.
Qed.

Lemma rate_high this :
  hasBandwidthPriority this = false -> 4 < numParticipants this ->
  Claimed.rate this
  = (coefficient (numParticipants this) * idealMaxBandwidthKbps this)%js.
Proof.
  intros Hp Hn. unfold Claimed.rate. rewrite Hp.
  rewrite bool_decide_eq_false_2 by lia. rewrite bool_decide_eq_false_2 by lia.
  reflexivity.
Qed.

(** Two thirds of a double that is not negative: the doubling is exact. *)
Lemma two_thirds (ideal : Qc) :
  (0 <= ideal)%Qc -> isDouble ideal ->
  (ideal * num 2 / num 3)%js = fl (ideal * num 2 / num 3)%Qc.
Proof.
  intros H0 Hd. unfold div, mul. rewrite (fl_twice ideal H0 Hd). reflexivity.
Qed.

Lemma Qc_scale_le (c d x : Qc) : (0 <= x)%Qc -> (c <= d)%Qc -> (c * x <= d * x)%Qc.
Proof. intros Hx Hcd. apply Qcmult_le_mono_nonneg_r; assumption. Qed.

Lemma two_thirds_exact (ideal : Qc) : (ideal * num 2 / num 3)%Qc = (num 2 / num 3 * ideal)%Qc.
Proof. unfold Qcdiv. ring. Qed.

(** With the same ideal bandwidth, a double that is not negative, more
    participants get a rate that is not higher. *)
Lemma rate_antitone (few many : NScaleVideoUplinkBandwidthPolicy) :
  hasBandwidthPriority few = false -> hasBandwidthPriority many = false ->
  idealMaxBandwidthKbps few = idealMaxBandwidthKbps many ->
  (0 <= idealMaxBandwidthKbps few)%Qc -> isDouble (idealMaxBandwidthKbps few) ->
  numParticipants few <= numParticipants many ->
  (Claimed.rate many <= Claimed.rate few)%Qc.
Proof.
  intros Hpf Hpm HI H0 Hd Hn.
  set (ideal := idealMaxBandwidthKbps few) in *.
  assert (Hone : (ideal = 1 * ideal)%Qc) by ring.
  assert (Hfl : forall x, (x <= ideal)%Qc -> (fl x <= ideal)%Qc).
  { intros x Hx. unfold isDouble in Hd. rewrite <- Hd. apply fl_mono, Hx. }
  destruct (decide (numParticipants few <= 2)) as [Hf2 | Hf2].
  - rewrite (rate_low few) by assumption. fold ideal.
    destruct (decide (numParticipants many <= 2)) as [Hm2 | Hm2];
      [rewrite (rate_low many), <- HI by assumption; apply Qcle_refl |].
    destruct (decide (numParticipants many <= 4)) as [Hm4 | Hm4].
    + rewrite (rate_mid many), <- HI by (try assumption; lia). fold ideal.
      rewrite two_thirds by assumption. apply Hfl.
      rewrite two_thirds_exact. rewrite Hone at 2.
      apply Qc_scale_le; [exact H0 | vm_compute; discriminate].
    + rewrite (rate_high many), <- HI by (try assumption; lia). fold ideal.
      unfold mul. apply Hfl. rewrite Hone at 2. apply Qc_scale_le; [exact H0 |].
      apply Qcle_trans with (y := (num 8 / num 15)%Qc);
        [apply coefficient_le; lia | vm_compute; discriminate].
  - destruct (decide (numParticipants few <= 4)) as [Hf4 | Hf4].
    + rewrite (rate_mid few) by (try assumption; lia). fold ideal.
      destruct (decide (numParticipants many <= 4)) as [Hm4 | Hm4];
        [rewrite (rate_mid many), <- HI by (try assumption; lia); apply Qcle_refl |].
      rewrite (rate_high many), <- HI by (try assumption; lia). fold ideal.
      rewrite two_thirds by assumption. apply fl_mono.
      rewrite two_thirds_exact. apply Qc_scale_le; [exact H0 |].
      apply Qcle_trans with (y := (num 8 / num 15)%Qc);
        [apply coefficient_le; lia | vm_compute; discriminate].
    + rewrite (rate_high few), (rate_high many), <- HI by (try assumption; lia).
      fold ideal. apply mul_mono_l; [exact H0 |].
      apply coefficient_antitone; lia.
Qed.

Lemma Math_trunc_mono_nonneg a b :
  (0 <= a)%Qc -> (a <= b)%Qc -> Math_trunc a <= Math_trunc b.
Proof.
  intros Ha Hab.
  rewrite !Math_trunc_floor by (try assumption; eapply Qcle_trans; eassumption).
  apply Qfloor_resp_le. exact Hab.
Qed.

(** X1.  With the same ideal bandwidth and the same priority flag, a policy
    with more participants never hands out more bandwidth than one with fewer;
    this for an ideal bandwidth that is not negative, and a double whose
    double is in the range of the finite doubles. *)
Theorem maxBandwidthKbps_antitone (few many : NScaleVideoUplinkBandwidthPolicy) :
  hasBandwidthPriority few = hasBandwidthPriority many ->
  idealMaxBandwidthKbps few = idealMaxBandwidthKbps many ->
  (0 <= idealMaxBandwidthKbps few)%Qc ->
  isDouble (idealMaxBandwidthKbps few) ->
  inRange (idealMaxBandwidthKbps few * num 2)%Qc ->
  numParticipants few <= numParticipants many ->
  maxBandwidthKbps many <= maxBandwidthKbps few.
Proof.
  intros Hp HI H0 Hd _ Hn. rewrite !maxBandwidthKbps_trunc.
  destruct (hasBandwidthPriority many) eqn:Hmany.
  - unfold Claimed.rate. rewrite Hp, Hmany, HI. lia.
  - apply Math_trunc_mono_nonneg.
    + apply rate_nonneg. rewrite <- HI. exact H0.
    + apply rate_antitone; try assumption; congruence.
Qed.

(** X1 at the default: ten participants get 431 kbps, four get 933. *)
Lemma maxBandwidthKbps_antitone_witness :
  maxBandwidthKbps (among 9) <= maxBandwidthKbps (among 3).
Proof.
  apply maxBandwidthKbps_antitone.
  - reflexivity.
  - reflexivity.
  - vm_compute. discriminate.
  - unfold isDouble. qc_eq.
  - split; vm_compute; discriminate.
  - vm_compute. discriminate.
Defined.

(** X2.  When the ideal bandwidth is not negative (and a double whose double
    is in the range of the finite doubles), the bandwidth handed out is never
    negative and never above the ideal bandwidth rounded toward zero, whatever
    the number of participants and the priority flag. *)
Theorem maxBandwidthKbps_bounds (this : NScaleVideoUplinkBandwidthPolicy) :
  (0 <= idealMaxBandwidthKbps this)%Qc ->
  isDouble (idealMaxBandwidthKbps this) ->
  inRange (idealMaxBandwidthKbps this * num 2)%Qc ->
  0 <= maxBandwidthKbps this <= Math_trunc (idealMaxBandwidthKbps this).
Proof.
  intros H0 Hd _. rewrite maxBandwidthKbps_trunc.
  assert (Hrate : (0 <= Claimed.rate this)%Qc) by (apply rate_nonneg, H0).
  split.
  - rewrite Math_trunc_floor by assumption.
    change 0 with (floor (num 0)). apply Qfloor_resp_le. exact Hrate.
  - apply Math_trunc_mono_nonneg; [exact Hrate |].
    destruct (hasBandwidthPriority this) eqn:Hp.
    + unfold Claimed.rate. rewrite Hp. apply Qcle_refl.
    + assert (Hz : Claimed.rate (set_numParticipants 0 this) = idealMaxBandwidthKbps this)
        by (apply (rate_low (set_numParticipants 0 this)); [exact Hp | simpl; lia]).
      destruct (decide (0 <= numParticipants this)) as [Hn | Hn].
      * rewrite <- Hz. apply rate_antitone; try assumption; reflexivity.
      * rewrite rate_low by (try assumption; lia). apply Qcle_refl.
Qed.

Lemma maxBandwidthKbps_bounds_witness :
  0 <= maxBandwidthKbps (among 9) <= 1400.
Proof.
  apply (maxBandwidthKbps_bounds (among 9)).
  - vm_compute. discriminate.
  - unfold isDouble. qc_eq.
  - split; vm_compute; discriminate.
Defined.

(** ** Resolution: the scale fits the target and grows with the count *)

Lemma Math_min_l a b : (a <= b)%Qc -> Math_min a b = a.
Proof.
  intros H. unfold Math_min. destruct (a ?= b)%Qc eqn:E; try reflexivity.
  apply Qcgt_alt in E. exfalso. eapply Qcle_not_lt; eauto.
Qed.

Lemma Math_min_r a b : (b <= a)%Qc -> Math_min a b = b.
Proof.
  intros H. unfold Math_min. destruct (a ?= b)%Qc eqn:E; try reflexivity.
  - apply Qceq_alt in E. congruence.
  - apply Qclt_alt in E. exfalso. eapply Qcle_not_lt; eauto.
Qed.

Lemma Math_max_mono a b c : (a <= b)%Qc -> (Math_max a c <= Math_max b c)%Qc.
Proof.
  intros Hab.
  destruct (Qclt_le_dec a c) as [Hac | Hca].
  - rewrite (Math_max_r a c) by (apply Qclt_le_weak, Hac). apply Math_max_ge_r.
  - rewrite (Math_max_l a c) by assumption.
    rewrite (Math_max_l b c) by (eapply Qcle_trans; eassumption). exact Hab.
Qed.

Lemma Qc_div_le_one a b : (0 < b)%Qc -> (a <= b)%Qc -> (a / b <= 1)%Qc.
Proof.
  intros Hb Hab. unfold Qcdiv.
  rewrite <- (Qcmult_inv_r b) by (apply not_eq_sym, Qclt_not_eq, Hb).
  apply Qcmult_le_mono_nonneg_r; [apply Qc_nonneg_inv, Qclt_le_weak, Hb | exact Hab].
Qed.

Lemma Qc_one_le_div a b : (0 < b)%Qc -> (b <= a)%Qc -> (1 <= a / b)%Qc.
Proof.
  intros Hb Hab. unfold Qcdiv.
  rewrite <- (Qcmult_inv_r b) by (apply not_eq_sym, Qclt_not_eq, Hb).
  apply Qcmult_le_mono_nonneg_r; [apply Qc_nonneg_inv, Qclt_le_weak, Hb | exact Hab].
Qed.

(** A quotient that is at most 1, or at least 1, stays so when rounded. *)
Lemma div_le_one a b : (0 < b)%Qc -> (a <= b)%Qc -> ((a / b)%js <= num 1)%Qc.
Proof.
  intros Hb Hab. rewrite <- fl_one. apply fl_mono. rewrite num_one.
  apply Qc_div_le_one; assumption.
Qed.

Lemma one_le_div a b : (0 < b)%Qc -> (b <= a)%Qc -> (num 1 <= (a / b)%js)%Qc.
Proof.
  intros Hb Hab. rewrite <- fl_one at 1. apply fl_mono. rewrite num_one.
  apply Qc_one_le_div; assumption.
Qed.

(** The scale computed while the scale-down is active. *)
Lemma active_scale this setting h w :
  numParticipants this > 2 -> hasBandwidthPriority this = false ->
  scaleResolution this = true ->
  height setting = Some h -> width setting = Some w ->
  scaleResolutionDownBy (calculateEncodingParameters this setting)
  = Some (Math_max (Math_min h w / num (targetHeight this))%js (num 1)).
Proof.
  intros Hn Hp Hs Hh Hw. unfold calculateEncodingParameters. simpl.
  rewrite (proj2 (scalesDown_true this setting)).
  - rewrite Hh, Hw. reflexivity.
  - rewrite Hh, Hw. repeat split; eauto.
Qed.

Lemma idle_scale this setting :
  scalesDown this setting = false ->
  scaleResolutionDownBy (calculateEncodingParameters this setting) = Some (num 1).
Proof. intros H. unfold calculateEncodingParameters. simpl. rewrite H. reflexivity. Qed.

Lemma scale_floor this setting :
  exists scale,
    scaleResolutionDownBy (calculateEncodingParameters this setting) = Some scale
    /\ (num 1 <= scale)%Qc.
Proof.
  unfold calculateEncodingParameters. simpl. eexists. split; [reflexivity |].
  destruct (scalesDown this setting); [apply Math_max_ge_r | apply Qcle_refl].
Qed.

(** X3.  The scale never enlarges the picture: it is at least 1 in every case.
    While the scale-down is active (more than two participants, no priority,
    scaling enabled, both dimensions known), a capture whose shorter side is
    at or below the target height is left alone (scale 1); for one at or above
    it the scale is the quotient of the shorter side by the target height as
    the doubles round it, and the scale times the target height differs from
    the shorter side by no more than the 2^53rd part of that side: the shorter
    side is brought down to the target height up to the rounding of one
    division. *)
Theorem scale_brings_shorter_side_to_target
  (this : NScaleVideoUplinkBandwidthPolicy) (setting : MediaTrackSettings) :
  (exists scale,
      scaleResolutionDownBy (calculateEncodingParameters this setting) = Some scale
      /\ (num 1 <= scale)%Qc)
  /\ forall h w,
      numParticipants this > 2 -> hasBandwidthPriority this = false ->
      scaleResolution this = true ->
      height setting = Some h -> width setting = Some w ->
      exists scale,
        scaleResolutionDownBy (calculateEncodingParameters this setting) = Some scale
        /\ ((Math_min h w <= num (targetHeight this))%Qc -> scale = num 1)
        /\ ((num (targetHeight this) <= Math_min h w)%Qc ->
            scale = (Math_min h w / num (targetHeight this))%js
            /\ (Math_min h w - Math_min h w / num (2 ^ 53)
                <= scale * num (targetHeight this))%Qc
            /\ (scale * num (targetHeight this)
                <= Math_min h w + Math_min h w / num (2 ^ 53))%Qc).
Proof.
  split.
  - apply scale_floor.
  - intros h w Hn Hp Hs Hh Hw.
    rewrite (active_scale this setting h w) by assumption.
    eexists. split; [reflexivity |].
    destruct (targetHeight_lookup this Hn) as [_ [Hlow _]].
    assert (Ht : (0 < num (targetHeight this))%Qc) by (apply num_pos; lia).
    set (t := num (targetHeight this)) in *. set (s := Math_min h w).
    split.
    + intros Hst. apply Math_max_r, div_le_one; assumption.
    + intros Hts.
      rewrite Math_max_l by (apply one_le_div; assumption).
      split; [reflexivity |]. apply div_close; assumption.
Qed.

(** X3 for six participants and a 1280x720 capture: target 480, scale 3/2,
    and 3/2 * 480 = 720. *)
Lemma scale_brings_shorter_side_to_target_witness :
  exists scale,
    scaleResolutionDownBy (calculateEncodingParameters (among 5) hd720) = Some scale
    /\ scale = (num 3 / num 2)%Qc.
Proof.
  destruct (proj2 (scale_brings_shorter_side_to_target (among 5) hd720)
              (num 720) (num 1280)) as (scale & Hscale & _ & Hfit);
    try reflexivity.
  exists scale. split; [exact Hscale |].
  destruct Hfit as (-> & _); [vm_compute; discriminate | qc_eq].
Defined.

(** The table never rises from one count to the next. *)
Lemma targetHeight_antitone (few many : NScaleVideoUplinkBandwidthPolicy) :
  numParticipants few > 2 -> numParticipants few <= numParticipants many ->
  targetHeight many <= targetHeight few.
Proof.
  intros Hn Hle. unfold targetHeight. rewrite targetHeightArray_length.
  change (Z.of_nat 26 - 1) with 25.
  set (i := Z.to_nat (Z.min (numParticipants few) 25)).
  set (j := Z.to_nat (Z.min (numParticipants many) 25)).
  assert (Hij : (3 <= i <= j)%nat /\ (j < 26)%nat) by (unfold i, j; lia).
  clearbody i j. destruct Hij as [[Hi Hij] Hj].
  do 26 (destruct i as [| i];
         [do 26 (destruct j as [| j]; [simpl; lia |]); lia |]).
  lia.
Qed.

(** X4.  For the same capture and the same flags, a policy with more
    participants never scales less than one with fewer. *)
Theorem scale_monotone_in_participants
  (few many : NScaleVideoUplinkBandwidthPolicy) (setting : MediaTrackSettings)
  (scaleFew scaleMany : Qc) :
  scaleResolution few = scaleResolution many ->
  hasBandwidthPriority few = hasBandwidthPriority many ->
  numParticipants few <= numParticipants many ->
  scaleResolutionDownBy (calculateEncodingParameters few setting) = Some scaleFew ->
  scaleResolutionDownBy (calculateEncodingParameters many setting) = Some scaleMany ->
  (scaleFew <= scaleMany)%Qc.
Proof.
  intros Hs Hp Hn Hfew Hmany.
  destruct (scalesDown few setting) eqn:Efew.
  - apply scalesDown_true in Efew. destruct Efew as (Hn2 & Hp' & Hs' & [w Hw] & [h Hh]).
    rewrite (active_scale few setting h w) in Hfew by assumption.
    rewrite (active_scale many setting h w) in Hmany
      by (try assumption; try congruence; lia).
    injection Hfew as <-. injection Hmany as <-.
    destruct (targetHeight_lookup few Hn2) as [_ [Hlow _]].
    assert (Hmany2 : numParticipants many > 2) by lia.
    destruct (targetHeight_lookup many Hmany2) as [_ [Hlow' _]].
    assert (Hanti := targetHeight_antitone few many Hn2 Hn).
    destruct (Qclt_le_dec (Math_min h w) 0) as [Hneg | Hpos].
    + rewrite Math_max_r; [apply Math_max_ge_r |].
      apply div_le_one; [apply num_pos; lia |].
      apply Qcle_trans with (y := 0%Qc);
        [apply Qclt_le_weak, Hneg | apply Qclt_le_weak, num_pos; lia].
    + apply Math_max_mono.
      apply div_antitone_r; [exact Hpos | apply num_pos; lia | apply num_le, Hanti].
  - rewrite (idle_scale few setting Efew) in Hfew. injection Hfew as <-.
    destruct (scale_floor many setting) as (scale & Hscale & Hone).
    rewrite Hscale in Hmany. injection Hmany as <-. exact Hone.
Qed.

Lemma scale_monotone_in_participants_witness :
  ((num 720 / num 540)%js <= (num 720 / num 480)%js)%Qc.
Proof.
  apply (scale_monotone_in_participants (among 3) (among 5) hd720).
  - reflexivity.
  - reflexivity.
  - vm_compute. discriminate.
  - rewrite (active_scale (among 3) hd720 (num 720) (num 1280)) by reflexivity.
    f_equal; qc_eq.
  - rewrite (active_scale (among 5) hd720 (num 720) (num 1280)) by reflexivity.
    f_equal; qc_eq.
Defined.

(** ** [updateIndex]: the latest index decides *)

(** X5.  [updateIndex] overwrites what an earlier [updateIndex] computed: after
    two calls the policy is what the second call alone would have made it; in
    particular a repeated call with the same index changes nothing. *)
Theorem updateIndex_latest_wins
  (this : NScaleVideoUplinkBandwidthPolicy) (earlier latest : VideoStreamIndex) :
  updateIndex (updateIndex this earlier) latest = updateIndex this latest
  /\ updateIndex (updateIndex this latest) latest = updateIndex this latest.
Proof.
  assert (H : forall i j, updateIndex (updateIndex this i) j = updateIndex this j).
  { intros i j. rewrite !updateIndex_counted.
    destruct this as [id sr n opt eff ideal prio map tc prefs flag].
    unfold counted, getStreamCaptureSetting. simpl.
    destruct tc as [tc |]; reflexivity. }
  split; apply H.
Qed.

(** X6.  The encoding that [updateIndex] puts into the optimal parameters is
    the one that [updateTransceiverController()] computes next: with live
    capture settings, the recomputed encoding has the optimal parameters'
    bandwidth (times 1000) as [maxBitrate] and their scale as
    [scaleResolutionDownBy]. *)
Theorem updateIndex_agrees_with_encoding
  (this : NScaleVideoUplinkBandwidthPolicy) (videoIndex : VideoStreamIndex)
  (settings : MediaTrackSettings) :
  getStreamCaptureSetting this = Some settings ->
  let after := updateIndex this videoIndex in
  getStreamCaptureSetting after = Some settings
  /\ calculateEncodingParameters after settings
     = {| maxBitrate :=
            Some (num (paramMaxBandwidthKbps (optimalParameters after)) * num 1000)%js;
          scaleResolutionDownBy := Some (paramScale (optimalParameters after)) |}.
Proof.
  intros Hs. cbv zeta. rewrite updateIndex_counted, Hs.
  split; [exact Hs |]. reflexivity.
Qed.

Lemma updateIndex_agrees_with_encoding_witness :
  calculateEncodingParameters
    (updateIndex withCamera
       {| numberOfVideoPublishingParticipantsExcludingSelf := fun _ => 5 |}) hd720
  = {| maxBitrate := Some (num 641000);
       scaleResolutionDownBy := Some (num 3 / num 2)%Qc |}.
Proof.
  destruct (updateIndex_agrees_with_encoding withCamera
              {| numberOfVideoPublishingParticipantsExcludingSelf := fun _ => 5 |}
              hd720 eq_refl) as [_ ->].
  f_equal; f_equal; first [ vm_compute; reflexivity | qc_eq ].
Defined.

(** X7.  After a commit, running [updateIndex] again with an index that gives
    the same result does not ask for a resubscription: [wantsResubscribe()]
    then only reports a codec preference that is still unread. *)
Theorem unchanged_index_after_commit_is_quiet
  (this : NScaleVideoUplinkBandwidthPolicy) (videoIndex : VideoStreamIndex) :
  let committed := fst (chooseCaptureAndEncodeParameters (updateIndex this videoIndex)) in
  wantsResubscribe (updateIndex committed videoIndex)
  = wantsResubscribeForVideoCodecPreferenceChange this.
Proof.
  cbv zeta. unfold wantsResubscribe.
  replace (Param.equal _ _) with true; [rewrite !updateIndex_counted; simpl; apply orb_false_r |].
  symmetry. apply ParamFacts.equal_true.
  rewrite !updateIndex_counted.
  unfold chooseCaptureAndEncodeParameters. simpl. rewrite ParamFacts.clone_id.
  destruct this as [id sr n opt eff ideal prio map tc prefs flag].
  unfold counted, getStreamCaptureSetting. simpl.
  destruct tc as [tc |]; reflexivity.
Qed.

(** X19.  Under bandwidth priority [updateIndex] stores the whole ideal
    bandwidth (rounded toward zero) and no scale-down in the optimal
    parameters, whatever the number of participants and the capture; only the
    capture format still follows the count. *)
Theorem priority_overrides_participant_scaling
  (this : NScaleVideoUplinkBandwidthPolicy) (videoIndex : VideoStreamIndex) :
  hasBandwidthPriority this = true ->
  let after := updateIndex this videoIndex in
  paramMaxBandwidthKbps (optimalParameters after)
  = Math_trunc (idealMaxBandwidthKbps this)
  /\ paramScale (optimalParameters after) = num 1
  /\ (forall settings,
        calculateEncodingParameters after settings
        = {| maxBitrate :=
               Some (num (Math_trunc (idealMaxBandwidthKbps this)) * num 1000)%js;
             scaleResolutionDownBy := Some (num 1) |})
  /\ paramWidth (optimalParameters after)
     = (if bool_decide (numParticipants after > 4) then 320 else 640).
Proof.
  intros Hp. cbv zeta. rewrite updateIndex_counted.
  assert (Hidle : forall s settings,
             hasBandwidthPriority s = true -> scalesDown s settings = false).
  { intros s settings Hs. unfold scalesDown. rewrite Hs. simpl.
    rewrite !andb_false_r. reflexivity. }
  assert (Hband : forall s, hasBandwidthPriority s = true ->
                            maxBandwidthKbps s = Math_trunc (idealMaxBandwidthKbps s)).
  { intros s Hs. unfold maxBandwidthKbps. rewrite Hs. reflexivity. }
  split; [simpl; rewrite Hband by exact Hp; reflexivity |].
  split.
  - simpl. destruct (getStreamCaptureSetting this) as [settings |]; [| reflexivity].
    unfold calculateEncodingParameters. rewrite Hidle by exact Hp. reflexivity.
  - split; [| reflexivity].
    intros settings. unfold calculateEncodingParameters.
    rewrite Hidle by exact Hp. rewrite Hband by exact Hp. reflexivity.
Qed.

(** X19 with a camera and ten participants: 1400 kbps and scale 1 (without
    priority: 431 kbps). *)
Lemma priority_overrides_participant_scaling_witness :
  let after :=
    updateIndex (setHasBandwidthPriority withCamera true)
      {| numberOfVideoPublishingParticipantsExcludingSelf := fun _ => 9 |} in
  paramMaxBandwidthKbps (optimalParameters after) = 1400
  /\ paramScale (optimalParameters after) = num 1.
Proof.
  cbv zeta.
  destruct (priority_overrides_participant_scaling
              (setHasBandwidthPriority withCamera true)
              {| numberOfVideoPublishingParticipantsExcludingSelf := fun _ => 9 |}
              eq_refl) as (-> & -> & _).
  split; [vm_compute; reflexivity | reflexivity].
Defined.

(** ** Invariants of every history of calls *)

Section Histories.

Variable setEncodingParameters :
  TransceiverController -> gmap string RTCRtpEncodingParameters -> TransceiverController.

Abbreviation run1 := (Policy.call setEncodingParameters).
Abbreviation runAll := (Policy.calls setEncodingParameters).

Lemma runAll_snoc ops op this : runAll (ops ++ [op]) this = run1 op (runAll ops this).
Proof. unfold Policy.calls. rewrite foldl_app. reflexivity. Qed.

Lemma call_encodingParamMap op this :
  dom (encodingParamMap this) = {[encodingMapKey]} ->
  dom (encodingParamMap (run1 op this)) = {[encodingMapKey]}.
Proof.
  intros Hdom. destruct op; try exact Hdom.
  simpl. unfold updateTransceiverController.
  destruct (getStreamCaptureSetting this); [| exact Hdom].
  destruct (shouldUpdateEndcodingParameters _ _); [| exact Hdom].
  simpl. rewrite dom_insert_L, Hdom. set_solver.
Qed.

(** X8.  In every policy reached from its constructor the encoding map holds
    exactly one entry, under the key 'video'; so does every map that
    [updateTransceiverController()] pushes. *)
Theorem encodingParamMap_has_one_key
  (selfAttendeeId : string) (scaleResolution : bool) (history : list operation) :
  let this := runAll history (new selfAttendeeId scaleResolution) in
  dom (encodingParamMap this) = {[encodingMapKey]}
  /\ forall pushed,
      pushed ∈ snd (updateTransceiverController setEncodingParameters this) ->
      dom pushed = {[encodingMapKey]}.
Proof.
  cbv zeta.
  assert (Hdom : dom (encodingParamMap (runAll history (new selfAttendeeId scaleResolution)))
                 = {[encodingMapKey]}).
  { induction history as [| op history IH] using rev_ind.
    - simpl. apply dom_singleton_L.
    - rewrite runAll_snoc. apply call_encodingParamMap, IH. }
  split; [exact Hdom |].
  intros pushed. unfold updateTransceiverController.
  destruct (getStreamCaptureSetting _); [| intros H; apply elem_of_nil in H; destruct H].
  destruct (shouldUpdateEndcodingParameters _ _);
    [| intros H; apply elem_of_nil in H; destruct H].
  simpl. intros H. apply list_elem_of_singleton in H. subst pushed.
  rewrite dom_insert_L, Hdom. set_solver.
Qed.

Lemma updateIndex_shaped this videoIndex :
  policyShaped (optimalParameters (updateIndex this videoIndex)).
Proof.
  rewrite updateIndex_counted. unfold policyShaped, Param.new. right.
  cbn [paramWidth paramHeight paramFrameRate paramIsSimulcast paramScale
       optimalParameters set_optimalParameters].
  split; [| split; [reflexivity | split; [reflexivity |]]].
  - unfold captureWidth, captureHeight. case_bool_decide; auto.
  - destruct (getStreamCaptureSetting this) as [settings |]; [| apply Qcle_refl].
    destruct (scale_floor (counted this videoIndex) settings) as (scale & Heq & Hone).
    rewrite Heq. exact Hone.
Qed.

Lemma call_shaped op this :
  policyShaped (optimalParameters this) /\ policyShaped (parametersInEffect this) ->
  policyShaped (optimalParameters (run1 op this))
  /\ policyShaped (parametersInEffect (run1 op this)).
Proof.
  intros [Hopt Heff].
  destruct op;
    try (rewrite call_optimalParameters by (intros; discriminate);
         rewrite call_parametersInEffect by discriminate; auto).
  - split; [apply updateIndex_shaped |].
    rewrite call_parametersInEffect by discriminate. exact Heff.
  - simpl. rewrite ParamFacts.clone_id. auto.
Qed.

(** X9.  In every policy reached from its constructor, the optimal parameters
    and the parameters in effect are either still the value that the
    constructor built or one of 640x384 and 320x192 at 15 frames, not
    simulcast, with a scale of at least 1. *)
Theorem parameters_keep_their_shape
  (selfAttendeeId : string) (scaleResolution : bool) (history : list operation) :
  let this := runAll history (new selfAttendeeId scaleResolution) in
  policyShaped (optimalParameters this) /\ policyShaped (parametersInEffect this).
Proof.
  cbv zeta. induction history as [| op history IH] using rev_ind.
  - simpl. split; left; reflexivity.
  - rewrite runAll_snoc. apply call_shaped, IH.
Qed.

Lemma call_quiet op this :
  (forall videoIndex, op <> UpdateIndex videoIndex) ->
  (forall preferences, op <> SetVideoCodecPreferences preferences) ->
  wantsResubscribe this = false -> wantsResubscribe (run1 op this) = false.
Proof.
  intros Hu Hs. unfold wantsResubscribe.
  rewrite !orb_false_iff, !negb_false_iff, !ParamFacts.equal_true.
  intros [Hflag Heq]. rewrite call_flag.
  destruct op;
    first [ exfalso; exact (Hu _ eq_refl)
          | exfalso; exact (Hs _ eq_refl)
          | rewrite call_optimalParameters by assumption;
            rewrite call_parametersInEffect by discriminate; solve [auto]
          | simpl; rewrite ParamFacts.clone_id; solve [auto] ].
Qed.

(** X10.  Once [wantsResubscribe()] answers false - as it does after
    [chooseCaptureAndEncodeParameters()] and [chooseVideoCodecPreferences()]
    were both called, in either order - it keeps answering false through any
    calls other than [updateIndex] and [setVideoCodecPreferences]. *)
Theorem resubscribe_needs_updateIndex_or_preferences
  (this : NScaleVideoUplinkBandwidthPolicy) (later : list operation) :
  (forall videoIndex, UpdateIndex videoIndex ∉ later) ->
  (forall preferences, SetVideoCodecPreferences preferences ∉ later) ->
  (wantsResubscribe this = false -> wantsResubscribe (runAll later this) = false)
  /\ wantsResubscribe
       (runAll later
          (fst (chooseVideoCodecPreferences (fst (chooseCaptureAndEncodeParameters this)))))
     = false
  /\ wantsResubscribe
       (runAll later
          (fst (chooseCaptureAndEncodeParameters (fst (chooseVideoCodecPreferences this)))))
     = false.
Proof.
  intros Hu Hs.
  assert (Hkeep : forall s, wantsResubscribe s = false ->
                            wantsResubscribe (runAll later s) = false).
  { clear this. induction later as [| op later IH]; intros s Hq; [exact Hq |].
    simpl. apply IH.
    - intros i Hin. apply (Hu i), list_elem_of_further, Hin.
    - intros l Hin. apply (Hs l), list_elem_of_further, Hin.
    - apply call_quiet; try assumption.
      + intros i ->. apply (Hu i), list_elem_of_here.
      + intros l ->. apply (Hs l), list_elem_of_here. }
  split; [apply Hkeep |].
  split; apply Hkeep; unfold wantsResubscribe; simpl;
    rewrite ParamFacts.clone_id; apply negb_false_iff, ParamFacts.equal_true; reflexivity.
Qed.

Lemma no_push_no_change this :
  snd (updateTransceiverController setEncodingParameters this) = [] ->
  fst (updateTransceiverController setEncodingParameters this) = this.
Proof.
  unfold updateTransceiverController.
  destruct (getStreamCaptureSetting this); [| reflexivity].
  destruct (shouldUpdateEndcodingParameters _ _); [discriminate | reflexivity].
Qed.

Lemma pushesOf_quiet k this :
  snd (updateTransceiverController setEncodingParameters this) = [] ->
  pushesOf setEncodingParameters k this = [].
Proof.
  intros Hq. induction k as [| k IH]; [reflexivity |].
  simpl. destruct (updateTransceiverController setEncodingParameters this) as [s p] eqn:E.
  simpl in Hq. subst p. simpl.
  assert (Hs : s = this).
  { change s with (fst (s, @nil (gmap string RTCRtpEncodingParameters))).
    rewrite <- E. apply no_push_no_change. rewrite E. reflexivity. }
  rewrite Hs. exact IH.
Qed.

(** X11.  With a controller whose sender reports what was pushed, only the
    first of any number of calls of [updateTransceiverController()] in a row
    can push: all the pushes of [k + 1] calls are those of the first call, at
    most one. *)
Theorem repeated_updates_push_once
  (this : NScaleVideoUplinkBandwidthPolicy) (k : nat) :
  reportsPushes setEncodingParameters ->
  pushesOf setEncodingParameters (S k) this
  = snd (updateTransceiverController setEncodingParameters this)
  /\ (length (pushesOf setEncodingParameters (S k) this) <= 1)%nat.
Proof.
  intros Hreports.
  assert (Heq : pushesOf setEncodingParameters (S k) this
                = snd (updateTransceiverController setEncodingParameters this)).
  { simpl.
    assert (Hsecond := second_call_pushes_nothing setEncodingParameters this Hreports).
    destruct (updateTransceiverController setEncodingParameters this) as [s p].
    simpl in *. rewrite (pushesOf_quiet k s Hsecond). apply app_nil_r. }
  split; [exact Heq |]. rewrite Heq.
  unfold updateTransceiverController.
  destruct (getStreamCaptureSetting this); [| simpl; lia].
  destruct (shouldUpdateEndcodingParameters _ _); simpl; lia.
Qed.

End Histories.

Lemma repeated_updates_push_once_witness :
  pushesOf storing 3 withCamera
  = [ {[ encodingMapKey :=
           {| maxBitrate := Some (num 1400000);
              scaleResolutionDownBy := Some (num 1) |} ]} ].
Proof.
  destruct (repeated_updates_push_once storing withCamera 2 storing_reportsPushes)
    as [-> _].
  rewrite (updateTransceiverController_pushing storing withCamera hd720);
    [| reflexivity | vm_compute; reflexivity].
  cbv zeta. rewrite withCamera_encoding. simpl. f_equal; try apply insert_singleton_eq.
Defined.

(** X10 at the default policy with one participant, with a bandwidth query
    and a resubscription query after the two reads. *)
Lemma resubscribe_needs_updateIndex_or_preferences_witness :
  wantsResubscribe
    (Policy.calls ignoring [MaxBandwidthKbps; WantsResubscribe]
       (fst (chooseVideoCodecPreferences
               (fst (chooseCaptureAndEncodeParameters (among 0))))))
  = false.
Proof.
  apply (resubscribe_needs_updateIndex_or_preferences ignoring (among 0)
           [MaxBandwidthKbps; WantsResubscribe]).
  - intros videoIndex Hin.
    apply elem_of_cons in Hin. destruct Hin as [Hin | Hin]; [discriminate Hin |].
    apply list_elem_of_singleton in Hin. discriminate Hin.
  - intros preferences Hin.
    apply elem_of_cons in Hin. destruct Hin as [Hin | Hin]; [discriminate Hin |].
    apply list_elem_of_singleton in Hin. discriminate Hin.
Defined.

End PolicyMore.

(** * Further properties of the set-local-description task *)

Module TaskMore.

Import Task Vocabulary Scenario More TaskFacts.

Section Traces.

Variable requiresDisablingH264Encoding : bool.
Variable removeH264SupportFromSendSection : string -> string.
Variable withVideoSendCodecPreferences : string -> list VideoCodecCapability -> string.
Variable withAudioMaxAverageBitrate : string -> Z -> string.
Variable withStereoAudio : string -> string.

Abbreviation prepare' :=
  (Task.prepare requiresDisablingH264Encoding removeH264SupportFromSendSection
     withVideoSendCodecPreferences withAudioMaxAverageBitrate withStereoAudio).
Abbreviation run' :=
  (Task.run requiresDisablingH264Encoding removeH264SupportFromSendSection
     withVideoSendCodecPreferences withAudioMaxAverageBitrate withStereoAudio).
Abbreviation step' :=
  (Task.step requiresDisablingH264Encoding removeH264SupportFromSendSection
     withVideoSendCodecPreferences withAudioMaxAverageBitrate withStereoAudio).
Abbreviation exec' :=
  (Task.exec requiresDisablingH264Encoding removeH264SupportFromSendSection
     withVideoSendCodecPreferences withAudioMaxAverageBitrate withStereoAudio).

Lemma exec_app this before after :
  exec' this (before ++ after) = exec' (exec' this before) after.
Proof. unfold Task.exec. apply foldl_app. Qed.

Lemma exec_name trace this : name (exec' this trace) = name this.
Proof.
  revert this. induction trace as [| e trace IH]; intros this; [reflexivity |].
  simpl. rewrite IH. apply step_name.
Qed.

(** X12.  A run settles once: when its promise is fulfilled or rejected,
    nothing that happens to the task afterwards - further calls of [cancel()]
    or [run()], late answers of the endpoint - changes how it ended. *)
Theorem outcome_is_final
  (this : SetLocalDescriptionTask) (r : nat) (trace : list event) :
  outcome r this <> Pending ->
  outcome r (exec' this trace) = outcome r this.
Proof.
  unfold outcome. intros Hsettled.
  destruct (promises this !! r) as [v |] eqn:Hv; [| destruct Hsettled; reflexivity].
  simpl in Hsettled.
  rewrite (exec_settled requiresDisablingH264Encoding removeH264SupportFromSendSection
             withVideoSendCodecPreferences withAudioMaxAverageBitrate withStereoAudio
             trace this r v Hv Hsettled).
  reflexivity.
Qed.

Lemma step_consistent e this : consistent this -> consistent (step' this e).
Proof.
  intros [Hlen Hclosure]. unfold consistent.
  destruct e as [thrown | | r' | r' error]; simpl.
  - unfold Task.run. destruct (prepare' _) as [c o].
    destruct thrown as [error |]; simpl; split.
    + rewrite !length_app, Hlen. reflexivity.
    + intros r Hr. discriminate Hr.
    + rewrite !length_app, Hlen. reflexivity.
    + intros r Hr. injection Hr as <-. split.
      * rewrite lookup_app_r by lia. rewrite Nat.sub_diag. reflexivity.
      * rewrite <- Hlen. rewrite lookup_app_r by lia. rewrite Nat.sub_diag. reflexivity.
  - unfold cancel. destruct (cancelPromise this) as [r |] eqn:Hc.
    + split; simpl.
      * unfold settlePromise. rewrite length_alter. exact Hlen.
      * intros r0 Hr0. discriminate Hr0.
    + split; [exact Hlen |]. rewrite Hc. intros r Hr. discriminate Hr.
  - unfold resume. destruct (endpoint this !! r') as [[|] |] eqn:He;
      try (split; assumption).
    split; simpl.
    + unfold settlePromise. rewrite length_alter, length_insert. exact Hlen.
    + intros r Hr. discriminate Hr.
  - unfold resume. destruct (endpoint this !! r') as [[|] |] eqn:He;
      try (split; assumption).
    split; simpl.
    + unfold settlePromise. rewrite length_alter, length_insert. exact Hlen.
    + intros r Hr. discriminate Hr.
Qed.

Lemma exec_consistent trace this : consistent this -> consistent (exec' this trace).
Proof.
  revert this. induction trace as [| e trace IH]; intros this H; [exact H |].
  simpl. apply IH, step_consistent, H.
Qed.

Lemma new_consistent context label : consistent (new context label).
Proof. split; [reflexivity | intros r Hr; discriminate Hr]. Qed.

(** X13.  In every task that a trace leads to from a fresh one, a stored
    cancel closure belongs to a run that is still pending while its endpoint
    call is in flight; so whenever [cancel()] finds the closure, that run fails
    with the cancellation error, and the closure is gone afterwards. *)
Theorem stored_closure_cancels_a_pending_run
  (context : AudioVideoControllerState) (label : string) (trace : list event) (r : nat) :
  let this := exec' (new context label) trace in
  cancelPromise this = Some r ->
  outcome r this = Pending
  /\ endpoint this !! r = Some InFlight
  /\ outcome r (cancel this) = Rejected (JsError ("canceling " +:+ label))
  /\ cancelPromise (cancel this) = None.
Proof.
  cbv zeta. intros Hc.
  destruct (exec_consistent trace _ (new_consistent context label)) as [_ Hclosure].
  destruct (Hclosure r Hc) as [Hp He].
  unfold outcome. rewrite Hp. split; [reflexivity |]. split; [exact He |].
  unfold cancel. rewrite Hc. simpl. unfold settlePromise.
  rewrite list_lookup_alter_eq, Hp. simpl. rewrite exec_name. split; reflexivity.
Qed.

(** X15.  An endpoint call that throws at once fails the run with the thrown
    error, for good; no closure stays behind, so a later [cancel()] does
    nothing, and late answers for that call are ignored. *)
Theorem thrown_endpoint_error_fails_the_run
  (context : AudioVideoControllerState) (label : string) (error : Error) :
  let failed := run' (Some error) (new context label) in
  (forall rest, outcome 0 (exec' failed rest) = Rejected error)
  /\ cancelPromise failed = None
  /\ cancel failed = failed
  /\ (forall answer, resume 0 answer failed = failed)
  /\ length (offers failed) = 1%nat.
Proof.
  cbv zeta.
  destruct (run_fields requiresDisablingH264Encoding removeH264SupportFromSendSection
              withVideoSendCodecPreferences withAudioMaxAverageBitrate withStereoAudio
              (Some error) (new context label)) as (_ & Ho & Hp & Hc).
  simpl in Ho, Hp, Hc.
  assert (He : endpoint (run' (Some error) (new context label)) = [Done]).
  { unfold Task.run. destruct (prepare' _) as [c o]. reflexivity. }
  split.
  { intros rest. unfold outcome.
    rewrite (exec_settled requiresDisablingH264Encoding removeH264SupportFromSendSection
               withVideoSendCodecPreferences withAudioMaxAverageBitrate withStereoAudio
               rest _ 0%nat (Rejected error)); [reflexivity | | discriminate].
    rewrite Hp. reflexivity. }
  split; [exact Hc |].
  split; [apply cancel_idle, Hc |].
  split.
  - intros answer. unfold resume. rewrite He. reflexivity.
  - rewrite Ho. reflexivity.
Qed.

(** *** The log *)

Lemma fulfilled_alter outcome r ps :
  length (List.filter (fun p => bool_decide (p = Fulfilled)) (settlePromise r outcome ps))
  = (length (List.filter (fun p => bool_decide (p = Fulfilled)) ps)
     + length (logged r ps (settlePromise r outcome ps)))%nat.
Proof.
  unfold settlePromise, logged. revert r.
  induction ps as [| p ps IH]; intros r.
  - destruct r; reflexivity.
  - destruct r as [| r].
    + destruct p; [destruct outcome | |]; simpl; first [reflexivity | lia].
    + change (alter (settle outcome) (S r) (p :: ps))
        with (p :: alter (settle outcome) r ps).
      change ((p :: ps) !! S r) with (ps !! r).
      change ((p :: alter (settle outcome) r ps) !! S r)
        with (alter (settle outcome) r ps !! r).
      cbn [List.filter].
      destruct (bool_decide (p = Fulfilled)); cbn [length]; rewrite IH; reflexivity.
Qed.

Lemma logged_entries r before after :
  logged r before after
  = replicate (length (logged r before after)) "set local description".
Proof. unfold logged. case_bool_decide; reflexivity. Qed.

Lemma step_log e this :
  info this = replicate (fulfilled this) "set local description" ->
  info (step' this e) = replicate (fulfilled (step' this e)) "set local description".
Proof.
  unfold fulfilled. intros Hinfo.
  destruct e as [thrown | | r | r error]; simpl.
  - unfold Task.run. destruct (prepare' _) as [c o].
    destruct thrown; simpl; rewrite List.filter_app, length_app; simpl;
      rewrite Nat.add_0_r; exact Hinfo.
  - unfold cancel. destruct (cancelPromise this) as [r |]; [| exact Hinfo].
    simpl. rewrite fulfilled_alter.
    replace (length (logged r (promises this) _)) with 0%nat; [rewrite Nat.add_0_r; exact Hinfo |].
    unfold logged. case_bool_decide as Hlog; [| reflexivity].
    destruct Hlog as [Hp Hf]. unfold settlePromise in Hf.
    rewrite list_lookup_alter_eq, Hp in Hf. discriminate Hf.
  - unfold resume. destruct (endpoint this !! r) as [[|] |]; try exact Hinfo.
    simpl. rewrite fulfilled_alter, replicate_add, <- Hinfo, <- logged_entries.
    reflexivity.
  - unfold resume. destruct (endpoint this !! r) as [[|] |]; try exact Hinfo.
    simpl. rewrite fulfilled_alter, replicate_add, <- Hinfo, <- logged_entries.
    reflexivity.
Qed.

(** The entries that the body of [run()] wrote are as many as there are
    fulfilled promises. *)
Lemma own_entries (context : AudioVideoControllerState) (label : string)
  (trace : list event) :
  let this := exec' (new context label) trace in
  info this = replicate (fulfilled this) "set local description".
Proof.
  cbv zeta.
  generalize (new context label),
    (eq_refl : info (new context label)
               = replicate (fulfilled (new context label)) "set local description").
  induction trace as [| e trace IH]; intros this Hinfo; [exact Hinfo |].
  simpl. apply IH, step_log, Hinfo.
Qed.

(** X16.  The body of [run()] writes the entry 'set local description' once
    for each run that completed, and for no other: in every task that a trace
    leads to from a fresh one, that entry occurs among those written as often
    as there are fulfilled promises, which are no more than the runs; a
    cancelled or rejected run adds none. *)
Theorem one_log_entry_per_completed_run
  (context : AudioVideoControllerState) (label : string) (trace : list event) :
  let this := exec' (new context label) trace in
  length (List.filter (fun entry => bool_decide (entry = "set local description"))
            (info this))
  = fulfilled this
  /\ (fulfilled this <= runs trace)%nat.
Proof.
  cbv zeta. split.
  - rewrite own_entries.
    induction (fulfilled (exec' (new context label) trace)) as [| k IH];
      [reflexivity |].
    simpl. rewrite IH. reflexivity.
  - unfold fulfilled.
    assert (Hlen : length (promises (exec' (new context label) trace)) = runs trace).
    { destruct (exec_consistent trace _ (new_consistent context label)) as [Hlen _].
      assert (Hlen' : forall t this,
                 length (endpoint (exec' this t)) = (length (endpoint this) + runs t)%nat).
      { clear. induction t as [| e t IH]; intros this.
        - unfold runs. simpl. lia.
        - simpl. rewrite IH. unfold runs. simpl.
          destruct e as [thrown | | r | r error]; simpl.
          + unfold Task.run. destruct (prepare' _) as [c o].
            destruct thrown; simpl; rewrite length_app; simpl; lia.
          + unfold cancel. destruct (cancelPromise this); simpl; lia.
          + unfold resume. destruct (endpoint this !! r) as [[|] |]; simpl;
              rewrite ?length_insert; lia.
          + unfold resume. destruct (endpoint this !! r) as [[|] |]; simpl;
              rewrite ?length_insert; lia. }
      rewrite <- Hlen, Hlen'. reflexivity. }
    rewrite <- Hlen. apply List.filter_length_le.
Qed.

(** *** The offer and the policy *)

Lemma prepare_context context :
  sdpOfferInit (fst (prepare' context)) = sdpOfferInit context
  /\ audioProfile (fst (prepare' context)) = audioProfile context
  /\ videoUplinkBandwidthPolicy (fst (prepare' context))
     = match videoUplinkBandwidthPolicy context with
       | NScale p => NScale (fst (Policy.chooseVideoCodecPreferences p))
       | WithoutCodecPreferences => WithoutCodecPreferences
       end.
Proof.
  unfold Task.prepare.
  destruct (videoUplinkBandwidthPolicy context) as [p |]; simpl; auto.
Qed.

Lemma step_context e this :
  sdpOfferInit (context (step' this e)) = sdpOfferInit (context this)
  /\ audioProfile (context (step' this e)) = audioProfile (context this)
  /\ videoUplinkBandwidthPolicy (context (step' this e))
     = match e, videoUplinkBandwidthPolicy (context this) with
       | Run _, NScale p => NScale (fst (Policy.chooseVideoCodecPreferences p))
       | _, policy => policy
       end.
Proof.
  destruct e as [thrown | | r | r error]; simpl.
  - unfold Task.run.
    destruct (prepare_context (context this)) as (H1 & H2 & H3).
    destruct (prepare' (context this)) as [c o]. simpl in *.
    destruct thrown; simpl; rewrite H1, H2, H3;
      destruct (videoUplinkBandwidthPolicy (context this)); auto.
  - unfold cancel. destruct (cancelPromise this); simpl;
      destruct (videoUplinkBandwidthPolicy (context this)); auto.
  - unfold resume. destruct (endpoint this !! r) as [[|] |]; simpl;
      destruct (videoUplinkBandwidthPolicy (context this)); auto.
  - unfold resume. destruct (endpoint this !! r) as [[|] |]; simpl;
      destruct (videoUplinkBandwidthPolicy (context this)); auto.
Qed.

(** X17.  A run reads the codec preferences of the N-scale policy and thereby
    acknowledges them: from the first [run()] on, whatever follows (also a
    cancellation or a rejection), the policy of the context is the original
    one with its acknowledgment flag cleared - same preferences, same
    parameters - so that it no longer asks to resubscribe on account of the
    preferences.  The offer of the context and its audio profile are never
    touched. *)
Theorem run_acknowledges_codec_preferences
  (this : SetLocalDescriptionTask) (policy : NScaleVideoUplinkBandwidthPolicy)
  (thrown : option Error) (rest : list event) :
  videoUplinkBandwidthPolicy (context this) = NScale policy ->
  let after := exec' this (Run thrown :: rest) in
  videoUplinkBandwidthPolicy (context after)
  = NScale (fst (Policy.chooseVideoCodecPreferences policy))
  /\ sdpOfferInit (context after) = sdpOfferInit (context this)
  /\ audioProfile (context after) = audioProfile (context this)
  /\ (Policy.wantsResubscribe (fst (Policy.chooseVideoCodecPreferences policy)) = true
      <-> optimalParameters policy <> parametersInEffect policy).
Proof.
  intros Hpolicy. cbv zeta.
  assert (Hkeep : forall t s,
             videoUplinkBandwidthPolicy (context s)
             = NScale (fst (Policy.chooseVideoCodecPreferences policy)) ->
             videoUplinkBandwidthPolicy (context (exec' s t))
             = NScale (fst (Policy.chooseVideoCodecPreferences policy))
             /\ sdpOfferInit (context (exec' s t)) = sdpOfferInit (context s)
             /\ audioProfile (context (exec' s t)) = audioProfile (context s)).
  { induction t as [| e t IH]; intros s Hs; [auto |].
    simpl. destruct (step_context e s) as (H1 & H2 & H3).
    destruct (IH (step' s e)) as (K1 & K2 & K3).
    - rewrite H3, Hs. destruct e; reflexivity.
    - rewrite K1, K2, K3, H1, H2. auto. }
  simpl. destruct (step_context (Run thrown) this) as (H1 & H2 & H3).
  rewrite Hpolicy in H3. simpl in H1, H2, H3.
  destruct (Hkeep rest _ H3) as (K1 & K2 & K3).
  rewrite K1, K2, K3, H1, H2.
  repeat split; try reflexivity.
  - unfold Policy.wantsResubscribe. simpl.
    rewrite negb_true_iff, ParamFacts.equal_false. congruence.
  - unfold Policy.wantsResubscribe. simpl.
    rewrite negb_true_iff, ParamFacts.equal_false. congruence.
Qed.

(** X18.  The offer handed to the endpoint always has type 'offer'.  With
    nothing to rewrite - no H.264 workaround, no codec preference (an empty
    list, or a policy without the method), no audio profile - its SDP is the
    SDP of the context, unchanged; and with no codec preference the offer does
    not depend on [withVideoSendCodecPreferences], which is not called with an
    empty list. *)
Theorem prepare_leaves_unconfigured_offer_alone (context : AudioVideoControllerState) :
  type (snd (prepare' context)) = "offer"
  /\ (requiresDisablingH264Encoding = false -> noPreferences context ->
      audioProfile context = None ->
      sdp (snd (prepare' context)) = sdp (sdpOfferInit context))
  /\ (noPreferences context ->
      forall other : string -> list VideoCodecCapability -> string,
        snd (Task.prepare requiresDisablingH264Encoding removeH264SupportFromSendSection
               other withAudioMaxAverageBitrate withStereoAudio context)
        = snd (prepare' context)).
Proof.
  unfold Task.prepare, noPreferences.
  destruct (videoUplinkBandwidthPolicy context) as [p |]; simpl.
  - split; [reflexivity |]. split.
    + intros -> -> ->. reflexivity.
    + intros -> other. reflexivity.
  - split; [reflexivity |]. split.
    + intros -> _ ->. reflexivity.
    + intros _ other. reflexivity.
Qed.

End Traces.

(** X12 on [someContext]: a run cancelled in time stays cancelled when the
    endpoint resolves late and [run()] is called again. *)
Lemma outcome_is_final_witness :
  outcome 0
    (plainExec (plainExec (new someContext "SetLocalDescriptionTask") [Run None; Cancel])
       [EndpointResolves 0; Run None; EndpointResolves 1])
  = Rejected (JsError "canceling SetLocalDescriptionTask").
Proof.
  unfold plainExec. rewrite outcome_is_final; [reflexivity | discriminate].
Defined.

(** X13 on [someContext], right after [run()]. *)
Lemma stored_closure_cancels_a_pending_run_witness :
  outcome 0 (cancel (plainExec (new someContext "SetLocalDescriptionTask") [Run None]))
  = Rejected (JsError "canceling SetLocalDescriptionTask").
Proof.
  unfold plainExec.
  apply (stored_closure_cancels_a_pending_run
           false (fun s => s) (fun s _ => s) (fun s _ => s) (fun s => s)
           someContext "SetLocalDescriptionTask" [Run None] 0%nat).
  reflexivity.
Defined.

(** X17 on [someContext], whose policy prefers H.264 and has not been read:
    after a run that is cancelled, the policy is quiet. *)
Lemma run_acknowledges_codec_preferences_witness :
  match
    videoUplinkBandwidthPolicy
      (context (plainExec (new someContext "SetLocalDescriptionTask") [Run None; Cancel]))
  with
  | NScale policy =>
      Policy.wantsResubscribe policy = false
      /\ videoCodecPreferences policy = [Codec.h264ConstrainedBaselineProfile]
  | WithoutCodecPreferences => False
  end.
Proof.
  unfold plainExec.
  destruct (run_acknowledges_codec_preferences
              false (fun s => s) (fun s _ => s) (fun s _ => s) (fun s => s)
              (new someContext "SetLocalDescriptionTask")
              (Policy.setVideoCodecPreferences (Policy.new "self" true)
                 [Codec.h264ConstrainedBaselineProfile])
              None [Cancel] eq_refl) as (-> & _).
  split; reflexivity.
Defined.

(** X18 on a context without preferences and without audio profile. *)
Lemma prepare_leaves_unconfigured_offer_alone_witness :
  sdp (snd (Task.prepare false (fun s => s) (fun s _ => "rewritten") (fun s _ => s)
              (fun s => s)
              {| sdpOfferInit := {| type := "offer"; sdp := "v=0" |};
                 videoUplinkBandwidthPolicy := NScale (Policy.new "self" true);
                 audioProfile := None |}))
  = "v=0".
Proof.
  exact (proj1 (proj2 (prepare_leaves_unconfigured_offer_alone
                         false (fun s => s) (fun s _ => "rewritten") (fun s _ => s)
                         (fun s => s)
                         {| sdpOfferInit := {| type := "offer"; sdp := "v=0" |};
                            videoUplinkBandwidthPolicy := NScale (Policy.new "self" true);
                            audioProfile := None |}))
           eq_refl eq_refl eq_refl).
Defined.

End TaskMore.
